(** * DFIR-Orc archive rebuilder: a shallow embedding of
      [dfir-orc-archive-rebuilder.py] and the properties checked on it.

    Conventions of the embedding.
    - Python [str] and [bytes] values are Rocq [string]s (8-bit characters).
    - A Python [dict] is an association list in insertion order with unique
      keys ([dict_set] overwrites in place, or appends a new key).
    - A [pathlib.PurePosixPath] is an anchoring flag and a list of components;
      the distinction between the roots [/] and [//] is not represented.
    - A call that may raise returns an [outcome]; state (file system, error
      log, archive handles, warnings) is threaded explicitly.
    - The 7z and CSV decoders are external to the program: an archive entry
      carries, next to its bytes, what [csv.DictReader] and [SevenZipFile]
      make of them.  A table is the list of its rows, all of them decoded,
      each with a string for every column it has.
    - The place of a path in the file system is found from its names alone
      ([locate]): a [..] takes back the name before it.  The operating
      system goes through the directory that is stepped over, which has to
      exist, so the two agree on the paths without [..] ([direct]); the
      properties on which the difference bears are stated for those.
    - [os.utime] has no error of its own for a time that does not fit
      [time_t]; where that matters the times are required to fit
      ([fits_time_t]).
    - A pattern of [glob] is one component with the wildcards [*] and [?];
      a volume identifier is taken literally by it when it is a
      [plain_id]. *)

From Stdlib Require Import String Ascii List ZArith Lia Bool Arith.
From Stdlib Require Import DecimalString.
Import ListNotations.
Open Scope string_scope.

(* ================================================================= *)
(** ** Python strings *)

(** [s[1:]] *)
Definition tail_from_1 (s : string) : string :=
  match s with
  | EmptyString => EmptyString
  | String _ rest => rest
  end.

(** [s.startswith(p)] *)
Definition startswith (s p : string) : bool := String.prefix p s.

Fixpoint str_rev_acc (s acc : string) : string :=
  match s with
  | EmptyString => acc
  | String c rest => str_rev_acc rest (String c acc)
  end.

Definition str_rev (s : string) : string := str_rev_acc s EmptyString.

(** [s.endswith(p)] *)
Definition endswith (s p : string) : bool :=
  String.prefix (str_rev p) (str_rev s).

(** [s.replace(old, new)] for a non-empty [old]: the occurrences are taken
    from left to right and do not overlap.  [skip] counts the characters of
    the occurrence just replaced that are still to be passed over. *)
Fixpoint replace_from (old new s : string) (skip : nat) : string :=
  match s with
  | EmptyString => EmptyString
  | String c rest =>
      match skip with
      | S k => replace_from old new rest k
      | O =>
          if String.prefix old s
          then new ++ replace_from old new rest (String.length old - 1)
          else String c (replace_from old new rest 0)
      end
  end.

(** [s.replace("", new)]: [new] before every character and at the end. *)
Fixpoint intersperse_all (new s : string) : string :=
  match s with
  | EmptyString => new
  | String c rest => new ++ String c (intersperse_all new rest)
  end.

Definition str_replace (old new s : string) : string :=
  match old with
  | EmptyString => intersperse_all new s
  | String _ _ => replace_from old new s 0
  end.

Definition backslash : string := String (ascii_of_nat 92) EmptyString.

(** [s.replace('\\', '/')] *)
Definition to_unix (s : string) : string := str_replace backslash "/" s.

(** [s.split(sep)] for a one-character separator. *)
Fixpoint split_on (sep : ascii) (s : string) : list string :=
  match s with
  | EmptyString => [EmptyString]
  | String c rest =>
      if Ascii.eqb c sep then EmptyString :: split_on sep rest
      else match split_on sep rest with
           | [] => [String c EmptyString]
           | w :: ws => String c w :: ws
           end
  end.

(** [str(n)] for an integer. *)
Definition str_of_Z (n : Z) : string :=
  NilZero.string_of_int (Z.to_int n).

(* ================================================================= *)
(** ** Exceptions *)

Inductive exn : Type :=
| KeyError (key : string)
| ValueError
| TypeError
| OSError
| AttributeError.

Inductive outcome (A : Type) : Type :=
| Returned (a : A)
| Raised (e : exn).

Arguments Returned {A} a.
Arguments Raised {A} e.

Definition bind {A B : Type} (m : outcome A) (k : A -> outcome B) : outcome B :=
  match m with
  | Returned a => k a
  | Raised e => Raised e
  end.

Notation "x <- m ;; k" := (bind m (fun x => k))
  (at level 61, m at next level, right associativity).

(* ================================================================= *)
(** ** Dictionaries *)

Definition dict (V : Type) : Type := list (string * V).

Fixpoint dict_get {V : Type} (k : string) (d : dict V) : option V :=
  match d with
  | [] => None
  | (k', v) :: rest => if String.eqb k k' then Some v else dict_get k rest
  end.

(** [d[k] = v] *)
Fixpoint dict_set {V : Type} (k : string) (v : V) (d : dict V) : dict V :=
  match d with
  | [] => [(k, v)]
  | (k', v') :: rest =>
      if String.eqb k k' then (k', v) :: rest
      else (k', v') :: dict_set k v rest
  end.

Definition dict_keys {V : Type} (d : dict V) : list string := map fst d.

(** [d[k]], raising [KeyError] *)
Definition dict_item {V : Type} (k : string) (d : dict V) : outcome V :=
  match dict_get k d with
  | Some v => Returned v
  | None => Raised (KeyError k)
  end.

(** [{**a, **b}] *)
Definition dict_merge {V : Type} (a b : dict V) : dict V :=
  fold_left (fun acc kv => dict_set (fst kv) (snd kv) acc) b a.

(* ================================================================= *)
(** ** [_naming_convention_volume_folder] *)

Definition no_snapshot : string := "{00000000-0000-0000-0000-000000000000}".

Definition _naming_convention_volume_folder (volume_id snapshot_id : string)
  : string :=
  if String.eqb snapshot_id no_snapshot
  then volume_id
  else volume_id ++ " (vsc " ++ snapshot_id ++ ")".

(* ================================================================= *)
(** ** Pure paths *)

Record pure_path : Type := mkPath {
  absolute : bool;
  parts : list string
}.

Definition is_component (c : string) : bool :=
  negb (String.eqb c "") && negb (String.eqb c ".").

(** What one argument of [PurePosixPath(...)] or [joinpath] parses to. *)
Definition parse_segment (s : string) : pure_path :=
  mkPath (startswith s "/") (filter is_component (split_on "/"%char s)).

Definition join1 (p : pure_path) (seg : string) : pure_path :=
  let q := parse_segment seg in
  if absolute q then q
  else mkPath (absolute p) (parts p ++ parts q).

(** [p.joinpath(seg1, seg2, ...)] *)
Definition joinpath (p : pure_path) (segs : list string) : pure_path :=
  fold_left join1 segs p.

(** [p.parent] *)
Definition path_parent (p : pure_path) : pure_path :=
  mkPath (absolute p) (removelast (parts p)).

Fixpoint join_with (sep : string) (l : list string) : string :=
  match l with
  | [] => ""
  | [x] => x
  | x :: rest => x ++ sep ++ join_with sep rest
  end.

(** [str(p)] *)
Definition str_of_path (p : pure_path) : string :=
  match absolute p, parts p with
  | false, [] => "."
  | false, l => join_with "/" l
  | true, l => "/" ++ join_with "/" l
  end.

(** Where the operating system finds a path: [..] steps back to the parent
    (there are no symbolic links in the model), and stays at the root of an
    absolute path. *)
Definition norm_step (abs : bool) (stack : list string) (c : string)
  : list string :=
  if String.eqb c ".." then
    match stack with
    | [] => if abs then [] else [".."]
    | top :: below => if String.eqb top ".." then c :: stack else below
    end
  else c :: stack.

Definition normalize (p : pure_path) : pure_path :=
  mkPath (absolute p) (rev (fold_left (norm_step (absolute p)) (parts p) [])).

Fixpoint strip_prefix (pre l : list string) : option (list string) :=
  match pre, l with
  | [], _ => Some l
  | _ :: _, [] => None
  | x :: pre', y :: l' => if String.eqb x y then strip_prefix pre' l' else None
  end.

Definition has_dotdot (l : list string) : bool := existsb (String.eqb "..") l.

(** [p] designates [root] itself or something below it. *)
Definition is_under (root p : pure_path) : bool :=
  Bool.eqb (absolute root) (absolute p) &&
  match strip_prefix (parts (normalize root)) (parts (normalize p)) with
  | Some rest => negb (has_dotdot rest)
  | None => false
  end.

(** A joinpath argument that is relative and has no [..] component. *)
Definition plain_segment (s : string) : bool :=
  negb (absolute (parse_segment s)) && negb (has_dotdot (parts (parse_segment s))).

(* ================================================================= *)
(** ** Timestamps: [datetime.strptime(s, '%Y-%m-%d %H:%M:%S.%f').timestamp()] *)

Definition digit_of (c : ascii) : option Z :=
  let n := nat_of_ascii c in
  if (48 <=? n)%nat && (n <=? 57)%nat then Some (Z.of_nat (n - 48)) else None.

(** At most [max] leading decimal digits, and what follows them. *)
Fixpoint take_digits (max : nat) (s : string) : list Z * string :=
  match max, s with
  | S k, String c rest =>
      match digit_of c with
      | Some d => let '(ds, r) := take_digits k rest in (d :: ds, r)
      | None => ([], s)
      end
  | _, _ => ([], s)
  end.

Definition number_of (ds : list Z) : Z :=
  fold_left (fun acc d => 10 * acc + d)%Z ds 0%Z.

(** [%Y]: exactly four digits. *)
Definition field_year (s : string) : option (Z * string) :=
  let '(ds, r) := take_digits 4 s in
  if (length ds =? 4)%nat then Some (number_of ds, r) else None.

(** [%m], [%H], [%M], [%S]: one or two digits whose value lies in
    [lo..hi].  The directive is always followed by a literal that is not a
    digit, so taking the digits greedily accepts what the regular expression
    of [_strptime] accepts. *)
Definition field_2 (lo hi : Z) (s : string) : option (Z * string) :=
  let '(ds, r) := take_digits 2 s in
  let v := number_of ds in
  if (1 <=? length ds)%nat && (lo <=? v)%Z && (v <=? hi)%Z
  then Some (v, r) else None.

(** [%d] also accepts a space followed by one digit from 1 to 9. *)
Definition field_day (s : string) : option (Z * string) :=
  match s with
  | String " "%char (String c rest) =>
      match digit_of c with
      | Some d => if (1 <=? d)%Z then Some (d, rest) else None
      | None => None
      end
  | _ => field_2 1 31 s
  end.

(** [%f]: one to six digits, read as a fraction of a second in microseconds. *)
Definition field_micro (s : string) : option (Z * string) :=
  let '(ds, r) := take_digits 6 s in
  if (1 <=? length ds)%nat
  then Some ((number_of ds * 10 ^ Z.of_nat (6 - length ds))%Z, r)
  else None.

Definition literal (c : ascii) (s : string) : option string :=
  match s with
  | String c' rest => if Ascii.eqb c c' then Some rest else None
  | EmptyString => None
  end.

Definition is_space (c : ascii) : bool :=
  let n := nat_of_ascii c in
  (n =? 32)%nat || ((9 <=? n)%nat && (n <=? 13)%nat).

Fixpoint skip_spaces (s : string) : string :=
  match s with
  | String c rest => if is_space c then skip_spaces rest else s
  | EmptyString => s
  end.

(** A blank in the format stands for one or more white-space characters. *)
Definition spaces1 (s : string) : option string :=
  match s with
  | String c rest => if is_space c then Some (skip_spaces rest) else None
  | EmptyString => None
  end.

Definition is_leap (y : Z) : bool :=
  ((y mod 4 =? 0) && (negb (y mod 100 =? 0) || (y mod 400 =? 0)))%Z.

Definition days_in_month (y m : Z) : Z :=
  (if m =? 2 then (if is_leap y then 29 else 28)
   else if (m =? 4) || (m =? 6) || (m =? 9) || (m =? 11) then 30
   else 31)%Z.

Record naive_datetime : Type := mkDatetime {
  year : Z; month : Z; day : Z;
  hour : Z; minute : Z; second : Z; microsecond : Z
}.

Definition opt_bind {A B : Type} (o : option A) (k : A -> option B) : option B :=
  match o with Some a => k a | None => None end.

(** The text must match the whole format, and the fields must make a date
    that [datetime] accepts (year from 1, day within the month, second up to
    59); anything else is a [ValueError]. *)
Definition strptime (s : string) : outcome naive_datetime :=
  let parsed :=
    opt_bind (field_year s) (fun '(y, s) =>
    opt_bind (literal "-" s) (fun s =>
    opt_bind (field_2 1 12 s) (fun '(mo, s) =>
    opt_bind (literal "-" s) (fun s =>
    opt_bind (field_day s) (fun '(d, s) =>
    opt_bind (spaces1 s) (fun s =>
    opt_bind (field_2 0 23 s) (fun '(h, s) =>
    opt_bind (literal ":" s) (fun s =>
    opt_bind (field_2 0 59 s) (fun '(mi, s) =>
    opt_bind (literal ":" s) (fun s =>
    opt_bind (field_2 0 61 s) (fun '(sec, s) =>
    opt_bind (literal "." s) (fun s =>
    opt_bind (field_micro s) (fun '(us, s) =>
      match s with
      | EmptyString => Some (mkDatetime y mo d h mi sec us)
      | String _ _ => None
      end))))))))))))) in
  match parsed with
  | Some dt =>
      if ((1 <=? year dt) && (day dt <=? days_in_month (year dt) (month dt))
          && (second dt <=? 59))%Z
      then Returned dt else Raised ValueError
  | None => Raised ValueError
  end.

(** Days from 1970-01-01 to the given date of the proleptic Gregorian
    calendar. *)
Definition days_from_civil (y m d : Z) : Z :=
  (let y' := if m <=? 2 then y - 1 else y in
   let era := y' / 400 in
   let yoe := y' - era * 400 in
   let mp := if 2 <? m then m - 3 else m + 9 in
   let doy := (153 * mp + 2) / 5 + d - 1 in
   let doe := yoe * 365 + yoe / 4 - yoe / 100 + doy in
   era * 146097 + doe - 719468)%Z.

(** Seconds from 1970-01-01 00:00:00 to the wall-clock reading, the reading
    being taken as it stands. *)
Definition wall_seconds (dt : naive_datetime) : Z :=
  (days_from_civil (year dt) (month dt) (day dt) * 86400
   + hour dt * 3600 + minute dt * 60 + second dt)%Z.

(** The time zone of the host: the offset from UTC, in seconds east, that is
    in force at a wall-clock reading. *)
Definition timezone : Type := Z -> Z.

Definition utc : timezone := fun _ => 0%Z.

(** [int(dt.timestamp())] for a [datetime] without [tzinfo]: the reading is
    local time; [int] truncates towards zero.  (The float rounding of
    [seconds + microsecond / 1e6] and the range limits of the platform's
    [mktime] are not represented.) *)
Definition int_timestamp (tz : timezone) (dt : naive_datetime) : Z :=
  (let s := wall_seconds dt - tz (wall_seconds dt) in
   Z.quot (s * 1000000 + microsecond dt) 1000000)%Z.

Definition parse_time (tz : timezone) (s : string) : outcome Z :=
  dt <- strptime s ;; Returned (int_timestamp tz dt).

(* ================================================================= *)
(** ** [_parse_getthis] and [_parse_volstats] *)

(** A row of [csv.DictReader]: column name to field. *)
Definition csv_row : Type := dict string.

Record target : Type := mkTarget {
  path : pure_path;
  mtime : Z;
  atime : Z
}.

(** The ['path'] of a row:
    [destination_folder.joinpath(_naming_convention_volume_folder(VolumeID,
    SnapshotID), FullName.replace('\\', '/')[1:])]. *)
Definition resolved_path (destination_folder : pure_path)
    (volume_id snapshot_id full_name : string) : pure_path :=
  joinpath destination_folder
    [_naming_convention_volume_folder volume_id snapshot_id;
     tail_from_1 (to_unix full_name)].

(** The body of the loop of [_parse_getthis]: the right-hand side is
    evaluated before the key. *)
Definition getthis_row (tz : timezone) (destination_folder : pure_path)
    (result : dict target) (row : csv_row) : outcome (dict target) :=
  volume_id <- dict_item "VolumeID" row ;;
  snapshot_id <- dict_item "SnapshotID" row ;;
  full_name <- dict_item "FullName" row ;;
  let p := resolved_path destination_folder volume_id snapshot_id full_name in
  lmd <- dict_item "LastModificationDate" row ;;
  mt <- parse_time tz lmd ;;
  lad <- dict_item "LastAccessDate" row ;;
  at_ <- parse_time tz lad ;;
  sample_name <- dict_item "SampleName" row ;;
  Returned (dict_set (to_unix sample_name) (mkTarget p mt at_) result).

Fixpoint fold_rows {S : Type} (f : S -> csv_row -> outcome S)
    (rows : list csv_row) (acc : S) : outcome S :=
  match rows with
  | [] => Returned acc
  | row :: rest => acc' <- f acc row ;; fold_rows f rest acc'
  end.

Definition _parse_getthis (tz : timezone) (getthis_content : list csv_row)
    (destination_folder : pure_path) : outcome (dict target) :=
  fold_rows (getthis_row tz destination_folder) getthis_content [].

(** [s[0]] of a non-empty string *)
Definition first_char (s : string) : string :=
  match s with
  | String c _ => String c EmptyString
  | EmptyString => EmptyString
  end.

(** The body of the loop of [_parse_volstats]: [row.get('MountPoint', '')]
    is true for a non-empty string. *)
Definition volstats_row (result : dict string) (row : csv_row)
  : outcome (dict string) :=
  match dict_get "MountPoint" row with
  | Some (String _ _ as mount_point) =>
      volume_id <- dict_item "VolumeID" row ;;
      Returned (dict_set volume_id (first_char mount_point) result)
  | _ => Returned result
  end.

Definition _parse_volstats (volstats_content : list csv_row)
  : outcome (dict string) :=
  fold_rows volstats_row volstats_content [].

(* ================================================================= *)
(** ** The file system *)

(** A file keeps its content and, once [os.utime] has set them, its access
    and modification times. *)
#[warning="-register-all"]
Inductive node : Type :=
| File (content : string) (times : option (Z * Z))
| Dir (entries : list (string * node)).

Inductive os_call : Type :=
| CallMkdir | CallOpen | CallWrite | CallUtime | CallRename.

(** The host: its time zone, the directory that relative paths start from,
    and the calls that the operating system refuses for reasons outside the
    model (permissions, a full disk, a path that is too long). *)
Record host : Type := mkHost {
  tz : timezone;
  cwd : list string;
  refuses : os_call -> pure_path -> bool
}.

(** The components, from the root, of the place a path designates. *)
Definition locate (h : host) (p : pure_path) : list string :=
  parts (normalize (if absolute p then p else mkPath true (cwd h ++ parts p))).

Fixpoint fs_lookup (ps : list string) (n : node) : option node :=
  match ps with
  | [] => Some n
  | c :: rest =>
      match n with
      | Dir es =>
          match dict_get c es with
          | Some child => fs_lookup rest child
          | None => None
          end
      | File _ _ => None
      end
  end.

(** Put [new] at [ps]; the directory that holds it must exist. *)
Fixpoint fs_put (ps : list string) (new : node) (n : node) : option node :=
  match ps, n with
  | [c], Dir es => Some (Dir (dict_set c new es))
  | c :: rest, Dir es =>
      match dict_get c es with
      | Some child =>
          match fs_put rest new child with
          | Some child' => Some (Dir (dict_set c child' es))
          | None => None
          end
      | None => None
      end
  | _, _ => None
  end.

Definition dict_remove {V : Type} (k : string) (d : dict V) : dict V :=
  filter (fun kv => negb (String.eqb k (fst kv))) d.

(** Take away what is at [ps]. *)
Fixpoint fs_remove (ps : list string) (n : node) : option node :=
  match ps, n with
  | [c], Dir es => Some (Dir (dict_remove c es))
  | c :: rest, Dir es =>
      match dict_get c es with
      | Some child =>
          match fs_remove rest child with
          | Some child' => Some (Dir (dict_set c child' es))
          | None => None
          end
      | None => None
      end
  | _, _ => None
  end.

(** [mkdir(parents=True, exist_ok=True)]: fails when a file is in the way. *)
Fixpoint mkdir_p (ps : list string) (n : node) : option node :=
  match n with
  | File _ _ => None
  | Dir es =>
      match ps with
      | [] => Some n
      | c :: rest =>
          let child := match dict_get c es with
                       | Some child => child
                       | None => Dir []
                       end in
          match mkdir_p rest child with
          | Some child' => Some (Dir (dict_set c child' es))
          | None => None
          end
      end
  end.

(** [p.is_file()] *)
Definition is_file (h : host) (p : pure_path) (root : node) : bool :=
  match fs_lookup (locate h p) root with
  | Some (File _ _) => true
  | _ => false
  end.

(** [p.mkdir(exist_ok=True)]: the parent must exist. *)
Definition mkdir_exist_ok (h : host) (p : pure_path) (root : node)
  : outcome node :=
  if refuses h CallMkdir p then Raised OSError else
  match fs_lookup (locate h p) root with
  | Some (Dir _) => Returned root
  | Some (File _ _) => Raised OSError
  | None =>
      match fs_put (locate h p) (Dir []) root with
      | Some root' => Returned root'
      | None => Raised OSError
      end
  end.

(** [p.mkdir(parents=True, exist_ok=True)] *)
Definition mkdir_parents (h : host) (p : pure_path) (root : node)
  : outcome node :=
  if refuses h CallMkdir p then Raised OSError else
  match mkdir_p (locate h p) root with
  | Some root' => Returned root'
  | None => Raised OSError
  end.

(** [open(p, 'wb')] (or ['w']): an empty file, in place of any file that
    was there. *)
Definition open_w (h : host) (p : pure_path) (root : node) : outcome node :=
  if refuses h CallOpen p then Raised OSError else
  match fs_lookup (locate h p) root with
  | Some (Dir _) => Raised OSError
  | _ =>
      match fs_put (locate h p) (File "" None) root with
      | Some root' => Returned root'
      | None => Raised OSError
      end
  end.

(** [file_d.write(content)] on the file opened at [p]. *)
Definition write_all (h : host) (p : pure_path) (content : string)
    (root : node) : outcome node :=
  if refuses h CallWrite p then Raised OSError else
  match fs_put (locate h p) (File content None) root with
  | Some root' => Returned root'
  | None => Raised OSError
  end.

(** [os.utime(p, times=(atime, mtime))] *)
Definition utime (h : host) (p : pure_path) (atime mtime : Z) (root : node)
  : outcome node :=
  if refuses h CallUtime p then Raised OSError else
  match fs_lookup (locate h p) root with
  | Some (File content _) =>
      match fs_put (locate h p) (File content (Some (atime, mtime))) root with
      | Some root' => Returned root'
      | None => Raised OSError
      end
  | Some (Dir _) => Returned root
  | None => Raised OSError
  end.

Fixpoint is_prefix_of (pre l : list string) : bool :=
  match pre, l with
  | [], _ => true
  | _ :: _, [] => false
  | x :: pre', y :: l' => String.eqb x y && is_prefix_of pre' l'
  end.

Definition list_eqb (a b : list string) : bool :=
  is_prefix_of a b && is_prefix_of b a.

(** [src.rename(dst)] as POSIX has it: nothing happens when both are the
    same place; a file replaces a file and a directory replaces an empty
    directory; any other occupied target, a missing source, a missing
    target directory and a target inside the source are errors. *)
Definition rename (h : host) (src dst : pure_path) (root : node)
  : outcome node :=
  if refuses h CallRename src then Raised OSError else
  let s := locate h src in
  let d := locate h dst in
  match fs_lookup s root with
  | None => Raised OSError
  | Some moved =>
      if list_eqb s d then Returned root
      else if is_prefix_of s d then Raised OSError
      else
        let compatible :=
          match moved, fs_lookup d root with
          | _, None => true
          | File _ _, Some (File _ _) => true
          | Dir _, Some (Dir []) => true
          | _, _ => false
          end in
        if compatible then
          match fs_remove s root with
          | Some root1 =>
              match fs_put d moved root1 with
              | Some root2 => Returned root2
              | None => Raised OSError
              end
          | None => Raised OSError
          end
        else Raised OSError
  end.

(** The names in the directory at [ps]; none when there is no directory. *)
Definition names_at (ps : list string) (root : node) : list string :=
  match fs_lookup ps root with
  | Some (Dir es) => dict_keys es
  | _ => []
  end.

(** The names in the directory at [p], as [scandir] lists them. *)
Definition listdir (h : host) (p : pure_path) (root : node) : list string :=
  names_at (locate h p) root.

(** Matching of one name against a pattern, as [fnmatch] does it for the
    wildcards [*] and [?].  (Character classes in brackets and patterns of
    several components are not represented: a volume identifier with [[] or
    [/] in it is outside the model.) *)
Fixpoint fnmatch (pat name : string) {struct pat} : bool :=
  match pat with
  | EmptyString => match name with EmptyString => true | _ => false end
  | String c pat' =>
      if Ascii.eqb c "*" then
        (fix star (n : string) : bool :=
           fnmatch pat' n ||
           match n with
           | String _ n' => star n'
           | EmptyString => false
           end) name
      else
        match name with
        | String c' name' =>
            (Ascii.eqb c "?" || Ascii.eqb c c') && fnmatch pat' name'
        | EmptyString => false
        end
  end.

(** [p.glob(pattern)] for a pattern of one component: the matching names,
    collected before any of them is used. *)
Definition glob (h : host) (p : pure_path) (pattern : string) (root : node)
  : list string :=
  filter (fnmatch pattern) (listdir h p root).

(* ================================================================= *)
(** ** The state of a run *)

Record world : Type := mkWorld {
  fs : node;                  (* the file system, from its root *)
  log : list string;          (* what was written to the error log, in order *)
  warnings : list string;     (* the messages of [logging.warning] *)
  next_handle : nat;          (* the archive handles given out so far *)
  open_handles : list nat     (* the archive handles not closed yet *)
}.

Definition set_fs (w : world) (root : node) : world :=
  mkWorld root (log w) (warnings w) (next_handle w) (open_handles w).

Definition warn (msg : string) (w : world) : world :=
  mkWorld (fs w) (log w) (warnings w ++ [msg]) (next_handle w) (open_handles w).

Definition log_write (line : string) (w : world) : world :=
  mkWorld (fs w) (log w ++ [line]) (warnings w) (next_handle w) (open_handles w).

Definition open_handle (w : world) : nat * world :=
  (next_handle w,
   mkWorld (fs w) (log w) (warnings w) (S (next_handle w))
           (next_handle w :: open_handles w)).

Definition close_handle (i : nat) (w : world) : world :=
  mkWorld (fs w) (log w) (warnings w) (next_handle w)
          (filter (fun j => negb (Nat.eqb i j)) (open_handles w)).

(* ================================================================= *)
(** ** [_write_file] *)

(** [atime and mtime]: both given and both non-zero. *)
Definition both_set (atime mtime : option Z) : option (Z * Z) :=
  match atime, mtime with
  | Some a, Some m => if ((a =? 0) || (m =? 0))%Z then None else Some (a, m)
  | _, _ => None
  end.

(** The statements inside [try]: [Returned false] is the early
    [return False], [Raised] is what the [except] clause will catch. *)
Definition write_attempt (h : host) (file_path : pure_path) (content : string)
    (w : world) : outcome bool * world :=
  if is_file h file_path (fs w) then
    (Returned false,
     warn ("File " ++ str_of_path file_path ++ " already exists") w)
  else
    match mkdir_parents h (path_parent file_path) (fs w) with
    | Raised e => (Raised e, w)
    | Returned root1 =>
        match open_w h file_path root1 with
        | Raised e => (Raised e, set_fs w root1)
        | Returned root2 =>
            match write_all h file_path content root2 with
            | Raised e => (Raised e, set_fs w root2)
            | Returned root3 => (Returned true, set_fs w root3)
            end
        end
    end.

Definition _write_file (h : host) (file_path : pure_path) (content : string)
    (atime mtime : option Z) (w : world) : outcome bool * world :=
  match write_attempt h file_path content w with
  | (Raised _, w1) =>
      (* except (OSError, Exception) *)
      (Returned false, warn ("Can't write file " ++ str_of_path file_path) w1)
  | (Returned false, w1) => (Returned false, w1)
  | (Returned true, w1) =>
      match both_set atime mtime with
      | Some (a, m) =>
          match utime h file_path a m (fs w1) with
          | Returned root => (Returned true, set_fs w1 root)
          | Raised e => (Raised e, w1)
          end
      | None => (Returned true, w1)
      end
  end.

(* ================================================================= *)
(** ** Archives *)

(** What [SevenZipFile(...)] followed by [readall()] makes of some bytes. *)
Inductive sevenzip (B : Type) : Type :=
| Bad7zFile                                (* the constructor raises it *)
| OpenRaises (e : exn)                     (* the constructor raises another *)
| ReadRaises (e : exn)                     (* [readall] raises *)
| Opened (files : list (string * B)).      (* the entries, in archive order *)

Arguments Bad7zFile {B}.
Arguments OpenRaises {B} e.
Arguments ReadRaises {B} e.
Arguments Opened {B} files.

(** An archive entry: its bytes, the rows [csv.DictReader] reads from them,
    and what they are as a 7z container under an optional password. *)
#[warning="-register-all"]
Inductive blob : Type :=
| Blob (data : string)
       (as_csv : list csv_row)
       (as_7z : option string -> sevenzip blob).

Definition blob_data (b : blob) : string :=
  match b with Blob data _ _ => data end.

Definition blob_csv (b : blob) : list csv_row :=
  match b with Blob _ rows _ => rows end.

Definition blob_7z (b : blob) : option string -> sevenzip blob :=
  match b with Blob _ _ z => z end.

(** The value of [_extract_artefacts_recusrive]: [False], or the dictionary
    whose only key is ['volstat']. *)
Inductive walk_result : Type :=
| ReturnedFalse
| Result (volstat : dict string).

Definition newline : string := String (ascii_of_nat 10) EmptyString.

(** [repr] of a string that needs no escaping. *)
Definition repr_str (s : string) : string := "'" ++ s ++ "'".

(** How an f-string shows an entry of the manifest mapping. *)
Definition format_target (t : target) : string :=
  "{'path': PosixPath(" ++ repr_str (str_of_path (path t)) ++
  "), 'mtime': " ++ str_of_Z (mtime t) ++
  ", 'atime': " ++ str_of_Z (atime t) ++ "}".

Definition membership (x : string) (l : list string) : bool :=
  existsb (String.eqb x) l.

(* ================================================================= *)
(** ** [_extract_artefacts_recusrive] *)

Section Walker.

Variable h : host.
Variable destination_folder : pure_path.
Variable archives_with_password : dict string.
Variable report_files : list string.
Variable report_destination_directory : option pure_path.

Definition walker : Type :=
  blob -> string -> world -> outcome walk_result * world.

(** One turn of the loop over [files.items()]. *)
Definition entry_step (recurse : walker) (archive_name : string)
    (getthis_mapping : dict target) (volstat : dict string)
    (filename : string) (file_content : blob) (w : world)
  : outcome (dict string) * world :=
  match dict_get filename getthis_mapping with
  | Some t =>
      match _write_file h (path t) (blob_data file_content)
              (Some (atime t)) (Some (mtime t)) w with
      | (Returned true, w1) => (Returned volstat, w1)
      | (Returned false, w1) =>
          (Returned volstat,
           log_write (archive_name ++ "," ++ filename ++ "," ++
                      format_target t ++ newline) w1)
      | (Raised e, w1) => (Raised e, w1)
      end
  | None =>
      if membership (archive_name ++ "/" ++ filename) report_files then
        match report_destination_directory with
        | None => (Raised AttributeError, w)
        | Some dir =>
            let p := joinpath dir [filename] in
            match _write_file h p (blob_data file_content) None None w with
            | (Returned true, w1) => (Returned volstat, w1)
            | (Returned false, w1) =>
                (Returned volstat,
                 log_write (archive_name ++ "," ++ filename ++ "," ++
                            str_of_path p ++ newline) w1)
            | (Raised e, w1) => (Raised e, w1)
            end
        end
      else if endswith filename ".7z" then
        match recurse file_content filename w with
        | (Returned (Result sub), w1) =>
            (Returned (dict_merge volstat sub), w1)
        | (Returned ReturnedFalse, w1) => (Returned volstat, w1)
        | (Raised e, w1) => (Raised e, w1)
        end
      else (Returned volstat, w)
  end.

Definition entries_loop (recurse : walker) (archive_name : string)
    (getthis_mapping : dict target)
  : list (string * blob) -> dict string -> world ->
    outcome (dict string) * world :=
  fix loop files volstat w :=
    match files with
    | [] => (Returned volstat, w)
    | (filename, file_content) :: rest =>
        match entry_step recurse archive_name getthis_mapping volstat
                filename file_content w with
        | (Returned volstat', w1) => loop rest volstat' w1
        | (Raised e, w1) => (Raised e, w1)
        end
    end.

(** What follows a successful [readall()], up to the [return]. *)
Definition walk_opened (recurse : walker) (archive_name : string)
    (handle : nat) (files : list (string * blob)) (w : world)
  : outcome walk_result * world :=
  match
    match dict_get "GetThis.csv" files with
    | Some b => _parse_getthis (tz h) (blob_csv b) destination_folder
    | None => Returned []
    end
  with
  | Raised e => (Raised e, w)
  | Returned getthis_mapping =>
      match
        match dict_get "volstats.csv" files with
        | Some b => _parse_volstats (blob_csv b)
        | None => Returned []
        end
      with
      | Raised e => (Raised e, w)
      | Returned volstat0 =>
          match entries_loop recurse archive_name getthis_mapping
                  files volstat0 w with
          | (Returned volstat, w1) =>
              (Returned (Result volstat), close_handle handle w1)
          | (Raised e, w1) => (Raised e, w1)
          end
      end
  end.

Fixpoint _extract_artefacts_recusrive (archive : blob)
    (archive_name : string) (w : world) {struct archive}
  : outcome walk_result * world :=
  match archive with
  | Blob _ _ as_7z =>
      match as_7z (dict_get archive_name archives_with_password) with
      | Bad7zFile =>
          (Returned ReturnedFalse,
           warn (archive_name ++ " is not a valid 7z file") w)
      | OpenRaises e => (Raised e, w)
      | ReadRaises e => (Raised e, snd (open_handle w))
      | Opened files =>
          let '(handle, w1) := open_handle w in
          walk_opened _extract_artefacts_recusrive archive_name
            handle files w1
      end
  end.

End Walker.

(* ================================================================= *)
(** ** [_rename_volumes] *)

(** The path that [glob] yields for a name of the listing. *)
Definition child (p : pure_path) (name : string) : pure_path :=
  mkPath (absolute p) (parts p ++ [name]).

(** The inner loop: every directory entry that the pattern matched is
    renamed in turn.  The file system comes back also when a call raises. *)
Fixpoint rename_each (h : host) (destination_folder : pure_path)
    (volume_id letter : string) (dirs : list string) (root : node)
  : outcome unit * node :=
  match dirs with
  | [] => (Returned tt, root)
  | name :: rest =>
      match rename h (child destination_folder name)
              (joinpath destination_folder
                 [str_replace volume_id letter name]) root with
      | Returned root1 =>
          rename_each h destination_folder volume_id letter rest root1
      | Raised e => (Raised e, root)
      end
  end.

(** The outer loop, over the keys of the mapping. *)
Fixpoint rename_keys (h : host) (destination_folder : pure_path)
    (volumeid_mapped_to_drive_letter : dict string) (keys : list string)
    (root : node) : outcome unit * node :=
  match keys with
  | [] => (Returned tt, root)
  | volume_id :: rest =>
      match dict_get volume_id volumeid_mapped_to_drive_letter with
      | None => (Raised (KeyError volume_id), root)
      | Some letter =>
          match rename_each h destination_folder volume_id letter
                  (glob h destination_folder (volume_id ++ "*") root) root with
          | (Returned _, root1) =>
              rename_keys h destination_folder
                volumeid_mapped_to_drive_letter rest root1
          | (Raised e, root1) => (Raised e, root1)
          end
      end
  end.

Definition _rename_volumes (h : host) (destination_folder : pure_path)
    (volumeid_mapped_to_drive_letter : dict string) (root : node)
  : outcome unit * node :=
  rename_keys h destination_folder volumeid_mapped_to_drive_letter
    (dict_keys volumeid_mapped_to_drive_letter) root.

(* ================================================================= *)
(** ** [artefact_rebuilder] *)

(** The configuration file, as [tomllib.load] returns it. *)
Record configuration : Type := mkConfiguration {
  protected_sub_archive : dict string;
  reports_filenames : list string;
  reports_target_directory : string
}.

Definition log_header : string :=
  "Archive Name,Artefact Name,Expected Target Path" ++ newline.

(** Leaving the [with] block: what was written to the log is in its file. *)
Definition flush_log (h : host) (log_path : pure_path) (w : world) : world :=
  match fs_put (locate h log_path) (File (String.concat "" (log w)) None)
          (fs w) with
  | Some root => set_fs w root
  | None => w
  end.

Definition artefact_rebuilder (h : host) (archive : blob)
    (destination_folder : pure_path)
    (configuration_file : option configuration) (rename_volumes : bool)
    (w : world) : outcome bool * world :=
  let log_path :=
    joinpath destination_folder ["artefacts_non_extracted.csv"] in
  match mkdir_exist_ok h destination_folder (fs w) with
  | Raised e => (Raised e, w)
  | Returned root1 =>
      let loaded :=
        match configuration_file with
        | None => Returned (root1, [], [], None)
        | Some c =>
            let dir :=
              joinpath destination_folder [reports_target_directory c] in
            root2 <- mkdir_exist_ok h dir root1 ;;
            Returned (root2, protected_sub_archive c, reports_filenames c,
                      Some dir)
        end in
      match loaded with
      | Raised e => (Raised e, set_fs w root1)
      | Returned (root2, archives_with_password, report_files,
                  report_destination_directory) =>
          match open_w h log_path root2 with
          | Raised e => (Raised e, set_fs w root2)
          | Returned root3 =>
              let w3 :=
                mkWorld root3 [log_header] (warnings w) (next_handle w)
                        (open_handles w) in
              match _extract_artefacts_recusrive h destination_folder
                      archives_with_password report_files
                      report_destination_directory archive "." w3 with
              | (Raised e, w4) => (Raised e, flush_log h log_path w4)
              | (Returned extract_results, w4) =>
                  let w5 := flush_log h log_path w4 in
                  if rename_volumes then
                    match extract_results with
                    | ReturnedFalse => (Raised TypeError, w5)
                    | Result volstat =>
                        match _rename_volumes h destination_folder volstat
                                (fs w5) with
                        | (Returned _, root6) =>
                            (Returned true, set_fs w5 root6)
                        | (Raised e, root6) => (Raised e, set_fs w5 root6)
                        end
                    end
                  else (Returned true, w5)
              end
          end
      end
  end.

(* ================================================================= *)
(** ** Sample data *)

Module Sample.

(** A host in UTC on which no call is refused. *)
Definition quiet_host : host := mkHost utc [] (fun _ _ => false).

(** A host one hour east of UTC. *)
Definition cet_host : host :=
  mkHost (fun _ => 3600%Z) [] (fun _ _ => false).

(** A host on which setting file times is not permitted. *)
Definition no_utime_host : host :=
  mkHost utc []
    (fun call _ => match call with CallUtime => true | _ => false end).

Definition out : pure_path := parse_segment "/out".

Definition empty_world : world := mkWorld (Dir []) [] [] 0 [].

(** Bytes that are neither a table nor an archive. *)
Definition raw (data : string) : blob :=
  Blob data [] (fun _ => Bad7zFile).

Definition table (rows : list csv_row) : blob :=
  Blob "" rows (fun _ => Bad7zFile).

Definition container (files : list (string * blob)) : blob :=
  Blob "" [] (fun _ => Opened files).

Definition stamp : string := "2023-01-02 03:04:05.123456".

Definition manifest_row (sample_name full_name : string) : csv_row :=
  [("SampleName", sample_name); ("VolumeID", "{GUID}");
   ("SnapshotID", no_snapshot); ("FullName", full_name);
   ("LastModificationDate", stamp); ("LastAccessDate", stamp)].

Definition foo_txt : string :=
  backslash ++ "Windows" ++ backslash ++ "System32" ++ backslash ++ "foo.txt".

(** The archive of the end-to-end example: one manifest row, one entry. *)
Definition one_artefact : blob :=
  container [("GetThis.csv", table [manifest_row "abc123" foo_txt]);
             ("abc123", raw "X")].

(** A manifest whose only row lacks the [VolumeID] column. *)
Definition broken_manifest : blob :=
  container [("GetThis.csv", table [[("SampleName", "abc123")]]);
             ("abc123", raw "X")].

(** A label map whose second identifier is the first one's label. *)
Definition letters_map : dict string := [("D", "E"); ("C", "D")].

Definition letters_tree : node := Dir [("out", Dir [("C", Dir [])])].

(** A label map and a destination folder as a collection gives them. *)
Definition guid_map : dict string := [("{GUID}", "C")].

Definition guid_tree : node :=
  Dir [("out", Dir [("{GUID}", Dir []); ("{GUID} (vsc {1})", Dir [])])].

(** A nested archive whose volume-label file mounts V1 on D. *)
Definition nested_with_label : blob :=
  container [("volstats.csv",
              table [[("VolumeID", "V1"); ("MountPoint", "D:")]])].

End Sample.

(* ================================================================= *)
(** ** Archive handles over a run *)

(** Every open handle was given out before. *)
Definition handles_fresh (w : world) : Prop :=
  Forall (fun j => j < next_handle w) (open_handles w).

(** From [w] to [w'] the open handles are the same, and handles were only
    given out. *)
Definition handles_kept (w w' : world) : Prop :=
  open_handles w' = open_handles w /\ next_handle w <= next_handle w'.

(** What the loop over the entries needs of a recursive call on [b]. *)
Definition call_keeps_handles
    (recurse : blob -> string -> world -> outcome walk_result * world)
    (b : blob) : Prop :=
  forall name w r w',
    handles_fresh w -> recurse b name w = (Returned r, w') ->
    handles_kept w w'.

(* ================================================================= *)
(** ** Names, identifiers and labels the renamer is sure of *)

Fixpoint has_char (c : ascii) (s : string) : bool :=
  match s with
  | EmptyString => false
  | String c' rest => Ascii.eqb c c' || has_char c rest
  end.

(** A name that a directory entry can have. *)
Definition valid_name (n : string) : bool :=
  negb (has_char "/" n) && negb (String.eqb n "") &&
  negb (String.eqb n ".") && negb (String.eqb n "..").

(** A volume identifier that the pattern [f'{volume_id}*'] takes literally:
    not empty, and without wildcard, bracket or separator. *)
Definition plain_id (k : string) : bool :=
  negb (String.eqb k "") &&
  negb (has_char "*" k) && negb (has_char "?" k) &&
  negb (has_char "[" k) && negb (has_char "/" k).

(** The names of the destination folder are names of directory entries. *)
Definition tidy (h : host) (destination_folder : pure_path) (root : node)
  : Prop :=
  forall n, In n (listdir h destination_folder root) -> valid_name n = true.

(** Both strings are non-empty and begin with the same character. *)
Definition starts_like (l n : string) : bool :=
  match l, n with
  | String c _, String c' _ => Ascii.eqb c c'
  | _, _ => false
  end.

(** Every label is without separator, begins with a character other than
    the dot, and begins unlike every volume identifier of the mapping. *)
Definition labels_apart (mapping : dict string) : bool :=
  forallb
    (fun kv =>
       negb (has_char "/" (snd kv)) &&
       negb (starts_like "." (snd kv)) &&
       negb (String.eqb (snd kv) "") &&
       forallb (fun k => negb (starts_like (snd kv) k)) (dict_keys mapping))
    mapping.

(* ================================================================= *)
(** ** Rows of the volume-label table *)

(** The row has a non-empty [MountPoint]. *)
Definition mounted (row : csv_row) : bool :=
  match dict_get "MountPoint" row with
  | Some (String _ _) => true
  | _ => false
  end.

(* ================================================================= *)
(** ** Files over a run *)

(** Every file of [root] is in [root'], at the same place, with the same
    content and times. *)
Definition files_kept (root root' : node) : Prop :=
  forall q content times,
    fs_lookup q root = Some (File content times) ->
    fs_lookup q root' = Some (File content times).

(* ================================================================= *)
(** ** Archives that can be read *)


(** As many warnings were added from one state to the other as rows were
    added to the error log, or more. *)
Definition warned_for_each_row (w w' : world) : Prop :=
  List.length (log w') + List.length (warnings w)
  <= List.length (log w) + List.length (warnings w').

(* ================================================================= *)
(** ** The paths and times the file system is exact for *)

(** A path that, read from the root, has no [..] component.  [locate] steps
    over a [..] by the names alone, while the operating system goes through
    the directory that is stepped over, which has to exist; for a direct
    path the two give the same place. *)
Definition direct (h : host) (p : pure_path) : bool :=
  negb (has_dotdot (if absolute p then parts p
                    else (cwd h ++ parts p)%list)).

(** A time that [os.utime] takes: it fits a [time_t] of 64 bits. *)
Definition fits_time_t (t : Z) : Prop := (- 2 ^ 63 <= t < 2 ^ 63)%Z.

(** Every path that the walker may write to, on this archive and on the
    archives nested in it, is direct: the paths of the manifest mapping and
    the places of the report files. *)
#[warning="-register-all"]
Inductive direct_targets (h : host) (destination_folder : pure_path)
    (archives_with_password : dict string) (report_files : list string)
    (report_destination_directory : option pure_path)
  : string -> blob -> Prop :=
| direct_targets_here (archive_name data : string) (rows : list csv_row)
    (as_7z : option string -> sevenzip blob) :
    (forall files getthis_mapping filename t,
        as_7z (dict_get archive_name archives_with_password) = Opened files ->
        match dict_get "GetThis.csv" files with
        | Some b => _parse_getthis (tz h) (blob_csv b) destination_folder
        | None => Returned []
        end = Returned getthis_mapping ->
        dict_get filename getthis_mapping = Some t ->
        direct h (path t) = true) ->
    (forall files dir filename,
        as_7z (dict_get archive_name archives_with_password) = Opened files ->
        report_destination_directory = Some dir ->
        In filename (dict_keys files) ->
        membership (archive_name ++ "/" ++ filename) report_files = true ->
        direct h (joinpath dir [filename]) = true) ->
    (forall files,
        as_7z (dict_get archive_name archives_with_password) = Opened files ->
        Forall (fun nf =>
                  endswith (fst nf) ".7z" = true ->
                  direct_targets h destination_folder archives_with_password
                    report_files report_destination_directory
                    (fst nf) (snd nf)) files) ->
    direct_targets h destination_folder archives_with_password report_files
      report_destination_directory archive_name (Blob data rows as_7z).

(** The same for a whole run: the destination folder, the directory of the
    reports, and every path the walker may write to with the settings that
    [artefact_rebuilder] takes from the configuration file. *)
Definition run_is_direct (h : host) (destination_folder : pure_path)
    (configuration_file : option configuration) (archive : blob) : Prop :=
  direct h destination_folder = true
  /\ match configuration_file with
     | None =>
         direct_targets h destination_folder [] [] None "." archive
     | Some c =>
         let dir :=
           joinpath destination_folder [reports_target_directory c] in
         direct h dir = true
         /\ direct_targets h destination_folder (protected_sub_archive c)
              (reports_filenames c) (Some dir) "." archive
     end.

(* ================================================================= *)
(** * Properties *)

(** ** Strings and dictionaries *)

Lemma length_append (a b : string) :
  String.length (a ++ b) = String.length a + String.length b.
Proof.
  induction a as [|c a IH]; simpl; [reflexivity | now rewrite IH].
Qed.

Lemma tail_to_unix (c : ascii) (rest : string) :
  tail_from_1 (to_unix (String c rest)) = to_unix rest.
Proof.
  unfold to_unix, backslash, str_replace.
  cbn [replace_from].
  destruct (String.prefix _ (String c rest)); reflexivity.
Qed.

Lemma dict_get_set_same {V : Type} (k : string) (v : V) (d : dict V) :
  dict_get k (dict_set k v d) = Some v.
Proof.
  induction d as [|[k' v'] d IH]; simpl.
  - now rewrite String.eqb_refl.
  - destruct (String.eqb k k') eqn:E; simpl; rewrite E; auto.
Qed.

Lemma dict_get_set_other {V : Type} (k k' : string) (v : V) (d : dict V) :
  k <> k' -> dict_get k (dict_set k' v d) = dict_get k d.
Proof.
  intros Hne. induction d as [|[k0 v0] d IH]; simpl.
  - apply String.eqb_neq in Hne. now rewrite Hne.
  - destruct (String.eqb k' k0) eqn:E; simpl.
    + apply String.eqb_eq in E. subst k0.
      apply String.eqb_neq in Hne. now rewrite Hne.
    + now rewrite IH.
Qed.

Lemma dict_get_absent {V : Type} (k : string) (d : dict V) :
  ~ In k (dict_keys d) -> dict_get k d = None.
Proof.
  induction d as [|[k' v'] d IH]; simpl; intros Hn; [reflexivity|].
  destruct (String.eqb k k') eqn:E.
  - apply String.eqb_eq in E. subst. tauto.
  - apply IH. tauto.
Qed.

Lemma dict_merge_cons {V : Type} (a : dict V) (k : string) (v : V) (b : dict V) :
  dict_merge a ((k, v) :: b) = dict_merge (dict_set k v a) b.
Proof. reflexivity. Qed.

Lemma dict_get_merge {V : Type} (k : string) (b a : dict V) :
  NoDup (dict_keys b) ->
  dict_get k (dict_merge a b) =
  match dict_get k b with
  | Some v => Some v
  | None => dict_get k a
  end.
Proof.
  revert a. induction b as [|[k' v'] b IH]; intros a Hnd; [reflexivity|].
  rewrite dict_merge_cons. simpl in Hnd. inversion Hnd as [|? ? Hnotin Hnd']; subst.
  rewrite (IH _ Hnd'). simpl.
  destruct (String.eqb k k') eqn:E.
  - apply String.eqb_eq in E. subst k'.
    rewrite (dict_get_absent _ _ Hnotin). apply dict_get_set_same.
  - apply String.eqb_neq in E.
    destruct (dict_get k b); [reflexivity|].
    now apply dict_get_set_other.
Qed.

(* ================================================================= *)
(** ** The name of the volume folder *)

(** C4. The volume-folder name of a row is its VolumeID exactly when its
    SnapshotID is the all-zero GUID, and is "VolumeID (vsc SnapshotID)" for
    every other SnapshotID. *)
Theorem volume_folder_name_rule (volume_id snapshot_id : string) :
  (_naming_convention_volume_folder volume_id snapshot_id = volume_id
   <-> snapshot_id = no_snapshot)
  /\ (snapshot_id <> no_snapshot ->
      _naming_convention_volume_folder volume_id snapshot_id
      = volume_id ++ " (vsc " ++ snapshot_id ++ ")").
Proof.
  unfold _naming_convention_volume_folder.
  destruct (String.eqb_spec snapshot_id no_snapshot) as [E|N]; split.
  - tauto.
  - tauto.
  - split; [|tauto]. intros Heq.
    apply (f_equal String.length) in Heq.
    rewrite length_append in Heq. simpl in Heq. lia.
  - reflexivity.
Qed.

Lemma volume_folder_name_rule_witness :
  _naming_convention_volume_folder "{GUID}" "{1}" = "{GUID} (vsc {1})".
Proof.
  apply (proj2 (volume_folder_name_rule "{GUID}" "{1}")).
  discriminate.
Defined.

(* ================================================================= *)
(** ** The first character of FullName *)

(** C10. Whatever the first character of a row's FullName is, a path
    separator or not, the resolved path is built from what follows it: the
    character is dropped without a test. *)
Theorem first_character_always_removed
    (tz : timezone) (destination_folder : pure_path)
    (result mapping : dict target) (row : csv_row)
    (volume_id snapshot_id sample_name rest : string) (c : ascii) :
  dict_get "VolumeID" row = Some volume_id ->
  dict_get "SnapshotID" row = Some snapshot_id ->
  dict_get "FullName" row = Some (String c rest) ->
  dict_get "SampleName" row = Some sample_name ->
  getthis_row tz destination_folder result row = Returned mapping ->
  exists t,
    dict_get (to_unix sample_name) mapping = Some t /\
    path t = joinpath destination_folder
               [_naming_convention_volume_folder volume_id snapshot_id;
                to_unix rest].
Proof.
  intros Hv Hs Hf Hn. unfold getthis_row, dict_item.
  rewrite Hv, Hs, Hf, Hn. cbn [bind].
  destruct (dict_get "LastModificationDate" row); cbn [bind]; [|discriminate].
  destruct (parse_time tz _); cbn [bind]; [|discriminate].
  destruct (dict_get "LastAccessDate" row); cbn [bind]; [|discriminate].
  destruct (parse_time tz _); cbn [bind]; [|discriminate].
  intros H. injection H as <-.
  eexists. split; [apply dict_get_set_same|].
  cbn [path]. unfold resolved_path. now rewrite tail_to_unix.
Qed.

Lemma first_character_always_removed_witness :
  exists t,
    dict_get "abc123"
      (match getthis_row utc Sample.out [] (Sample.manifest_row "abc123" "Windows/foo.txt") with
       | Returned m => m
       | Raised _ => []
       end) = Some t /\
    parts (path t) = ["out"; "{GUID}"; "indows"; "foo.txt"].
Proof.
  destruct (first_character_always_removed utc Sample.out []
              (match getthis_row utc Sample.out [] (Sample.manifest_row "abc123" "Windows/foo.txt") with
               | Returned m => m
               | Raised _ => []
               end)
              (Sample.manifest_row "abc123" "Windows/foo.txt")
              "{GUID}" no_snapshot "abc123" "indows/foo.txt" "W"%char
              eq_refl eq_refl eq_refl eq_refl eq_refl) as [t [H1 H2]].
  exists t. split; [exact H1|]. rewrite H2. reflexivity.
Defined.

(* ================================================================= *)
(** ** Merging the volume labels of a nested archive *)

(** The loop turn that recurses merges the returned map into the map of its
    level: a VolumeID that is in the returned map takes its label from there,
    any other keeps the label it had. *)
Lemma merge_of_returned_map
    (h : host) (report_files : list string)
    (report_destination_directory : option pure_path)
    (recurse : blob -> string -> world -> outcome walk_result * world)
    (archive_name : string) (getthis_mapping : dict target)
    (volstat sub : dict string) (filename : string) (file_content : blob)
    (w w1 : world) :
  dict_get filename getthis_mapping = None ->
  membership (archive_name ++ "/" ++ filename) report_files = false ->
  endswith filename ".7z" = true ->
  recurse file_content filename w = (Returned (Result sub), w1) ->
  NoDup (dict_keys sub) ->
  exists merged,
    entry_step h report_files report_destination_directory recurse
      archive_name getthis_mapping volstat filename file_content w
    = (Returned merged, w1) /\
    forall volume_id,
      dict_get volume_id merged =
      match dict_get volume_id sub with
      | Some label => Some label
      | None => dict_get volume_id volstat
      end.
Proof.
  intros Hmap Hrep Hext Hrec Hnd.
  exists (dict_merge volstat sub). split.
  - unfold entry_step. now rewrite Hmap, Hrep, Hext, Hrec.
  - intros volume_id. now apply dict_get_merge.
Qed.

(* ================================================================= *)
(** ** The file system *)

Lemma fs_put_deeper (c c2 : string) (rest : list string) (new : node)
    (es : list (string * node)) :
  fs_put (c :: c2 :: rest) new (Dir es) =
  match dict_get c es with
  | Some ch =>
      match fs_put (c2 :: rest) new ch with
      | Some ch' => Some (Dir (dict_set c ch' es))
      | None => None
      end
  | None => None
  end.
Proof. reflexivity. Qed.

Lemma fs_lookup_put_same (ps : list string) :
  forall (new root root' : node),
    fs_put ps new root = Some root' -> fs_lookup ps root' = Some new.
Proof.
  induction ps as [|c rest IH]; intros new root root' H.
  - destruct root; simpl in H; discriminate.
  - destruct root as [?|es]; [destruct rest; simpl in H; discriminate|].
    destruct rest as [|c2 rest2].
    + simpl in H. injection H as <-. simpl. now rewrite dict_get_set_same.
    + rewrite fs_put_deeper in H.
      destruct (dict_get c es) as [ch|] eqn:Ec; [|discriminate].
      destruct (fs_put (c2 :: rest2) new ch) as [ch'|] eqn:Ep; [|discriminate].
      injection H as <-. cbn [fs_lookup]. rewrite dict_get_set_same.
      now apply (IH _ _ _ Ep).
Qed.

(** After a successful attempt the file is there, with the content. *)
Lemma write_attempt_true (h : host) (p : pure_path) (content : string)
    (w w1 : world) :
  write_attempt h p content w = (Returned true, w1) ->
  fs_lookup (locate h p) (fs w1) = Some (File content None).
Proof.
  unfold write_attempt.
  destruct (is_file h p (fs w)); [discriminate|].
  destruct (mkdir_parents _ _ _) as [root1|]; [|discriminate].
  destruct (open_w _ _ _) as [root2|]; [|discriminate].
  unfold write_all.
  destruct (refuses h CallWrite p); [discriminate|].
  destruct (fs_put _ _ root2) as [root3|] eqn:Ep; [|discriminate].
  intros H. injection H as <-. cbn [fs set_fs].
  now apply (fs_lookup_put_same _ _ _ _ Ep).
Qed.

(** When [_write_file] succeeds with two non-zero times, the file carries
    them. *)
Lemma write_file_sets_times (h : host) (p : pure_path) (content : string)
    (a m : Z) (w w' : world) :
  a <> 0%Z -> m <> 0%Z ->
  _write_file h p content (Some a) (Some m) w = (Returned true, w') ->
  fs_lookup (locate h p) (fs w') = Some (File content (Some (a, m))).
Proof.
  intros Ha Hm. unfold _write_file.
  destruct (write_attempt h p content w) as [[[|]|e] w1] eqn:Ew;
    try discriminate.
  apply write_attempt_true in Ew.
  unfold both_set.
  apply Z.eqb_neq in Ha, Hm. rewrite Ha, Hm. cbn [orb].
  unfold utime.
  destruct (refuses h CallUtime p); [discriminate|].
  rewrite Ew.
  destruct (fs_put _ _ _) as [root|] eqn:Ep; [|discriminate].
  intros H. injection H as <-. cbn [fs set_fs].
  now apply (fs_lookup_put_same _ _ _ _ Ep).
Qed.

(* ================================================================= *)
(** ** Timestamps *)

Lemma Returned_inj {A : Type} (a b : A) : Returned a = Returned b -> a = b.
Proof. intros H. now inversion H. Qed.

Lemma stamp_parses :
  strptime "2023-01-02 03:04:05.123456"
  = Returned (mkDatetime 2023 1 2 3 4 5 123456).
Proof. vm_compute. reflexivity. Qed.

Lemma stamp_is_local_time (zone : timezone) :
  (Z.abs (zone 1672628645) < 86400)%Z ->
  parse_time zone "2023-01-02 03:04:05.123456"
  = Returned (1672628645 - zone 1672628645)%Z.
Proof.
  intros Hb. unfold parse_time. rewrite stamp_parses. cbn [bind].
  unfold int_timestamp.
  replace (wall_seconds (mkDatetime 2023 1 2 3 4 5 123456))
    with 1672628645%Z by (vm_compute; reflexivity).
  cbn [microsecond]. f_equal.
  rewrite Z.quot_div_nonneg by lia.
  symmetry. apply Z.div_unique with 123456%Z; lia.
Qed.

(** C7, as the code has it. The reading "2023-01-02 03:04:05.123456" is taken
    as the local time of the host: the ['mtime'] of the row is the epoch
    value of 2023-01-02T03:04:05Z less the host's offset from UTC, without
    the fraction, and this is the modification time of the file whenever the
    write succeeds and both times of the row are non-zero. *)
Theorem modification_time_is_local_time
    (h : host) (destination_folder : pure_path)
    (result mapping : dict target) (row : csv_row) (sample_name : string) :
  (Z.abs (tz h 1672628645) < 86400)%Z ->
  dict_get "LastModificationDate" row = Some "2023-01-02 03:04:05.123456" ->
  dict_get "SampleName" row = Some sample_name ->
  getthis_row (tz h) destination_folder result row = Returned mapping ->
  exists t,
    dict_get (to_unix sample_name) mapping = Some t /\
    mtime t = (1672628645 - tz h 1672628645)%Z /\
    forall (content : string) (w w' : world),
      atime t <> 0%Z -> mtime t <> 0%Z ->
      _write_file h (path t) content (Some (atime t)) (Some (mtime t)) w
      = (Returned true, w') ->
      fs_lookup (locate h (path t)) (fs w')
      = Some (File content (Some (atime t, mtime t))).
Proof.
  intros Hb Hl Hn. unfold getthis_row, dict_item. rewrite Hl, Hn.
  destruct (dict_get "VolumeID" row); cbn [bind]; [|discriminate].
  destruct (dict_get "SnapshotID" row); cbn [bind]; [|discriminate].
  destruct (dict_get "FullName" row); cbn [bind]; [|discriminate].
  rewrite (stamp_is_local_time _ Hb). cbn [bind].
  destruct (dict_get "LastAccessDate" row); cbn [bind]; [|discriminate].
  destruct (parse_time (tz h) _); cbn [bind]; [|discriminate].
  intros H. apply Returned_inj in H. subst mapping.
  eexists. split; [apply dict_get_set_same|]. split; [reflexivity|].
  cbn [path mtime atime]. intros content w w' Ha Hm Hw.
  exact (write_file_sets_times _ _ _ _ _ w w' Ha Hm Hw).
Qed.

Lemma modification_time_is_local_time_witness :
  exists t,
    dict_get "abc123"
      (match getthis_row (tz Sample.cet_host) Sample.out []
               (Sample.manifest_row "abc123" Sample.foo_txt) with
       | Returned m => m
       | Raised _ => []
       end) = Some t /\
    mtime t = 1672625045%Z.
Proof.
  destruct (modification_time_is_local_time Sample.cet_host Sample.out []
              (match getthis_row (tz Sample.cet_host) Sample.out []
                       (Sample.manifest_row "abc123" Sample.foo_txt) with
               | Returned m => m
               | Raised _ => []
               end)
              (Sample.manifest_row "abc123" Sample.foo_txt) "abc123")
    as [t [H1 [H2 _]]].
  - simpl. lia.
  - reflexivity.
  - reflexivity.
  - reflexivity.
  - exists t. split; [exact H1|]. rewrite H2. reflexivity.
Defined.

(** C7, as the claim has it, fails on a host that is not in UTC: one hour
    east, the file of the end-to-end example gets the modification time
    1672625045, which is 2023-01-02T02:04:05Z. *)
Lemma utc_reading_counterexample :
  fs_lookup ["out"; "{GUID}"; "Windows"; "System32"; "foo.txt"]
    (fs (snd (artefact_rebuilder Sample.cet_host Sample.one_artefact
                Sample.out None false Sample.empty_world)))
  = Some (File "X" (Some (1672625045, 1672625045)%Z))
  /\ 1672625045%Z <> 1672628645%Z.
Proof. split; [vm_compute; reflexivity | discriminate]. Qed.

(* ================================================================= *)
(** ** Resolved paths and the destination folder *)

Lemma fold_norm_plain (abs : bool) (l : list string) :
  forall stack : list string,
    has_dotdot l = false ->
    fold_left (norm_step abs) l stack = (rev l ++ stack)%list.
Proof.
  induction l as [|c l IH]; intros stack H; [reflexivity|].
  unfold has_dotdot in H. cbn [existsb] in H.
  apply orb_false_iff in H. destruct H as [Hc Hl].
  cbn [fold_left rev]. rewrite (IH _ Hl). unfold norm_step.
  rewrite String.eqb_sym, Hc.
  now rewrite <- app_assoc.
Qed.

Lemma strip_prefix_app (pre rest : list string) :
  strip_prefix pre (pre ++ rest)%list = Some rest.
Proof.
  induction pre as [|x pre IH]; simpl.
  - now destruct rest.
  - now rewrite String.eqb_refl.
Qed.

Lemma normalize_app_plain (abs : bool) (l extra : list string) :
  has_dotdot extra = false ->
  parts (normalize (mkPath abs (l ++ extra)%list))
  = (parts (normalize (mkPath abs l)) ++ extra)%list.
Proof.
  intros H. unfold normalize. cbn [parts absolute].
  rewrite fold_left_app, (fold_norm_plain _ _ _ H).
  now rewrite rev_app_distr, rev_involutive.
Qed.

Lemma join1_plain (p : pure_path) (seg : string) :
  plain_segment seg = true ->
  join1 p seg
  = mkPath (absolute p) (parts p ++ parts (parse_segment seg))%list
  /\ has_dotdot (parts (parse_segment seg)) = false.
Proof.
  unfold plain_segment, join1. intros H.
  apply andb_true_iff in H. destruct H as [Ha Hd].
  apply negb_true_iff in Ha, Hd. now rewrite Ha.
Qed.

(** C1, as the code has it. A row whose volume-folder name and whose
    FullName, with the separators normalized and the first character removed,
    are both relative and free of [..] components resolves to a path under
    the destination folder. *)
Theorem plain_rows_stay_under_destination
    (destination_folder : pure_path)
    (volume_id snapshot_id full_name : string) :
  plain_segment (_naming_convention_volume_folder volume_id snapshot_id)
  = true ->
  plain_segment (tail_from_1 (to_unix full_name)) = true ->
  is_under destination_folder
    (resolved_path destination_folder volume_id snapshot_id full_name)
  = true.
Proof.
  intros Hv Hf. unfold resolved_path, joinpath. cbn [fold_left].
  destruct (join1_plain destination_folder _ Hv) as [E1 D1]. rewrite E1.
  destruct (join1_plain
              (mkPath (absolute destination_folder)
                 (parts destination_folder ++
                  parts (parse_segment
                           (_naming_convention_volume_folder volume_id
                              snapshot_id)))%list) _ Hf) as [E2 D2].
  rewrite E2. cbn [absolute parts]. unfold is_under. cbn [absolute].
  rewrite Bool.eqb_reflx. cbn [andb].
  rewrite <- app_assoc.
  rewrite normalize_app_plain.
  - destruct destination_folder as [abs l]. cbn [absolute parts].
    rewrite strip_prefix_app.
    unfold has_dotdot in *. now rewrite existsb_app, D1, D2.
  - unfold has_dotdot in *. now rewrite existsb_app, D1, D2.
Qed.

Lemma plain_rows_stay_under_destination_witness :
  is_under Sample.out
    (resolved_path Sample.out "{GUID}" no_snapshot Sample.foo_txt) = true.
Proof.
  apply plain_rows_stay_under_destination; reflexivity.
Defined.

(** C1, as the claim has it, fails: not every row resolves under the
    destination folder.  With the destination [/out], the FullName
    [/../../etc/passwd] resolves to [/etc/passwd]. *)
Lemma traversal_escapes_destination :
  ~ (forall destination_folder volume_id snapshot_id full_name,
       is_under destination_folder
         (resolved_path destination_folder volume_id snapshot_id full_name)
       = true).
Proof.
  intros H.
  specialize (H Sample.out "{GUID}" no_snapshot "/../../etc/passwd").
  vm_compute in H. discriminate.
Qed.

(** So does a FullName whose second character starts an absolute path: the
    join drops the destination folder. *)
Lemma absolute_tail_escapes_destination :
  resolved_path Sample.out "{GUID}" no_snapshot "C/etc/passwd"
  = mkPath true ["etc"; "passwd"].
Proof. vm_compute. reflexivity. Qed.

(* ================================================================= *)
(** ** The artifact writer *)

(** An existing file is left as it is and the writer returns [False]. *)
Lemma existing_file_is_refused (h : host) (p : pure_path) (content : string)
    (a m : option Z) (w : world) :
  is_file h p (fs w) = true ->
  exists w',
    _write_file h p content a m w = (Returned false, w') /\ fs w' = fs w.
Proof.
  intros H. unfold _write_file, write_attempt. rewrite H.
  eexists. split; reflexivity.
Qed.

Lemma fs_put_again (ps : list string) :
  forall (n1 n2 root root' : node),
    fs_put ps n1 root = Some root' -> fs_put ps n2 root' <> None.
Proof.
  induction ps as [|c rest IH]; intros n1 n2 root root' H.
  - destruct root; simpl in H; discriminate.
  - destruct root as [?|es]; [destruct rest; simpl in H; discriminate|].
    destruct rest as [|c2 rest2].
    + simpl in H. injection H as <-. simpl. discriminate.
    + rewrite fs_put_deeper in H.
      destruct (dict_get c es) as [ch|]; [|discriminate].
      destruct (fs_put (c2 :: rest2) n1 ch) as [ch'|] eqn:Ep; [|discriminate].
      injection H as <-. rewrite fs_put_deeper, dict_get_set_same.
      specialize (IH n1 n2 _ _ Ep).
      destruct (fs_put (c2 :: rest2) n2 ch'); [discriminate|congruence].
Qed.

Lemma write_attempt_true_put (h : host) (p : pure_path) (content : string)
    (w w1 : world) :
  write_attempt h p content w = (Returned true, w1) ->
  exists root, fs_put (locate h p) (File content None) root = Some (fs w1).
Proof.
  unfold write_attempt.
  destruct (is_file h p (fs w)); [discriminate|].
  destruct (mkdir_parents _ _ _) as [root1|]; [|discriminate].
  destruct (open_w _ _ _) as [root2|]; [|discriminate].
  unfold write_all.
  destruct (refuses h CallWrite p); [discriminate|].
  destruct (fs_put _ _ root2) as [root3|] eqn:Ep; [|discriminate].
  intros H. injection H as <-. now exists root2.
Qed.

(** Whatever goes wrong inside [try] ends in [return False]: the writer
    raises only when [os.utime], which comes after the [try], is refused. *)
Lemma write_file_raises_only_from_utime (h : host) (p : pure_path)
    (content : string) (a m : option Z) (w w' : world) (e : exn) :
  _write_file h p content a m w = (Raised e, w') ->
  refuses h CallUtime p = true /\ both_set a m <> None.
Proof.
  unfold _write_file.
  destruct (write_attempt h p content w) as [[[|]|e1] w1] eqn:Ew;
    try discriminate.
  destruct (write_attempt_true_put _ _ _ _ _ Ew) as [root Hput].
  apply write_attempt_true in Ew.
  destruct (both_set a m) as [[a' m']|]; [|discriminate].
  unfold utime. destruct (refuses h CallUtime p); [split; congruence|].
  rewrite Ew.
  pose proof (fs_put_again _ _ (File content (Some (a', m'))) _ _ Hput) as Hn.
  destruct (fs_put _ _ (fs w1)); [discriminate|congruence].
Qed.

(** C2 at a failing input. On a host where setting file times is not
    permitted, the writer creates the file and then raises instead of
    returning: the end-to-end archive aborts the run with [OSError]. *)
Theorem utime_failure_escapes_writer :
  fst (_write_file Sample.no_utime_host (joinpath Sample.out ["a.txt"]) "X"
         (Some 1%Z) (Some 1%Z) Sample.empty_world)
  = Raised OSError
  /\ fst (artefact_rebuilder Sample.no_utime_host Sample.one_artefact
            Sample.out None false Sample.empty_world)
     = Raised OSError.
Proof. split; vm_compute; reflexivity. Qed.

(* ================================================================= *)
(** ** Archives that do not open *)

(** An archive that is not a 7z container: a warning, and [False]. *)
Lemma invalid_archive_returns_false (h : host) (destination_folder : pure_path)
    (archives_with_password : dict string) (report_files : list string)
    (report_destination_directory : option pure_path)
    (archive : blob) (archive_name : string) (w : world) :
  blob_7z archive (dict_get archive_name archives_with_password) = Bad7zFile ->
  _extract_artefacts_recusrive h destination_folder archives_with_password
    report_files report_destination_directory archive archive_name w
  = (Returned ReturnedFalse,
     warn (archive_name ++ " is not a valid 7z file") w).
Proof.
  destruct archive as [data rows z]. cbn [blob_7z]. intros H.
  cbn [_extract_artefacts_recusrive]. now rewrite H.
Qed.

(** The parent of such an archive keeps its map and goes on with the next
    entry. *)
Lemma invalid_nested_archive_is_skipped (h : host)
    (report_files : list string)
    (report_destination_directory : option pure_path)
    (recurse : blob -> string -> world -> outcome walk_result * world)
    (archive_name : string) (getthis_mapping : dict target)
    (volstat : dict string) (filename : string) (file_content : blob)
    (rest : list (string * blob)) (w w1 : world) :
  dict_get filename getthis_mapping = None ->
  membership (archive_name ++ "/" ++ filename) report_files = false ->
  endswith filename ".7z" = true ->
  recurse file_content filename w = (Returned ReturnedFalse, w1) ->
  entries_loop h report_files report_destination_directory recurse
    archive_name getthis_mapping ((filename, file_content) :: rest) volstat w
  = entries_loop h report_files report_destination_directory recurse
      archive_name getthis_mapping rest volstat w1.
Proof.
  intros Hmap Hrep Hext Hrec. cbn [entries_loop].
  unfold entry_step. now rewrite Hmap, Hrep, Hext, Hrec.
Qed.

(** C3 at a failing input. When the top-level archive is not a 7z container
    and volumes are not to be renamed, the run ends with the value [True],
    as a run that extracted everything does; with renaming it ends in a
    [TypeError] on the subscript of [False]. *)
Theorem invalid_top_level_archive_ends_as_success :
  fst (artefact_rebuilder Sample.quiet_host (Sample.raw "junk") Sample.out
         None false Sample.empty_world)
  = Returned true
  /\ fst (artefact_rebuilder Sample.quiet_host (Sample.raw "junk") Sample.out
            None true Sample.empty_world)
     = Raised TypeError.
Proof. split; vm_compute; reflexivity. Qed.

(* ================================================================= *)
(** ** The error log *)

(** The row written for an artifact that could not be written. *)
Lemma artefact_row (h : host) (report_files : list string)
    (report_destination_directory : option pure_path)
    (recurse : blob -> string -> world -> outcome walk_result * world)
    (archive_name : string) (getthis_mapping : dict target)
    (volstat : dict string) (filename : string) (file_content : blob)
    (t : target) (w w1 : world) :
  dict_get filename getthis_mapping = Some t ->
  _write_file h (path t) (blob_data file_content)
    (Some (atime t)) (Some (mtime t)) w = (Returned false, w1) ->
  entry_step h report_files report_destination_directory recurse
    archive_name getthis_mapping volstat filename file_content w
  = (Returned volstat,
     log_write (archive_name ++ "," ++ filename ++ "," ++
                format_target t ++ newline) w1).
Proof.
  intros Hmap Hw. unfold entry_step. now rewrite Hmap, Hw.
Qed.

(** The row written for a report file that could not be written. *)
Lemma report_row (h : host) (report_files : list string)
    (dir : pure_path)
    (recurse : blob -> string -> world -> outcome walk_result * world)
    (archive_name : string) (getthis_mapping : dict target)
    (volstat : dict string) (filename : string) (file_content : blob)
    (w w1 : world) :
  dict_get filename getthis_mapping = None ->
  membership (archive_name ++ "/" ++ filename) report_files = true ->
  _write_file h (joinpath dir [filename]) (blob_data file_content)
    None None w = (Returned false, w1) ->
  entry_step h report_files (Some dir) recurse
    archive_name getthis_mapping volstat filename file_content w
  = (Returned volstat,
     log_write (archive_name ++ "," ++ filename ++ "," ++
                str_of_path (joinpath dir [filename]) ++ newline) w1).
Proof.
  intros Hmap Hrep Hw. unfold entry_step. now rewrite Hmap, Hrep, Hw.
Qed.

(** C8 at a failing input. Extracting the end-to-end archive a second time
    into the same destination cannot write the artifact again; the row that
    records it has, after the archive name and the entry name, the whole
    entry of the manifest mapping and not the target path alone. *)
Theorem artefact_row_is_not_the_target_path :
  log (snd (artefact_rebuilder Sample.quiet_host Sample.one_artefact
              Sample.out None false
              (snd (artefact_rebuilder Sample.quiet_host Sample.one_artefact
                      Sample.out None false Sample.empty_world))))
  = [log_header;
     ".,abc123,{'path': PosixPath('/out/{GUID}/Windows/System32/foo.txt'), "
     ++ "'mtime': 1672628645, 'atime': 1672628645}" ++ newline]
  /\ format_target
       (mkTarget (parse_segment "/out/{GUID}/Windows/System32/foo.txt")
          1672628645 1672628645)
     <> "/out/{GUID}/Windows/System32/foo.txt".
Proof. split; [vm_compute; reflexivity | vm_compute; discriminate]. Qed.

(* ================================================================= *)
(** ** Archive handles *)

(** Induction on an archive entry, through the entries of the container it
    may be. *)
Lemma blob_induct (P : blob -> Prop) :
  (forall data rows z,
      (forall pw,
          match z pw with
          | Opened files => Forall (fun nf => P (snd nf)) files
          | _ => True
          end) ->
      P (Blob data rows z)) ->
  forall b, P b.
Proof.
  intros step. fix IH 1. intros [data rows z]. apply step. intros pw.
  destruct (z pw) as [| | |files]; try exact I.
  induction files as [|[n c] rest IHl]; constructor; [apply IH | exact IHl].
Qed.

Lemma handles_kept_refl (w : world) : handles_kept w w.
Proof. split; [reflexivity | apply Nat.le_refl]. Qed.

Lemma handles_kept_trans (w1 w2 w3 : world) :
  handles_kept w1 w2 -> handles_kept w2 w3 -> handles_kept w1 w3.
Proof.
  intros [E1 L1] [E2 L2]. split; [congruence | lia].
Qed.

Lemma handles_fresh_kept (w w' : world) :
  handles_fresh w -> handles_kept w w' -> handles_fresh w'.
Proof.
  unfold handles_fresh. intros F [E L]. rewrite E.
  eapply Forall_impl; [|exact F]. cbn beta. intros j Hj. lia.
Qed.

Ltac kept :=
  match goal with
  | H : handles_kept ?w _ |- handles_kept ?w _ =>
      destruct H as [? ?]; split; cbn; assumption
  | |- handles_kept _ _ => split; cbn; [reflexivity | apply Nat.le_refl]
  end.

Lemma write_attempt_keeps_handles (h : host) (p : pure_path)
    (content : string) (w w' : world) (o : outcome bool) :
  write_attempt h p content w = (o, w') -> handles_kept w w'.
Proof.
  unfold write_attempt.
  destruct (is_file h p (fs w)).
  - intros H. injection H as _ <-. kept.
  - destruct (mkdir_parents _ _ _) as [root1|].
    + destruct (open_w _ _ _) as [root2|].
      * destruct (write_all _ _ _ _) as [root3|];
          intros H; injection H as _ <-; kept.
      * intros H. injection H as _ <-. kept.
    + intros H. injection H as _ <-. kept.
Qed.

Lemma write_file_keeps_handles (h : host) (p : pure_path) (content : string)
    (a m : option Z) (w w' : world) (o : outcome bool) :
  _write_file h p content a m w = (o, w') -> handles_kept w w'.
Proof.
  unfold _write_file.
  destruct (write_attempt h p content w) as [[[|]|e] w1] eqn:Ew;
    apply write_attempt_keeps_handles in Ew.
  - destruct (both_set a m) as [[a' m']|].
    + destruct (utime _ _ _ _ _); intros H; injection H as _ <-; kept.
    + intros H. injection H as _ <-. kept.
  - intros H. injection H as _ <-. kept.
  - intros H. injection H as _ <-. kept.
Qed.

Section WalkerHandles.

Variable h : host.
Variable report_files : list string.
Variable report_destination_directory : option pure_path.
Variable recurse : blob -> string -> world -> outcome walk_result * world.

Lemma entry_step_keeps_handles (archive_name : string)
    (getthis_mapping : dict target) (volstat volstat' : dict string)
    (filename : string) (file_content : blob) (w w' : world) :
  call_keeps_handles recurse file_content ->
  handles_fresh w ->
  entry_step h report_files report_destination_directory recurse
    archive_name getthis_mapping volstat filename file_content w
  = (Returned volstat', w') ->
  handles_kept w w'.
Proof.
  intros Hrec Hfresh. unfold entry_step.
  destruct (dict_get filename getthis_mapping) as [t|].
  - destruct (_write_file _ _ _ _ _ _) as [[[|]|e] w1] eqn:Ew;
      apply write_file_keeps_handles in Ew;
      intros H; try discriminate; injection H as _ <-; kept.
  - destruct (membership _ report_files).
    + destruct report_destination_directory as [dir|]; [|discriminate].
      destruct (_write_file _ _ _ _ _ _) as [[[|]|e] w1] eqn:Ew;
        apply write_file_keeps_handles in Ew;
        intros H; try discriminate; injection H as _ <-; kept.
    + destruct (endswith filename ".7z").
      * destruct (recurse file_content filename w) as [[[|sub]|e] w1] eqn:Er;
          intros H; try discriminate; injection H as _ <-;
          exact (Hrec _ _ _ _ Hfresh Er).
      * intros H. injection H as _ <-. kept.
Qed.

Lemma entries_loop_keeps_handles (archive_name : string)
    (getthis_mapping : dict target) (files : list (string * blob)) :
  Forall (fun nf => call_keeps_handles recurse (snd nf)) files ->
  forall (volstat volstat' : dict string) (w w' : world),
    handles_fresh w ->
    entries_loop h report_files report_destination_directory recurse
      archive_name getthis_mapping files volstat w
    = (Returned volstat', w') ->
    handles_kept w w'.
Proof.
  induction 1 as [|[filename file_content] rest Hhd Htl IH];
    intros volstat volstat' w w' Hfresh.
  - cbn [entries_loop]. intros H. injection H as _ <-.
    kept.
  - cbn [entries_loop].
    destruct (entry_step _ _ _ _ _ _ _ _ _ _) as [[v1|e] w1] eqn:Es;
      [|discriminate].
    intros Hloop.
    pose proof (entry_step_keeps_handles _ _ _ _ _ _ _ _ Hhd Hfresh Es) as K1.
    eapply handles_kept_trans; [exact K1|].
    eapply IH; [|exact Hloop].
    exact (handles_fresh_kept _ _ Hfresh K1).
Qed.

End WalkerHandles.

Lemma close_fresh_handle (w : world) (l : list nat) :
  Forall (fun j => j < next_handle w) l ->
  filter (fun j => negb (Nat.eqb (next_handle w) j)) l = l.
Proof.
  induction 1 as [|j l Hj Hl IH]; [reflexivity|].
  cbn [filter]. rewrite IH.
  destruct (Nat.eqb_spec (next_handle w) j); [lia | reflexivity].
Qed.

Lemma walk_opened_keeps_handles (h : host) (destination_folder : pure_path)
    (report_files : list string)
    (report_destination_directory : option pure_path)
    (recurse : blob -> string -> world -> outcome walk_result * world)
    (archive_name : string) (files : list (string * blob))
    (w w' : world) (r : walk_result) :
  Forall (fun nf => call_keeps_handles recurse (snd nf)) files ->
  handles_fresh w ->
  walk_opened h destination_folder report_files
    report_destination_directory recurse archive_name
    (fst (open_handle w)) files (snd (open_handle w))
  = (Returned r, w') ->
  handles_kept w w'.
Proof.
  intros Hfiles Hfresh. unfold walk_opened.
  destruct (match dict_get "GetThis.csv" files with
            | Some b => _ | None => _ end) as [getthis_mapping|];
    [|discriminate].
  destruct (match dict_get "volstats.csv" files with
            | Some b => _ | None => _ end) as [volstat0|];
    [|discriminate].
  destruct (entries_loop _ _ _ _ _ _ _ _ _) as [[volstat|e] w1] eqn:El;
    [|discriminate].
  intros H. injection H as _ <-.
  assert (Hfresh1 : handles_fresh (snd (open_handle w))).
  { unfold handles_fresh in *. cbn.
    constructor; [lia|]. eapply Forall_impl; [|exact Hfresh].
    cbn beta. intros j Hj. lia. }
  destruct (entries_loop_keeps_handles _ _ _ _ _ _ _ Hfiles _ _ _ _
              Hfresh1 El) as [E L].
  cbn in E, L. split; cbn.
  - rewrite E. cbn [filter]. rewrite Nat.eqb_refl. cbn [negb].
    now apply close_fresh_handle.
  - lia.
Qed.

(** The exits by [return] do close the archive. An invocation that returns,
    with [False] or with its result, leaves no archive handle open that was
    not open before: the handle it opened, and those of the nested
    invocations, are closed.  (The hypothesis says that the handles open at
    the call were given out earlier, as they are in any run that starts
    without handles.) *)
Lemma handle_closed_on_normal_return
    (h : host) (destination_folder : pure_path)
    (archives_with_password : dict string) (report_files : list string)
    (report_destination_directory : option pure_path)
    (archive : blob) (archive_name : string)
    (w w' : world) (r : walk_result) :
  Forall (fun j => j < next_handle w) (open_handles w) ->
  _extract_artefacts_recusrive h destination_folder archives_with_password
    report_files report_destination_directory archive archive_name w
  = (Returned r, w') ->
  open_handles w' = open_handles w.
Proof.
  intros Hfresh Hwalk.
  enough (K : handles_kept w w') by exact (proj1 K).
  revert archive_name w w' r Hfresh Hwalk.
  induction archive as [data rows z IH] using blob_induct.
  intros archive_name w w' r Hfresh.
  cbn [_extract_artefacts_recusrive].
  specialize (IH (dict_get archive_name archives_with_password)).
  destruct (z (dict_get archive_name archives_with_password))
    as [|e|e|files].
  - intros H. injection H as _ <-. kept.
  - discriminate.
  - discriminate.
  - intros H.
    eapply (walk_opened_keeps_handles h destination_folder report_files
              report_destination_directory _ archive_name files);
      [|exact Hfresh|exact H].
    eapply Forall_impl; [|exact IH]. cbn beta.
    intros [n c] Hc name0 w0 r0 w0' F0 E0.
    exact (Hc name0 w0 w0' r0 F0 E0).
Qed.

Lemma handle_closed_on_normal_return_witness :
  open_handles
    (snd (_extract_artefacts_recusrive Sample.quiet_host Sample.out [] []
            None Sample.one_artefact "." Sample.empty_world))
  = [].
Proof.
  apply (handle_closed_on_normal_return Sample.quiet_host Sample.out [] []
           None Sample.one_artefact "." Sample.empty_world _
           (Result [])).
  - constructor.
  - vm_compute. reflexivity.
Defined.

(** C9 at a failing input. When the manifest lacks a column the invocation
    ends in a [KeyError] after the archive was opened, and its handle,
    number 0, is still open: [archive.close()] is reached only when the loop
    over the entries completes. *)
Theorem handle_left_open_on_error :
  fst (_extract_artefacts_recusrive Sample.quiet_host Sample.out [] [] None
         Sample.broken_manifest "." Sample.empty_world)
  = Raised (KeyError "VolumeID")
  /\ open_handles
       (snd (_extract_artefacts_recusrive Sample.quiet_host Sample.out [] []
               None Sample.broken_manifest "." Sample.empty_world))
     = [0].
Proof. split; vm_compute; reflexivity. Qed.

(* ================================================================= *)
(** ** The volume renamer *)

(** *** Patterns and replacement *)

Lemma fnmatch_star (n : string) : fnmatch "*" n = true.
Proof.
  induction n as [|c n IH]; [reflexivity|].
  cbn in *. exact IH.
Qed.

Lemma fnmatch_plain (k n : string) :
  has_char "*" k = false -> has_char "?" k = false ->
  fnmatch (k ++ "*") n = String.prefix k n.
Proof.
  revert n. induction k as [|c k IH]; intros n Hs Hq.
  - cbn [append]. rewrite fnmatch_star. now destruct n.
  - cbn [has_char] in Hs, Hq.
    apply orb_false_iff in Hs. destruct Hs as [Hs1 Hs2].
    apply orb_false_iff in Hq. destruct Hq as [Hq1 Hq2].
    cbn [append fnmatch]. rewrite Ascii.eqb_sym, Hs1.
    destruct n as [|c' n]; [reflexivity|].
    rewrite (Ascii.eqb_sym c "?"), Hq1. cbn [orb String.prefix].
    rewrite (IH n Hs2 Hq2).
    destruct (ascii_dec c c') as [->|Hne].
    + now rewrite Ascii.eqb_refl.
    + apply Ascii.eqb_neq in Hne. now rewrite Hne.
Qed.

Lemma has_char_app (c : ascii) (a b : string) :
  has_char c (a ++ b) = has_char c a || has_char c b.
Proof.
  induction a as [|x a IH]; [reflexivity|].
  cbn [append has_char]. now rewrite IH, orb_assoc.
Qed.

Lemma has_char_replace_from (c : ascii) (old new s : string) :
  has_char c new = false -> has_char c s = false ->
  forall skip, has_char c (replace_from old new s skip) = false.
Proof.
  intros Hn. induction s as [|x s IH]; intros Hs skip; [reflexivity|].
  cbn [has_char] in Hs. apply orb_false_iff in Hs. destruct Hs as [Hx Hs].
  cbn [replace_from]. destruct skip as [|k]; [|now apply IH].
  destruct (String.prefix old (String x s)).
  - rewrite has_char_app, Hn. now apply IH.
  - cbn [has_char]. rewrite Hx. now apply IH.
Qed.

(** Replacing a non-empty identifier at the start of a name puts the label
    there. *)
Lemma replace_at_start (k l a : string) :
  k <> "" -> String.prefix k a = true ->
  exists rest skip, str_replace k l a = l ++ replace_from k l rest skip
                    /\ exists c, a = String c rest.
Proof.
  intros Hk Hp. destruct k as [|ck k]; [congruence|].
  destruct a as [|ca a]; [discriminate|].
  exists a, (String.length (String ck k) - 1). split; [|now exists ca].
  unfold str_replace. cbn [replace_from]. now rewrite Hp.
Qed.

Lemma prefix_head (k a : string) :
  k <> "" -> String.prefix k a = true -> starts_like k a = true.
Proof.
  destruct k as [|ck k]; [congruence|]. intros _.
  destruct a as [|ca a]; [discriminate|]. cbn.
  destruct (ascii_dec ck ca) as [->|]; [now rewrite Ascii.eqb_refl|discriminate].
Qed.

Lemma starts_like_trans_false (l k n : string) :
  starts_like l k = false -> k <> "" ->
  starts_like l n = true -> String.prefix k n = false.
Proof.
  destruct l as [|cl l]; [discriminate|].
  destruct k as [|ck k]; [congruence|].
  destruct n as [|cn n]; [discriminate|].
  cbn. intros Hlk _ Hln.
  apply Ascii.eqb_eq in Hln. subst cn.
  destruct (ascii_dec ck cl) as [->|]; [|reflexivity].
  now rewrite Ascii.eqb_refl in Hlk.
Qed.

(** *** Places below the destination folder *)

Lemma valid_name_parts (n : string) :
  valid_name n = true ->
  has_char "/" n = false /\ n <> "" /\ n <> "." /\ n <> "..".
Proof.
  unfold valid_name. intros H.
  repeat (apply andb_true_iff in H; destruct H as [H ?]).
  repeat match goal with
         | X : negb _ = true |- _ => apply negb_true_iff in X
         end.
  repeat split; try assumption; now apply String.eqb_neq.
Qed.

Lemma valid_name_intro (n : string) :
  has_char "/" n = false -> n <> "" -> n <> "." -> n <> ".." ->
  valid_name n = true.
Proof.
  intros Hs H1 H2 H3. unfold valid_name.
  apply String.eqb_neq in H1, H2, H3. now rewrite Hs, H1, H2, H3.
Qed.

Lemma locate_child (h : host) (p : pure_path) (n : string) :
  n <> ".." -> locate h (child p n) = (locate h p ++ [n])%list.
Proof.
  intros Hn.
  assert (Hd : has_dotdot [n] = false).
  { unfold has_dotdot. cbn [existsb]. rewrite orb_false_r.
    apply String.eqb_neq. congruence. }
  destruct p as [[|] l]; unfold locate, child; cbn [absolute parts].
  - now rewrite normalize_app_plain.
  - rewrite app_assoc. now rewrite normalize_app_plain.
Qed.

Lemma split_on_no_separator (n : string) :
  has_char "/" n = false -> split_on "/" n = [n].
Proof.
  induction n as [|c n IH]; [reflexivity|].
  cbn [has_char]. intros H. apply orb_false_iff in H. destruct H as [Hc Hn].
  cbn [split_on]. rewrite Ascii.eqb_sym, Hc. now rewrite (IH Hn).
Qed.

Lemma joinpath_valid_name (p : pure_path) (n : string) :
  valid_name n = true -> joinpath p [n] = child p n.
Proof.
  intros Hv. destruct (valid_name_parts _ Hv) as [Hs [He [Hd _]]].
  unfold joinpath, join1, parse_segment, child. cbn [fold_left].
  rewrite (split_on_no_separator _ Hs). cbn [filter].
  unfold is_component.
  apply String.eqb_neq in He, Hd. rewrite He, Hd. cbn [negb andb].
  assert (Hp : startswith n "/" = false).
  { unfold startswith. destruct n as [|c n]; [reflexivity|].
    cbn [has_char] in Hs. apply orb_false_iff in Hs. destruct Hs as [Hc _].
    cbn [String.prefix]. destruct (ascii_dec "/" c) as [<-|]; [|reflexivity].
    discriminate. }
  cbn [absolute parts]. now rewrite Hp.
Qed.

(** *** The listing of a directory under removal and insertion *)

Lemma fs_remove_deeper (c c2 : string) (rest : list string)
    (es : list (string * node)) :
  fs_remove (c :: c2 :: rest) (Dir es) =
  match dict_get c es with
  | Some ch =>
      match fs_remove (c2 :: rest) ch with
      | Some ch' => Some (Dir (dict_set c ch' es))
      | None => None
      end
  | None => None
  end.
Proof. reflexivity. Qed.

Lemma names_at_cons (c : string) (ps : list string)
    (es : list (string * node)) :
  names_at (c :: ps) (Dir es) =
  match dict_get c es with
  | Some ch => names_at ps ch
  | None => []
  end.
Proof.
  unfold names_at. cbn [fs_lookup]. now destruct (dict_get c es).
Qed.

Lemma keys_after_remove {V : Type} (a n : string) (d : dict V) :
  In n (dict_keys (dict_remove a d)) -> In n (dict_keys d) /\ n <> a.
Proof.
  unfold dict_keys, dict_remove. intros H.
  apply in_map_iff in H. destruct H as [[k v] [E H]]. cbn in E. subst k.
  apply filter_In in H. destruct H as [Hin Hne]. cbn in Hne. split.
  - apply in_map_iff. now exists (n, v).
  - apply negb_true_iff, String.eqb_neq in Hne. congruence.
Qed.

Lemma keys_after_set {V : Type} (b n : string) (v : V) (d : dict V) :
  In n (dict_keys (dict_set b v d)) -> In n (dict_keys d) \/ n = b.
Proof.
  induction d as [|[k' v'] d IH]; cbn.
  - intros [<-|[]]. now right.
  - destruct (String.eqb b k') eqn:E; cbn.
    + tauto.
    + intros [H|H]; [tauto|]. destruct (IH H); tauto.
Qed.

Lemma names_after_remove (ps : list string) (a : string) :
  forall (root r1 : node),
    fs_remove (ps ++ [a]) root = Some r1 ->
    forall n, In n (names_at ps r1) -> In n (names_at ps root) /\ n <> a.
Proof.
  induction ps as [|c ps IH]; intros root r1 H n Hn.
  - destruct root as [?|es]; [discriminate|].
    cbn in H. injection H as <-. unfold names_at in *. cbn in *.
    now apply keys_after_remove.
  - destruct root as [?|es];
      [cbn in H; destruct (ps ++ [a])%list; discriminate|].
    assert (E : exists x xs, (ps ++ [a])%list = x :: xs)
      by (destruct ps; cbn; eauto).
    destruct E as [x [xs E]].
    cbn [app] in H. rewrite E in H. rewrite fs_remove_deeper in H.
    destruct (dict_get c es) as [ch|] eqn:Ec; [|discriminate].
    rewrite <- E in H.
    destruct (fs_remove (ps ++ [a]) ch) as [ch'|] eqn:Er; [|discriminate].
    injection H as <-.
    rewrite names_at_cons, dict_get_set_same in Hn.
    rewrite names_at_cons, Ec. now apply (IH _ _ Er).
Qed.

Lemma names_after_put (ps : list string) (b : string) (new : node) :
  forall (root r2 : node),
    fs_put (ps ++ [b]) new root = Some r2 ->
    forall n, In n (names_at ps r2) -> In n (names_at ps root) \/ n = b.
Proof.
  induction ps as [|c ps IH]; intros root r2 H n Hn.
  - destruct root as [?|es]; [discriminate|].
    cbn in H. injection H as <-. unfold names_at in *. cbn in *.
    now apply keys_after_set in Hn.
  - destruct root as [?|es];
      [cbn in H; destruct (ps ++ [b])%list; discriminate|].
    assert (E : exists x xs, (ps ++ [b])%list = x :: xs)
      by (destruct ps; cbn; eauto).
    destruct E as [x [xs E]].
    cbn [app] in H. rewrite E in H. rewrite fs_put_deeper in H.
    destruct (dict_get c es) as [ch|] eqn:Ec; [|discriminate].
    rewrite <- E in H.
    destruct (fs_put (ps ++ [b]) new ch) as [ch'|] eqn:Er; [|discriminate].
    injection H as <-.
    rewrite names_at_cons, dict_get_set_same in Hn.
    rewrite names_at_cons, Ec. now apply (IH _ _ Er).
Qed.

Lemma is_prefix_both (a : list string) :
  forall b, is_prefix_of a b = true -> is_prefix_of b a = true -> a = b.
Proof.
  induction a as [|x a IH]; intros [|y b]; cbn; try discriminate; auto.
  intros H1 H2.
  apply andb_true_iff in H1. destruct H1 as [Exy H1].
  apply andb_true_iff in H2. destruct H2 as [_ H2].
  apply String.eqb_eq in Exy. subst y. f_equal. now apply IH.
Qed.

(** What a successful renaming of [a] into [b] does to the listing. *)
Lemma names_after_rename (h : host) (p : pure_path) (a b : string)
    (root root' : node) :
  a <> ".." -> b <> ".." -> a <> b ->
  rename h (child p a) (child p b) root = Returned root' ->
  forall n, In n (listdir h p root') ->
            (In n (listdir h p root) /\ n <> a) \/ n = b.
Proof.
  intros Ha Hb Hab. unfold rename, listdir.
  rewrite (locate_child h p a Ha), (locate_child h p b Hb).
  destruct (refuses h CallRename (child p a)); [discriminate|].
  destruct (fs_lookup (locate h p ++ [a]) root) as [moved|]; [|discriminate].
  destruct (list_eqb _ _) eqn:El.
  { unfold list_eqb in El. apply andb_true_iff in El. destruct El as [E1 E2].
    pose proof (is_prefix_both _ _ E1 E2) as E.
    apply app_inv_head in E. congruence. }
  destruct (is_prefix_of _ _); [discriminate|].
  match goal with
  | |- (if ?c then _ else _) = _ -> _ => destruct c; [|discriminate]
  end.
  destruct (fs_remove _ root) as [r1|] eqn:Er; [|discriminate].
  destruct (fs_put _ moved r1) as [r2|] eqn:Ep; [|discriminate].
  intros H. injection H as <-. intros n Hn.
  destruct (names_after_put _ _ _ _ _ Ep n Hn) as [H1|H1]; [|now right].
  left. exact (names_after_remove _ _ _ _ Er n H1).
Qed.

(** *** The two loops *)

Lemma dict_get_In {V : Type} (k : string) (v : V) (d : dict V) :
  dict_get k d = Some v -> In (k, v) d.
Proof.
  induction d as [|[k' v'] d IH]; cbn; [discriminate|].
  destruct (String.eqb_spec k k') as [->|].
  - intros H. injection H as ->. now left.
  - intros H. right. now apply IH.
Qed.

Lemma dict_get_present {V : Type} (k : string) (d : dict V) :
  In k (dict_keys d) -> dict_get k d <> None.
Proof.
  intros Hin Hnone. induction d as [|[k' v'] d IH]; cbn in *; [tauto|].
  destruct (String.eqb_spec k k') as [->|]; [discriminate|].
  destruct Hin as [E|Hin]; [congruence|]. now apply IH.
Qed.

Lemma filter_nothing {A : Type} (f : A -> bool) (l : list A) :
  (forall x, In x l -> f x = false) -> filter f l = [].
Proof.
  induction l as [|x l IH]; intros H; [reflexivity|].
  cbn. rewrite (H x (or_introl eq_refl)). apply IH.
  intros y Hy. apply H. now right.
Qed.

Section Renamer.

Variable h : host.
Variable destination_folder : pure_path.

Section OneIdentifier.

Variables volume_id letter : string.
Hypothesis id_not_empty : volume_id <> "".
Hypothesis letter_no_separator : has_char "/" letter = false.
Hypothesis letter_no_dot : starts_like "." letter = false.
Hypothesis letter_not_empty : letter <> "".
Hypothesis letter_apart : starts_like letter volume_id = false.

(** The new name of an entry that starts with the identifier. *)
Lemma new_name_is_settled (a : string) :
  valid_name a = true -> String.prefix volume_id a = true ->
  valid_name (str_replace volume_id letter a) = true
  /\ starts_like letter (str_replace volume_id letter a) = true
  /\ a <> str_replace volume_id letter a.
Proof.
  intros Hv Hp.
  destruct (valid_name_parts _ Hv) as [Hs _].
  destruct (replace_at_start _ letter _ id_not_empty Hp)
    as [rest [skip [E [c Ea]]]].
  rewrite E. subst a.
  cbn [has_char] in Hs. apply orb_false_iff in Hs. destruct Hs as [_ Hs].
  destruct letter as [|cl l'] eqn:El; [congruence|].
  assert (Hlike : starts_like (String cl l')
                    (String cl l' ++ replace_from volume_id
                                       (String cl l') rest skip) = true).
  { cbn [append starts_like]. apply Ascii.eqb_refl. }
  cbn [starts_like] in letter_no_dot.
  assert (Hcl : cl <> "."%char).
  { intros ->. now rewrite Ascii.eqb_refl in letter_no_dot. }
  split; [|split].
  - apply valid_name_intro.
    + rewrite has_char_app, letter_no_separator.
      now rewrite (has_char_replace_from _ _ _ _ letter_no_separator Hs).
    + discriminate.
    + cbn [append]. intros Eq. injection Eq as Eq _. congruence.
    + cbn [append]. intros Eq. injection Eq as Eq _. congruence.
  - exact Hlike.
  - intros Heq.
    pose proof (starts_like_trans_false _ _ _ letter_apart id_not_empty
                  Hlike) as Hf.
    rewrite <- Heq in Hf. congruence.
Qed.

Lemma rename_each_names (dirs : list string) :
  forall root root',
    tidy h destination_folder root ->
    Forall (fun a => valid_name a = true
                     /\ String.prefix volume_id a = true) dirs ->
    rename_each h destination_folder volume_id letter dirs root
    = (Returned tt, root') ->
    tidy h destination_folder root'
    /\ forall n, In n (listdir h destination_folder root') ->
                 starts_like letter n = true
                 \/ (In n (listdir h destination_folder root)
                     /\ ~ In n dirs).
Proof.
  induction dirs as [|a rest IH]; intros root root' Htidy Hdirs.
  - cbn [rename_each]. intros H. injection H as <-. split; [exact Htidy|].
    intros n Hn. right. split; [exact Hn | tauto].
  - inversion Hdirs as [|? ? [Hva Hpa] Hrest]; subst.
    destruct (new_name_is_settled a Hva Hpa) as [Hvb [Hlb Hab]].
    cbn [rename_each]. rewrite (joinpath_valid_name _ _ Hvb).
    destruct (rename _ _ _ root) as [r1|e] eqn:Er; [|discriminate].
    destruct (valid_name_parts _ Hva) as [_ [_ [_ Ha2]]].
    destruct (valid_name_parts _ Hvb) as [_ [_ [_ Hb2]]].
    pose proof (names_after_rename _ _ _ _ _ _ Ha2 Hb2 Hab Er) as Hnames.
    assert (Htidy1 : tidy h destination_folder r1).
    { intros n Hn. destruct (Hnames n Hn) as [[Hold _]| ->];
        [now apply Htidy | exact Hvb]. }
    intros Hloop. destruct (IH _ _ Htidy1 Hrest Hloop) as [Htidy' Hchar].
    split; [exact Htidy'|]. intros n Hn.
    destruct (Hchar n Hn) as [Hs|[Hin1 Hnot]]; [now left|].
    destruct (Hnames n Hin1) as [[Hold Hna]| ->]; [|now left].
    right. split; [exact Hold|]. cbn. intros [E|Hin]; [congruence|tauto].
Qed.

End OneIdentifier.

Variable mapping : dict string.
Hypothesis ids_plain :
  forall k, In k (dict_keys mapping) -> plain_id k = true.
Hypothesis apart : labels_apart mapping = true.

Lemma plain_id_parts (k : string) :
  plain_id k = true ->
  k <> "" /\ has_char "*" k = false /\ has_char "?" k = false.
Proof.
  unfold plain_id. intros H.
  repeat (apply andb_true_iff in H; destruct H as [H ?]).
  repeat match goal with
         | X : negb _ = true |- _ => apply negb_true_iff in X
         end.
  repeat split; try assumption. now apply String.eqb_neq.
Qed.

Lemma label_facts (k l : string) :
  In (k, l) mapping ->
  has_char "/" l = false /\ starts_like "." l = false /\ l <> ""
  /\ forall k', In k' (dict_keys mapping) -> starts_like l k' = false.
Proof.
  intros Hin. unfold labels_apart in apart.
  rewrite forallb_forall in apart. specialize (apart _ Hin).
  cbn [snd] in apart.
  repeat (apply andb_true_iff in apart; destruct apart as [apart ?]).
  repeat match goal with
         | X : negb _ = true |- _ => apply negb_true_iff in X
         end.
  repeat split; try assumption.
  - now apply String.eqb_neq.
  - intros k' Hk'.
    match goal with
    | X : forallb _ _ = true |- _ =>
        rewrite forallb_forall in X; specialize (X _ Hk');
        now apply negb_true_iff in X
    end.
Qed.

(** A name that starts like a label matches no pattern of the mapping. *)
Lemma settled_matches_nothing (k0 l0 k n : string) :
  In (k0, l0) mapping -> In k (dict_keys mapping) ->
  starts_like l0 n = true -> String.prefix k n = false.
Proof.
  intros Hin Hk Hs.
  destruct (label_facts _ _ Hin) as [_ [_ [_ Hall]]].
  destruct (plain_id_parts _ (ids_plain _ Hk)) as [Hne _].
  exact (starts_like_trans_false _ _ _ (Hall _ Hk) Hne Hs).
Qed.

Lemma rename_keys_names (keys : list string) :
  forall root root',
    incl keys (dict_keys mapping) ->
    tidy h destination_folder root ->
    rename_keys h destination_folder mapping keys root
    = (Returned tt, root') ->
    tidy h destination_folder root'
    /\ forall n, In n (listdir h destination_folder root') ->
                 (exists k l, In (k, l) mapping
                              /\ starts_like l n = true)
                 \/ (In n (listdir h destination_folder root)
                     /\ forall k, In k keys ->
                                  String.prefix k n = false).
Proof.
  induction keys as [|k keys IH]; intros root root' Hincl Htidy.
  - cbn [rename_keys]. intros H. injection H as <-. split; [exact Htidy|].
    intros n Hn. right. split; [exact Hn|]. intros k [].
  - assert (Hk : In k (dict_keys mapping)) by (apply Hincl; now left).
    assert (Hincl' : incl keys (dict_keys mapping))
      by (intros x Hx; apply Hincl; now right).
    cbn [rename_keys].
    destruct (dict_get k mapping) as [l|] eqn:Eg; [|discriminate].
    apply dict_get_In in Eg.
    destruct (label_facts _ _ Eg) as [L1 [L2 [L3 L4]]].
    destruct (plain_id_parts _ (ids_plain _ Hk)) as [K1 [K2 K3]].
    destruct (rename_each _ _ _ _ _ root) as [[[]|e] r1] eqn:Ee;
      [|discriminate].
    assert (Hdirs : Forall (fun a => valid_name a = true
                                     /\ String.prefix k a = true)
                      (glob h destination_folder (k ++ "*") root)).
    { apply Forall_forall. intros a Ha. unfold glob in Ha.
      apply filter_In in Ha. destruct Ha as [Hin Hm].
      rewrite (fnmatch_plain _ _ K2 K3) in Hm. split; [|exact Hm].
      now apply Htidy. }
    destruct (rename_each_names k l K1 L1 L2 L3 (L4 _ Hk) _ _ _
                Htidy Hdirs Ee) as [Htidy1 Hchar1].
    intros Hloop. destruct (IH _ _ Hincl' Htidy1 Hloop) as [Htidy' Hchar].
    split; [exact Htidy'|]. intros n Hn.
    destruct (Hchar n Hn) as [Hs|[Hin1 Hrest]]; [now left|].
    destruct (Hchar1 n Hin1) as [Hs|[Hold Hnot]].
    + left. now exists k, l.
    + right. split; [exact Hold|]. intros k' [<-|Hk']; [|now apply Hrest].
      rewrite <- (fnmatch_plain _ _ K2 K3).
      destruct (fnmatch (k ++ "*") n) eqn:Em; [|reflexivity].
      exfalso. apply Hnot. unfold glob. apply filter_In. now split.
Qed.

Lemma rename_keys_no_match (root : node) (keys : list string) :
  incl keys (dict_keys mapping) ->
  (forall k, In k keys ->
             glob h destination_folder (k ++ "*") root = []) ->
  rename_keys h destination_folder mapping keys root = (Returned tt, root).
Proof.
  induction keys as [|k keys IH]; intros Hincl Hnone; [reflexivity|].
  cbn [rename_keys].
  assert (Hk : In k (dict_keys mapping)) by (apply Hincl; now left).
  pose proof (dict_get_present _ _ Hk) as Hp.
  destruct (dict_get k mapping) as [l|]; [|congruence].
  rewrite (Hnone k (or_introl eq_refl)). cbn [rename_each].
  apply IH.
  - intros x Hx. apply Hincl. now right.
  - intros k' Hk'. apply Hnone. now right.
Qed.

Lemma renamed_once_matches_nothing (root root1 : node) :
  tidy h destination_folder root ->
  _rename_volumes h destination_folder mapping root = (Returned tt, root1) ->
  forall k, In k (dict_keys mapping) ->
            glob h destination_folder (k ++ "*") root1 = [].
Proof.
  intros Htidy Hrun k Hk. unfold _rename_volumes in Hrun.
  destruct (rename_keys_names _ _ _ (incl_refl _) Htidy Hrun)
    as [_ Hchar].
  destruct (plain_id_parts _ (ids_plain _ Hk)) as [K1 [K2 K3]].
  unfold glob. apply filter_nothing. intros n Hn.
  rewrite (fnmatch_plain _ _ K2 K3).
  destruct (Hchar n Hn) as [[k0 [l0 [Hin Hs]]]|[_ Hall]].
  - exact (settled_matches_nothing _ _ _ _ Hin Hk Hs).
  - now apply Hall.
Qed.

End Renamer.

(** C6, as the code has it. Let the volume identifiers of the label map be
    non-empty and free of wildcard, bracket and separator characters, and let
    every label be free of separators and begin with a character that is not
    a dot and that begins no volume identifier of the map. If the Renamer
    completes on a destination folder whose entries have proper names, then
    no entry of the folder matches the pattern of any volume identifier any
    more, and a second application with the same map renames nothing and
    leaves the tree as it is. *)
Theorem renaming_twice_changes_nothing
    (h : host) (destination_folder : pure_path) (mapping : dict string)
    (root root1 : node) :
  forallb plain_id (dict_keys mapping) = true ->
  labels_apart mapping = true ->
  forallb valid_name (listdir h destination_folder root) = true ->
  _rename_volumes h destination_folder mapping root = (Returned tt, root1) ->
  (forall volume_id, In volume_id (dict_keys mapping) ->
                     glob h destination_folder (volume_id ++ "*") root1 = [])
  /\ _rename_volumes h destination_folder mapping root1
     = (Returned tt, root1).
Proof.
  intros Hids Hlabels Hnames Hrun.
  rewrite forallb_forall in Hids. rewrite forallb_forall in Hnames.
  pose proof (renamed_once_matches_nothing h destination_folder mapping
                Hids Hlabels root root1 Hnames Hrun) as Hnone.
  split; [exact Hnone|].
  unfold _rename_volumes.
  apply (rename_keys_no_match h destination_folder mapping root1 _
           (incl_refl _) Hnone).
Qed.

Lemma renaming_twice_changes_nothing_witness :
  _rename_volumes Sample.quiet_host Sample.out Sample.guid_map
    (Dir [("out", Dir [("C", Dir []); ("C (vsc {1})", Dir [])])])
  = (Returned tt,
     Dir [("out", Dir [("C", Dir []); ("C (vsc {1})", Dir [])])]).
Proof.
  apply (proj2 (renaming_twice_changes_nothing Sample.quiet_host Sample.out
                  Sample.guid_map Sample.guid_tree
                  (Dir [("out", Dir [("C", Dir []); ("C (vsc {1})", Dir [])])])
                  eq_refl eq_refl eq_refl eq_refl)).
Defined.

(** C6, as the claim has it, fails: with the map D -> E, C -> D and one
    folder C, the first application leaves a folder D, which the second
    application finds under the identifier D and renames to E. *)
Lemma renaming_twice_differs :
  _rename_volumes Sample.quiet_host Sample.out Sample.letters_map
    Sample.letters_tree
  = (Returned tt, Dir [("out", Dir [("D", Dir [])])])
  /\ glob Sample.quiet_host Sample.out "D*"
       (Dir [("out", Dir [("D", Dir [])])]) = ["D"]
  /\ _rename_volumes Sample.quiet_host Sample.out Sample.letters_map
       (Dir [("out", Dir [("D", Dir [])])])
     = (Returned tt, Dir [("out", Dir [("E", Dir [])])]).
Proof. repeat split; vm_compute; reflexivity. Qed.

(* ================================================================= *)
(** ** The maps that invocations return *)

Lemma dict_set_keeps_nodup {V : Type} (k : string) (v : V) (d : dict V) :
  NoDup (dict_keys d) -> NoDup (dict_keys (dict_set k v d)).
Proof.
  induction d as [|[k' v'] d IH]; cbn; intros H.
  - constructor; [tauto | constructor].
  - inversion H as [|? ? Hnotin Hd]; subst.
    destruct (String.eqb_spec k k') as [->|Hne]; cbn.
    + now constructor.
    + constructor; [|now apply IH].
      intros Hin. apply keys_after_set in Hin.
      destruct Hin as [Hin|Hin]; [now apply Hnotin | congruence].
Qed.

Lemma dict_merge_keeps_nodup {V : Type} (b a : dict V) :
  NoDup (dict_keys a) -> NoDup (dict_keys (dict_merge a b)).
Proof.
  revert a. induction b as [|[k v] b IH]; intros a H; [exact H|].
  rewrite dict_merge_cons. apply IH. now apply dict_set_keeps_nodup.
Qed.

Lemma parse_volstats_nodup (rows : list csv_row) (d : dict string) :
  _parse_volstats rows = Returned d -> NoDup (dict_keys d).
Proof.
  unfold _parse_volstats.
  assert (G : forall acc, NoDup (dict_keys acc) ->
                          fold_rows volstats_row rows acc = Returned d ->
                          NoDup (dict_keys d)).
  { induction rows as [|row rows IH]; intros acc Hacc; cbn [fold_rows].
    - intros H. injection H as <-. exact Hacc.
    - destruct (volstats_row acc row) as [acc'|e] eqn:Er; cbn [bind];
        [|discriminate].
      apply IH. unfold volstats_row in Er.
      destruct (dict_get "MountPoint" row) as [[|c mp]|].
      + injection Er as <-. exact Hacc.
      + unfold dict_item in Er.
        destruct (dict_get "VolumeID" row); cbn [bind] in Er; [|discriminate].
        injection Er as <-. now apply dict_set_keeps_nodup.
      + injection Er as <-. exact Hacc. }
  apply G. constructor.
Qed.

Lemma entries_loop_nodup (h : host) (report_files : list string)
    (report_destination_directory : option pure_path)
    (recurse : blob -> string -> world -> outcome walk_result * world)
    (archive_name : string) (getthis_mapping : dict target)
    (files : list (string * blob)) :
  forall (volstat volstat' : dict string) (w w' : world),
    NoDup (dict_keys volstat) ->
    entries_loop h report_files report_destination_directory recurse
      archive_name getthis_mapping files volstat w = (Returned volstat', w') ->
    NoDup (dict_keys volstat').
Proof.
  induction files as [|[filename file_content] rest IH];
    intros volstat volstat' w w' Hnd; cbn [entries_loop].
  - intros H. injection H as <- _. exact Hnd.
  - destruct (entry_step _ _ _ _ _ _ _ _ _ _) as [[v1|e] w1] eqn:Es;
      [|discriminate].
    apply IH. unfold entry_step in Es.
    destruct (dict_get filename getthis_mapping) as [t|].
    + destruct (_write_file _ _ _ _ _ _) as [[[|]|e] w2];
        try discriminate; injection Es as <- _; exact Hnd.
    + destruct (membership _ report_files).
      * destruct report_destination_directory as [dir|]; [|discriminate].
        destruct (_write_file _ _ _ _ _ _) as [[[|]|e] w2];
          try discriminate; injection Es as <- _; exact Hnd.
      * destruct (endswith filename ".7z").
        -- destruct (recurse file_content filename w) as [[[|sub]|e] w2];
             try discriminate; injection Es as <- _;
             [exact Hnd | now apply dict_merge_keeps_nodup].
        -- injection Es as <- _. exact Hnd.
Qed.

(** The map that an invocation returns has every VolumeID once. *)
Lemma returned_map_nodup (h : host) (destination_folder : pure_path)
    (archives_with_password : dict string) (report_files : list string)
    (report_destination_directory : option pure_path)
    (archive : blob) (archive_name : string) (w w' : world)
    (volstat : dict string) :
  _extract_artefacts_recusrive h destination_folder archives_with_password
    report_files report_destination_directory archive archive_name w
  = (Returned (Result volstat), w') ->
  NoDup (dict_keys volstat).
Proof.
  destruct archive as [data rows z]. cbn [_extract_artefacts_recusrive].
  destruct (z _) as [|e|e|files]; try discriminate.
  cbn [open_handle]. unfold walk_opened.
  destruct (match dict_get "GetThis.csv" files with
            | Some b => _ | None => _ end) as [getthis_mapping|];
    [|discriminate].
  destruct (match dict_get "volstats.csv" files with
            | Some b => _ | None => _ end) as [volstat0|] eqn:Ev;
    [|discriminate].
  destruct (entries_loop _ _ _ _ _ _ _ _ _) as [[v|e] w1] eqn:El;
    [|discriminate].
  intros H. injection H as <- _.
  refine (entries_loop_nodup _ _ _ _ _ _ _ _ _ _ _ _ El).
  destruct (dict_get "volstats.csv" files) as [b|].
  - exact (parse_volstats_nodup _ _ Ev).
  - injection Ev as <-. constructor.
Qed.

(** C5. When the recursive call on a nested archive returns its map, the
    map of this level becomes the merge of both: a VolumeID that is in the
    child's map takes the child's label, and any other keeps the label it had
    in the parent's map, if it had one. *)
Theorem merge_child_overrides_parent
    (h : host) (destination_folder : pure_path)
    (archives_with_password : dict string) (report_files : list string)
    (report_destination_directory : option pure_path)
    (archive_name : string) (getthis_mapping : dict target)
    (volstat sub : dict string) (filename : string) (file_content : blob)
    (w w1 : world) :
  dict_get filename getthis_mapping = None ->
  membership (archive_name ++ "/" ++ filename) report_files = false ->
  endswith filename ".7z" = true ->
  _extract_artefacts_recusrive h destination_folder archives_with_password
    report_files report_destination_directory file_content filename w
  = (Returned (Result sub), w1) ->
  exists merged,
    entry_step h report_files report_destination_directory
      (_extract_artefacts_recusrive h destination_folder
         archives_with_password report_files report_destination_directory)
      archive_name getthis_mapping volstat filename file_content w
    = (Returned merged, w1) /\
    forall volume_id,
      dict_get volume_id merged =
      match dict_get volume_id sub with
      | Some label => Some label
      | None => dict_get volume_id volstat
      end.
Proof.
  intros Hmap Hrep Hext Hrec.
  exact (merge_of_returned_map h report_files report_destination_directory
           _ archive_name getthis_mapping volstat sub filename file_content
           w w1 Hmap Hrep Hext Hrec (returned_map_nodup _ _ _ _ _ _ _ _ _ _ Hrec)).
Qed.

Lemma merge_child_overrides_parent_witness :
  exists merged w1,
    entry_step Sample.quiet_host [] None
      (_extract_artefacts_recusrive Sample.quiet_host Sample.out [] [] None)
      "." [] [("V1", "C")] "sub.7z" Sample.nested_with_label
      Sample.empty_world
    = (Returned merged, w1) /\
    dict_get "V1" merged = Some "D".
Proof.
  destruct (merge_child_overrides_parent Sample.quiet_host Sample.out [] []
              None "." [] [("V1", "C")] [("V1", "D")] "sub.7z"
              Sample.nested_with_label Sample.empty_world
              (mkWorld (Dir []) [] [] 1 [])
              eq_refl eq_refl eq_refl eq_refl)
    as [merged [Hstep Hget]].
  exists merged, (mkWorld (Dir []) [] [] 1 []).
  split; [exact Hstep|]. now rewrite Hget.
Defined.

(* ================================================================= *)
(** * Further properties of the parsers *)

(** ** [_parse_volstats] *)

Lemma fold_rows_app {S : Type} (f : S -> csv_row -> outcome S)
    (a b : list csv_row) (acc : S) :
  fold_rows f (a ++ b) acc = (acc' <- fold_rows f a acc ;; fold_rows f b acc').
Proof.
  revert acc. induction a as [|row a IH]; intros acc; [reflexivity|].
  cbn [app fold_rows]. destruct (f acc row); cbn [bind]; [apply IH|reflexivity].
Qed.

Lemma keys_into_set {V : Type} (b n : string) (v : V) (d : dict V) :
  In n (dict_keys d) \/ n = b -> In n (dict_keys (dict_set b v d)).
Proof.
  induction d as [|[k' v'] d IH]; cbn.
  - intros [[]| ->]. now left.
  - destruct (String.eqb_spec b k') as [->|Hne]; cbn.
    + intros [[H|H]|H]; auto.
    + intros [[H|H]|H]; auto.
Qed.

(** What a row does to the map: nothing when it is not mounted, one
    assignment when it is. *)
Lemma volstats_row_cases (acc acc' : dict string) (row : csv_row) :
  volstats_row acc row = Returned acc' ->
  (mounted row = false /\ acc' = acc)
  \/ (mounted row = true /\
      exists volume_id mount_point,
        dict_get "VolumeID" row = Some volume_id /\
        dict_get "MountPoint" row = Some mount_point /\
        String.length (first_char mount_point) = 1 /\
        acc' = dict_set volume_id (first_char mount_point) acc).
Proof.
  unfold volstats_row, mounted.
  destruct (dict_get "MountPoint" row) as [[|c mp]|].
  - intros H. injection H as <-. now left.
  - unfold dict_item.
    destruct (dict_get "VolumeID" row) as [v|]; cbn [bind]; [|discriminate].
    intros H. injection H as <-. right. split; [reflexivity|].
    exists v, (String c mp). repeat split.
  - intros H. injection H as <-. now left.
Qed.

(** X1. Every label of the returned map is one character long: the first
    character of a non-empty MountPoint. *)
Theorem volstats_labels_are_single_characters
    (rows : list csv_row) (d : dict string) :
  _parse_volstats rows = Returned d ->
  forall volume_id label,
    dict_get volume_id d = Some label -> String.length label = 1.
Proof.
  unfold _parse_volstats.
  assert (G : forall acc,
             (forall k l, dict_get k acc = Some l -> String.length l = 1) ->
             fold_rows volstats_row rows acc = Returned d ->
             forall k l, dict_get k d = Some l -> String.length l = 1).
  { induction rows as [|row rows IH]; intros acc Hacc; cbn [fold_rows].
    - intros H. injection H as <-. exact Hacc.
    - destruct (volstats_row acc row) as [acc'|e] eqn:Er; cbn [bind];
        [|discriminate].
      apply IH.
      destruct (volstats_row_cases _ _ _ Er)
        as [[_ ->]|[_ [v [mp [_ [_ [Hlen ->]]]]]]]; [exact Hacc|].
      intros k l. destruct (string_dec k v) as [->|Hne].
      + rewrite dict_get_set_same. intros H. injection H as <-. exact Hlen.
      + rewrite (dict_get_set_other _ _ _ _ Hne). apply Hacc. }
  apply G. intros k l. discriminate.
Qed.

Lemma volstats_labels_are_single_characters_witness :
  String.length "C" = 1.
Proof.
  apply (volstats_labels_are_single_characters
           [[("VolumeID", "V1"); ("MountPoint", "C:")]]
           [("V1", "C")] eq_refl "V1" "C" eq_refl).
Defined.

(** X2. The keys of the returned map are the VolumeIDs of the rows that have
    a non-empty MountPoint, and no others: a volume that was not mounted is
    not in the map. *)
Theorem volstats_keys_are_the_mounted_volumes
    (rows : list csv_row) (d : dict string) :
  _parse_volstats rows = Returned d ->
  forall volume_id,
    In volume_id (dict_keys d) <->
    exists row, In row rows /\ mounted row = true /\
                dict_get "VolumeID" row = Some volume_id.
Proof.
  unfold _parse_volstats.
  assert (G : forall acc,
             fold_rows volstats_row rows acc = Returned d ->
             forall k,
               In k (dict_keys d) <->
               In k (dict_keys acc) \/
               exists row, In row rows /\ mounted row = true /\
                           dict_get "VolumeID" row = Some k).
  { induction rows as [|row rows IH]; intros acc; cbn [fold_rows].
    - intros H. injection H as <-. intros k. split; [tauto|].
      intros [H|[row [[] _]]]. exact H.
    - destruct (volstats_row acc row) as [acc'|e] eqn:Er; cbn [bind];
        [|discriminate].
      intros Hfold k. rewrite (IH _ Hfold k).
      destruct (volstats_row_cases _ _ _ Er)
        as [[Hm ->]|[Hm [v [mp [Hv [_ [_ ->]]]]]]].
      + split.
        * intros [H|[r [Hin Hr]]]; [now left|].
          right. exists r. split; [now right | exact Hr].
        * intros [H|[r [[<-|Hin] [Hr1 Hr2]]]]; [now left | congruence |].
          right. now exists r.
      + split.
        * intros [H|[r [Hin Hr]]].
          -- apply keys_after_set in H. destruct H as [H| ->]; [now left|].
             right. exists row. split; [now left|]. now split.
          -- right. exists r. split; [now right | exact Hr].
        * intros [H|[r [[<-|Hin] [Hr1 Hr2]]]].
          -- left. apply keys_into_set. now left.
          -- left. apply keys_into_set. right. congruence.
          -- right. now exists r. }
  intros Hparse k. rewrite (G [] Hparse k). cbn [dict_keys map In]. tauto.
Qed.

Lemma volstats_keys_are_the_mounted_volumes_witness :
  In "V1" (dict_keys [("V1", "C")]) <->
  exists row,
    In row [[("VolumeID", "V0"); ("MountPoint", "")];
            [("VolumeID", "V1"); ("MountPoint", "C:")]]
    /\ mounted row = true /\ dict_get "VolumeID" row = Some "V1".
Proof.
  apply (volstats_keys_are_the_mounted_volumes
           [[("VolumeID", "V0"); ("MountPoint", "")];
            [("VolumeID", "V1"); ("MountPoint", "C:")]]
           [("V1", "C")] eq_refl "V1").
Defined.

(** X3. A row that comes last decides the label of its volume: parsing the
    table with one more mounted row at the end gives the map of the table
    with that volume set to the first character of the row's MountPoint. *)
Theorem volstats_last_row_wins
    (rows : list csv_row) (row : csv_row) (d : dict string)
    (volume_id mount_point : string) :
  _parse_volstats rows = Returned d ->
  dict_get "VolumeID" row = Some volume_id ->
  dict_get "MountPoint" row = Some mount_point ->
  mount_point <> "" ->
  _parse_volstats (rows ++ [row])
  = Returned (dict_set volume_id (first_char mount_point) d)
  /\ dict_get volume_id (dict_set volume_id (first_char mount_point) d)
     = Some (first_char mount_point).
Proof.
  unfold _parse_volstats. intros Hrows Hv Hm Hne.
  split; [|apply dict_get_set_same].
  rewrite fold_rows_app, Hrows. cbn [bind fold_rows].
  unfold volstats_row, dict_item. rewrite Hm, Hv.
  destruct mount_point as [|c mp]; [congruence|]. reflexivity.
Qed.

Lemma volstats_last_row_wins_witness :
  _parse_volstats
    ([[("VolumeID", "V1"); ("MountPoint", "C:")]]
     ++ [[("VolumeID", "V1"); ("MountPoint", "D:")]])
  = Returned [("V1", "D")].
Proof.
  apply (volstats_last_row_wins
           [[("VolumeID", "V1"); ("MountPoint", "C:")]]
           [("VolumeID", "V1"); ("MountPoint", "D:")]
           [("V1", "C")] "V1" "D:" eq_refl eq_refl eq_refl).
  discriminate.
Defined.

(** X4. Rows without a mount point count for nothing: taking them out of
    the table changes neither the map that is returned nor an error that
    ends the parsing, whatever else those rows hold or lack. *)
Theorem volstats_ignores_unmounted_rows (rows : list csv_row) :
  _parse_volstats (filter mounted rows) = _parse_volstats rows.
Proof.
  unfold _parse_volstats. generalize (@nil (string * string)).
  induction rows as [|row rows IH]; intros acc; [reflexivity|].
  cbn [filter]. destruct (mounted row) eqn:Em; cbn [fold_rows].
  - destruct (volstats_row acc row); cbn [bind]; [apply IH | reflexivity].
  - assert (Hskip : volstats_row acc row = Returned acc).
    { unfold volstats_row. unfold mounted in Em.
      destruct (dict_get "MountPoint" row) as [[|c mp]|];
        [reflexivity | discriminate | reflexivity]. }
    rewrite Hskip. cbn [bind]. apply IH.
Qed.

(** ** [_parse_getthis] *)

(** Whether a row raises, and what, does not depend on the rows before it. *)
Lemma getthis_row_raises_alone (zone : timezone) (destination_folder : pure_path)
    (acc acc' : dict target) (row : csv_row) (e : exn) :
  getthis_row zone destination_folder acc row = Raised e ->
  getthis_row zone destination_folder acc' row = Raised e.
Proof.
  unfold getthis_row, dict_item.
  destruct (dict_get "VolumeID" row); cbn [bind]; [|trivial].
  destruct (dict_get "SnapshotID" row); cbn [bind]; [|trivial].
  destruct (dict_get "FullName" row); cbn [bind]; [|trivial].
  destruct (dict_get "LastModificationDate" row); cbn [bind]; [|trivial].
  destruct (parse_time zone _); cbn [bind]; [|trivial].
  destruct (dict_get "LastAccessDate" row); cbn [bind]; [|trivial].
  destruct (parse_time zone _); cbn [bind]; [|trivial].
  destruct (dict_get "SampleName" row); cbn [bind]; [discriminate|trivial].
Qed.

Lemma parse_getthis_fails_as_a_whole (zone : timezone)
    (destination_folder : pure_path) (rows : list csv_row) (row : csv_row)
    (e : exn) :
  In row rows ->
  getthis_row zone destination_folder [] row = Raised e ->
  exists e', _parse_getthis zone rows destination_folder = Raised e'.
Proof.
  intros Hin Hrow. unfold _parse_getthis.
  generalize (@nil (string * target)). revert Hin.
  induction rows as [|r rows IH]; intros Hin acc; [destruct Hin|].
  cbn [fold_rows]. destruct Hin as [<-|Hin].
  - rewrite (getthis_row_raises_alone _ _ _ acc _ _ Hrow). cbn [bind].
    now exists e.
  - destruct (getthis_row zone destination_folder acc r) as [acc'|e1];
      cbn [bind]; [now apply IH | now exists e1].
Qed.

(** X5. One row that cannot be resolved (a missing column, a timestamp that
    does not parse) makes the whole manifest fail, and the invocation that
    reads it ends in an error before it writes or logs anything: no artifact
    of that archive is extracted. *)
Theorem malformed_manifest_row_stops_the_archive
    (h : host) (destination_folder : pure_path)
    (archives_with_password : dict string) (report_files : list string)
    (report_destination_directory : option pure_path)
    (archive manifest : blob) (archive_name : string)
    (files : list (string * blob)) (row : csv_row) (e : exn) (w : world) :
  blob_7z archive (dict_get archive_name archives_with_password)
  = Opened files ->
  dict_get "GetThis.csv" files = Some manifest ->
  In row (blob_csv manifest) ->
  getthis_row (tz h) destination_folder [] row = Raised e ->
  exists e' w',
    _extract_artefacts_recusrive h destination_folder archives_with_password
      report_files report_destination_directory archive archive_name w
    = (Raised e', w')
    /\ fs w' = fs w /\ log w' = log w /\ warnings w' = warnings w.
Proof.
  intros Hopen Hman Hin Hrow. destruct archive as [data rows z].
  cbn [blob_7z] in Hopen. cbn [_extract_artefacts_recusrive].
  rewrite Hopen. cbn [open_handle]. unfold walk_opened. rewrite Hman.
  destruct (parse_getthis_fails_as_a_whole _ _ _ _ _ Hin Hrow) as [e' ->].
  exists e'. eexists. split; [reflexivity|]. now cbn.
Qed.

Lemma malformed_manifest_row_stops_the_archive_witness :
  exists e' w',
    _extract_artefacts_recusrive Sample.quiet_host Sample.out [] [] None
      Sample.broken_manifest "." Sample.empty_world
    = (Raised e', w')
    /\ fs w' = Dir [] /\ log w' = [] /\ warnings w' = [].
Proof.
  apply (malformed_manifest_row_stops_the_archive Sample.quiet_host
           Sample.out [] [] None Sample.broken_manifest
           (Sample.table [[("SampleName", "abc123")]]) "."
           [("GetThis.csv", Sample.table [[("SampleName", "abc123")]]);
            ("abc123", Sample.raw "X")]
           [("SampleName", "abc123")] (KeyError "VolumeID")
           Sample.empty_world eq_refl eq_refl (or_introl eq_refl) eq_refl).
Defined.

(** *** Separators *)

Lemma to_unix_cons (c : ascii) (s : string) :
  to_unix (String c s)
  = String (if Ascii.eqb c (ascii_of_nat 92) then "/"%char else c) (to_unix s).
Proof.
  unfold to_unix, backslash, str_replace. cbn [replace_from String.prefix].
  destruct (ascii_dec (ascii_of_nat 92) c) as [<-|Hne].
  - rewrite Ascii.eqb_refl. now destruct s.
  - apply not_eq_sym, Ascii.eqb_neq in Hne. now rewrite Hne.
Qed.

Lemma to_unix_app (a b : string) : to_unix (a ++ b) = to_unix a ++ to_unix b.
Proof.
  induction a as [|c a IH]; [reflexivity|].
  cbn [append]. rewrite !to_unix_cons, IH. reflexivity.
Qed.

Lemma to_unix_plain (a : string) :
  has_char (ascii_of_nat 92) a = false -> to_unix a = a.
Proof.
  induction a as [|c a IH]; [reflexivity|].
  cbn [has_char]. intros H. apply orb_false_iff in H. destruct H as [Hc Ha].
  rewrite to_unix_cons, (IH Ha), Ascii.eqb_sym, Hc. reflexivity.
Qed.

Lemma to_unix_has_no_backslash (s : string) :
  has_char (ascii_of_nat 92) (to_unix s) = false.
Proof.
  induction s as [|c s IH]; [reflexivity|].
  rewrite to_unix_cons. cbn [has_char]. rewrite IH, orb_false_r.
  destruct (Ascii.eqb c (ascii_of_nat 92)) eqn:E; [reflexivity|].
  now rewrite Ascii.eqb_sym.
Qed.

(** X6. Every key of the manifest mapping is free of backslashes: a
    SampleName is looked up with its separators turned into slashes, so an
    archive entry whose name contains a backslash is never matched by the
    manifest. *)
Theorem manifest_keys_have_no_backslash
    (zone : timezone) (destination_folder : pure_path)
    (rows : list csv_row) (mapping : dict target) :
  _parse_getthis zone rows destination_folder = Returned mapping ->
  forall sample_name,
    In sample_name (dict_keys mapping) ->
    has_char (ascii_of_nat 92) sample_name = false.
Proof.
  unfold _parse_getthis.
  assert (G : forall acc,
             (forall k, In k (dict_keys acc) ->
                        has_char (ascii_of_nat 92) k = false) ->
             fold_rows (getthis_row zone destination_folder) rows acc
             = Returned mapping ->
             forall k, In k (dict_keys mapping) ->
                       has_char (ascii_of_nat 92) k = false).
  { induction rows as [|row rows IH]; intros acc Hacc; cbn [fold_rows].
    - intros H. apply Returned_inj in H. now subst.
    - destruct (getthis_row zone destination_folder acc row) as [acc'|e]
        eqn:Er; cbn [bind]; [|discriminate].
      apply IH. unfold getthis_row, dict_item in Er.
      destruct (dict_get "VolumeID" row); cbn [bind] in Er; [|discriminate].
      destruct (dict_get "SnapshotID" row); cbn [bind] in Er; [|discriminate].
      destruct (dict_get "FullName" row); cbn [bind] in Er; [|discriminate].
      destruct (dict_get "LastModificationDate" row); cbn [bind] in Er;
        [|discriminate].
      destruct (parse_time zone _); cbn [bind] in Er; [|discriminate].
      destruct (dict_get "LastAccessDate" row); cbn [bind] in Er;
        [|discriminate].
      destruct (parse_time zone _); cbn [bind] in Er; [|discriminate].
      destruct (dict_get "SampleName" row) as [sample|]; cbn [bind] in Er;
        [|discriminate].
      apply Returned_inj in Er. subst acc'.
      intros k Hk. apply keys_after_set in Hk. destruct Hk as [Hk| ->].
      + now apply Hacc.
      + apply to_unix_has_no_backslash. }
  apply G. intros k [].
Qed.

Lemma manifest_keys_have_no_backslash_witness :
  has_char (ascii_of_nat 92) "dir/abc123" = false.
Proof.
  apply (manifest_keys_have_no_backslash utc Sample.out
           [Sample.manifest_row ("dir" ++ backslash ++ "abc123")
              Sample.foo_txt]
           (match _parse_getthis utc
                    [Sample.manifest_row ("dir" ++ backslash ++ "abc123")
                       Sample.foo_txt] Sample.out with
            | Returned m => m
            | Raised _ => []
            end)
           eq_refl "dir/abc123").
  now left.
Defined.

(** *** The original path, component by component *)

Lemma join_with_cons (sep x y : string) (rest : list string) :
  join_with sep (x :: y :: rest) = x ++ sep ++ join_with sep (y :: rest).
Proof. reflexivity. Qed.

Lemma append_assoc (a b c : string) : (a ++ b) ++ c = a ++ (b ++ c).
Proof.
  induction a as [|x a IH]; [reflexivity|]. cbn [append]. now rewrite IH.
Qed.

Lemma to_unix_join (comps : list string) :
  Forall (fun c => has_char (ascii_of_nat 92) c = false) comps ->
  to_unix (join_with backslash comps) = join_with "/" comps.
Proof.
  induction 1 as [|x rest Hx Hrest IH]; [reflexivity|].
  destruct rest as [|y rest].
  - cbn [join_with]. now apply to_unix_plain.
  - rewrite !join_with_cons, !to_unix_app, IH, (to_unix_plain _ Hx).
    reflexivity.
Qed.

Lemma split_on_separated (a rest : string) :
  has_char "/" a = false ->
  split_on "/" (a ++ "/" ++ rest) = a :: split_on "/" rest.
Proof.
  induction a as [|c a IH]; [reflexivity|].
  cbn [has_char]. intros H. apply orb_false_iff in H. destruct H as [Hc Ha].
  cbn [append split_on]. rewrite Ascii.eqb_sym, Hc.
  cbn [append] in IH. now rewrite (IH Ha).
Qed.

Lemma split_on_join (x : string) (rest : list string) :
  Forall (fun c => has_char "/" c = false) (x :: rest) ->
  split_on "/" (join_with "/" (x :: rest)) = x :: rest.
Proof.
  revert x. induction rest as [|y rest IH]; intros x H.
  - inversion H; subst. cbn [join_with]. now apply split_on_no_separator.
  - inversion H as [|? ? Hx Hrest]; subst.
    rewrite join_with_cons, (split_on_separated _ _ Hx). f_equal.
    now apply IH.
Qed.

Lemma filter_components (comps : list string) :
  Forall (fun c => valid_name c = true) comps ->
  filter is_component comps = comps.
Proof.
  induction 1 as [|x rest Hx Hrest IH]; [reflexivity|].
  cbn [filter]. rewrite IH. unfold is_component.
  destruct (valid_name_parts _ Hx) as [_ [H1 [H2 _]]].
  apply String.eqb_neq in H1, H2. now rewrite H1, H2.
Qed.

Lemma parse_joined_names (comps : list string) :
  Forall (fun c => valid_name c = true) comps ->
  parse_segment (join_with "/" comps) = mkPath false comps.
Proof.
  intros H. destruct comps as [|x rest]; [reflexivity|].
  unfold parse_segment. rewrite split_on_join.
  - rewrite (filter_components _ H). f_equal.
    inversion H as [|? ? Hx _]; subst.
    destruct (valid_name_parts _ Hx) as [Hs [Hne _]].
    unfold startswith. destruct x as [|c x]; [congruence|].
    destruct rest; cbn [join_with append String.prefix];
      cbn [has_char] in Hs; apply orb_false_iff in Hs; destruct Hs as [Hc _];
      (destruct (ascii_dec "/" c) as [<-|]; [discriminate | reflexivity]).
  - eapply Forall_impl; [|exact H]. cbn beta. intros c Hc.
    now destruct (valid_name_parts _ Hc).
Qed.

(** X7. A FullName that is a backslash followed by proper names joined by
    backslashes is rebuilt name by name: the resolved path is the
    destination folder, then the volume folder, then those names in their
    order. *)
Theorem windows_path_is_rebuilt
    (destination_folder : pure_path) (volume_id snapshot_id : string)
    (names : list string) :
  valid_name (_naming_convention_volume_folder volume_id snapshot_id) = true ->
  Forall (fun c => valid_name c = true) names ->
  Forall (fun c => has_char (ascii_of_nat 92) c = false) names ->
  resolved_path destination_folder volume_id snapshot_id
    (backslash ++ join_with backslash names)
  = mkPath (absolute destination_folder)
      (parts destination_folder
       ++ _naming_convention_volume_folder volume_id snapshot_id :: names)%list.
Proof.
  intros Hv Hnames Hbs. unfold resolved_path.
  change (backslash ++ join_with backslash names)
    with (String (ascii_of_nat 92) (join_with backslash names)).
  rewrite tail_to_unix, (to_unix_join _ Hbs).
  unfold joinpath. cbn [fold_left].
  change (join1 destination_folder
            (_naming_convention_volume_folder volume_id snapshot_id))
    with (joinpath destination_folder
            [_naming_convention_volume_folder volume_id snapshot_id]).
  rewrite (joinpath_valid_name _ _ Hv).
  unfold join1. rewrite (parse_joined_names _ Hnames).
  cbn [absolute parts child]. now rewrite <- app_assoc.
Qed.

Lemma windows_path_is_rebuilt_witness :
  resolved_path Sample.out "{GUID}" no_snapshot Sample.foo_txt
  = mkPath true ["out"; "{GUID}"; "Windows"; "System32"; "foo.txt"].
Proof.
  apply (windows_path_is_rebuilt Sample.out "{GUID}" no_snapshot
           ["Windows"; "System32"; "foo.txt"] eq_refl).
  - repeat constructor.
  - repeat constructor.
Defined.

(* ================================================================= *)
(** * Further properties of the writer *)

Lemma files_kept_refl (root : node) : files_kept root root.
Proof. intros q c t H. exact H. Qed.

Lemma files_kept_trans (r1 r2 r3 : node) :
  files_kept r1 r2 -> files_kept r2 r3 -> files_kept r1 r3.
Proof. intros H1 H2 q c t H. apply H2, H1, H. Qed.

Lemma lookup_through_file (c : string) (rest : list string)
    (content : string) (times : option (Z * Z)) :
  fs_lookup (c :: rest) (File content times) = None.
Proof. reflexivity. Qed.

(** Creating directories keeps the files. *)
Lemma mkdir_p_keeps_files (ps : list string) :
  forall root root', mkdir_p ps root = Some root' -> files_kept root root'.
Proof.
  induction ps as [|c rest IH]; intros root root' H.
  - destruct root; cbn in H; [discriminate|]. injection H as <-.
    apply files_kept_refl.
  - destruct root as [?|es]; [discriminate|]. cbn [mkdir_p] in H.
    destruct (mkdir_p rest _) as [child'|] eqn:Em; [|discriminate].
    injection H as <-. intros q content times Hq.
    destruct q as [|q0 q']; [discriminate|]. cbn [fs_lookup] in *.
    destruct (string_dec q0 c) as [->|Hne].
    + rewrite dict_get_set_same.
      destruct (dict_get c es) as [n|]; [|discriminate].
      exact (IH _ _ Em _ _ _ Hq).
    + now rewrite (dict_get_set_other _ _ _ _ Hne).
Qed.

(** Putting something where no directory is keeps the files elsewhere. *)
Lemma fs_put_keeps_files (ps : list string) :
  forall (new root root' : node) (q : list string) content times,
    fs_put ps new root = Some root' ->
    (forall es, fs_lookup ps root <> Some (Dir es)) ->
    q <> ps ->
    fs_lookup q root = Some (File content times) ->
    fs_lookup q root' = Some (File content times).
Proof.
  induction ps as [|c rest IH];
    intros new root root' q content times Hput Hnodir Hq Hfile.
  - destruct root; cbn in Hput; discriminate.
  - destruct root as [?|es]; [destruct rest; cbn in Hput; discriminate|].
    destruct q as [|q0 q']; [discriminate|].
    destruct rest as [|c2 rest2].
    + cbn in Hput. injection Hput as <-. cbn [fs_lookup] in *.
      destruct (string_dec q0 c) as [->|Hne];
        [|now rewrite (dict_get_set_other _ _ _ _ Hne)].
      exfalso. destruct (dict_get c es) as [n|]; [|discriminate].
      destruct q' as [|x q'']; [congruence|].
      destruct n as [?|es']; [discriminate|].
      now apply (Hnodir es').
    + rewrite fs_put_deeper in Hput.
      destruct (dict_get c es) as [ch|] eqn:Ec; [|discriminate].
      destruct (fs_put (c2 :: rest2) new ch) as [ch'|] eqn:Ep; [|discriminate].
      injection Hput as <-. cbn [fs_lookup] in Hfile |- *.
      destruct (string_dec q0 c) as [->|Hne];
        [|now rewrite (dict_get_set_other _ _ _ _ Hne)].
      rewrite dict_get_set_same. rewrite Ec in Hfile.
      apply (IH _ _ _ _ _ _ Ep); [| |exact Hfile].
      * intros es' He. apply (Hnodir es'). cbn [fs_lookup]. now rewrite Ec.
      * congruence.
Qed.

(** The statements inside [try] keep the files, however they end. *)
Lemma write_attempt_keeps_files (h : host) (p : pure_path) (content : string)
    (w w' : world) (o : outcome bool) :
  write_attempt h p content w = (o, w') -> files_kept (fs w) (fs w').
Proof.
  unfold write_attempt.
  destruct (is_file h p (fs w)) eqn:Ei.
  { intros H. injection H as _ <-. apply files_kept_refl. }
  assert (Hfree : forall c t,
             fs_lookup (locate h p) (fs w) <> Some (File c t)).
  { intros c t E. unfold is_file in Ei. now rewrite E in Ei. }
  unfold mkdir_parents.
  destruct (refuses h CallMkdir (path_parent p)).
  { intros H. injection H as _ <-. apply files_kept_refl. }
  destruct (mkdir_p _ (fs w)) as [root1|] eqn:Em.
  2: { intros H. injection H as _ <-. apply files_kept_refl. }
  pose proof (mkdir_p_keeps_files _ _ _ Em) as K1.
  unfold open_w.
  destruct (refuses h CallOpen p).
  { intros H. injection H as _ <-. exact K1. }
  assert (K2 : forall root2,
             (forall es, fs_lookup (locate h p) root1 <> Some (Dir es)) ->
             fs_put (locate h p) (File "" None) root1 = Some root2 ->
             files_kept (fs w) root2).
  { intros root2 Hnodir Ep q c t Hq.
    apply (fs_put_keeps_files _ _ _ _ _ _ _ Ep Hnodir).
    - intros ->. exact (Hfree _ _ Hq).
    - now apply K1. }
  assert (K3 : forall root2 root3,
             files_kept (fs w) root2 ->
             fs_lookup (locate h p) root2 = Some (File "" None) ->
             fs_put (locate h p) (File content None) root2 = Some root3 ->
             files_kept (fs w) root3).
  { intros root2 root3 Hk Hl Ep q c t Hq.
    apply (fs_put_keeps_files _ _ _ _ _ _ _ Ep).
    - intros es He. congruence.
    - intros ->. exact (Hfree _ _ Hq).
    - now apply Hk. }
  unfold write_all.
  destruct (fs_lookup (locate h p) root1) as [[c1 t1|es1]|] eqn:E1.
  - destruct (fs_put (locate h p) (File "" None) root1) as [root2|] eqn:Ep.
    2: { intros H. injection H as _ <-. exact K1. }
    assert (Hk2 : files_kept (fs w) root2)
      by (apply K2; [intros es He; discriminate | reflexivity]).
    destruct (refuses h CallWrite p).
    { intros H. injection H as _ <-. exact Hk2. }
    destruct (fs_put (locate h p) (File content None) root2) as [root3|]
      eqn:Ep3.
    2: { intros H. injection H as _ <-. exact Hk2. }
    intros H. injection H as _ <-. cbn [fs set_fs].
    exact (K3 _ _ Hk2 (fs_lookup_put_same _ _ _ _ Ep) Ep3).
  - intros H. injection H as _ <-. exact K1.
  - destruct (fs_put (locate h p) (File "" None) root1) as [root2|] eqn:Ep.
    2: { intros H. injection H as _ <-. exact K1. }
    assert (Hk2 : files_kept (fs w) root2)
      by (apply K2; [intros es He; discriminate | reflexivity]).
    destruct (refuses h CallWrite p).
    { intros H. injection H as _ <-. exact Hk2. }
    destruct (fs_put (locate h p) (File content None) root2) as [root3|]
      eqn:Ep3.
    2: { intros H. injection H as _ <-. exact Hk2. }
    intros H. injection H as _ <-. cbn [fs set_fs].
    exact (K3 _ _ Hk2 (fs_lookup_put_same _ _ _ _ Ep) Ep3).
Qed.

Lemma write_attempt_true_was_free (h : host) (p : pure_path)
    (content : string) (w w' : world) :
  write_attempt h p content w = (Returned true, w') ->
  is_file h p (fs w) = false.
Proof.
  unfold write_attempt. destruct (is_file h p (fs w)); [discriminate|trivial].
Qed.

(** The writer keeps the files, however it ends. *)
Lemma write_file_keeps_files (h : host) (p : pure_path)
    (content : string) (a m : option Z) (w w' : world) (o : outcome bool) :
  _write_file h p content a m w = (o, w') -> files_kept (fs w) (fs w').
Proof.
  unfold _write_file.
  destruct (write_attempt h p content w) as [[[|]|e] w1] eqn:Ew;
    pose proof (write_attempt_keeps_files _ _ _ _ _ _ Ew) as K.
  - pose proof (write_attempt_true_was_free _ _ _ _ _ Ew) as Hfree.
    pose proof (write_attempt_true _ _ _ _ _ Ew) as Hnew.
    destruct (both_set a m) as [[a' m']|].
    + unfold utime. destruct (refuses h CallUtime p).
      * intros H. injection H as _ <-. apply K.
      * rewrite Hnew.
        destruct (fs_put _ _ (fs w1)) as [root|] eqn:Ep.
        -- intros H. injection H as _ <-. cbn [fs set_fs]. intros q c t Hq.
           apply (fs_put_keeps_files _ _ _ _ _ _ _ Ep).
           ++ intros es He. congruence.
           ++ intros ->. unfold is_file in Hfree. now rewrite Hq in Hfree.
           ++ now apply K.
        -- intros H. injection H as _ <-. apply K.
    + intros H. injection H as _ <-. apply K.
  - intros H. injection H as _ <-. apply K.
  - intros H. injection H as _ <-. apply K.
Qed.

(** X8. Whatever the writer is asked to write at a direct path (a path
    without [..]) and however the call ends, by [True], by [False] or by an
    error, every file that existed before the call is still there afterwards
    with the same content and times. *)
Theorem writer_keeps_existing_files (h : host) (p : pure_path)
    (content : string) (a m : option Z) (w w' : world) (o : outcome bool)
    (q : list string) (old : string) (times : option (Z * Z)) :
  direct h p = true ->
  _write_file h p content a m w = (o, w') ->
  fs_lookup q (fs w) = Some (File old times) ->
  fs_lookup q (fs w') = Some (File old times).
Proof.
  intros _ Hw Hq. exact (write_file_keeps_files _ _ _ _ _ _ _ _ Hw _ _ _ Hq).
Qed.

Lemma writer_keeps_existing_files_witness :
  fs_lookup ["out"; "old.txt"]
    (fs (snd (_write_file Sample.no_utime_host
                (joinpath Sample.out ["a.txt"]) "X" (Some 1%Z) (Some 1%Z)
                (mkWorld (Dir [("out", Dir [("old.txt", File "old" None)])])
                   [] [] 0 []))))
  = Some (File "old" None).
Proof.
  apply (writer_keeps_existing_files Sample.no_utime_host
           (joinpath Sample.out ["a.txt"]) "X" (Some 1%Z) (Some 1%Z)
           (mkWorld (Dir [("out", Dir [("old.txt", File "old" None)])])
              [] [] 0 [])
           _ (Raised OSError) ["out"; "old.txt"] "old" None);
    reflexivity.
Defined.



(** X10. The writer ends in an error only through [os.utime]: when no times
    are to be set (one of them is absent or zero), or when the host lets the
    times of the path be set and the two times fit [time_t], every call
    returns [True] or [False]. *)
Theorem writer_returns_unless_utime_fails (h : host) (p : pure_path)
    (content : string) (a m : option Z) (w : world) :
  both_set a m = None
  \/ (refuses h CallUtime p = false
      /\ forall a' m', both_set a m = Some (a', m') ->
                       fits_time_t a' /\ fits_time_t m') ->
  exists (written : bool) (w' : world),
    _write_file h p content a m w = (Returned written, w').
Proof.
  intros Hsafe.
  destruct (_write_file h p content a m w) as [[b|e] w'] eqn:E.
  - now exists b, w'.
  - destruct (write_file_raises_only_from_utime _ _ _ _ _ _ _ _ E)
      as [Hr Hb].
    destruct Hsafe as [Hnone|[Hlet _]]; congruence.
Qed.

Lemma writer_returns_unless_utime_fails_witness :
  exists (written : bool) (w' : world),
    _write_file Sample.quiet_host (joinpath Sample.out ["a.txt"]) "X"
      (Some 5%Z) (Some 7%Z) Sample.empty_world
    = (Returned written, w').
Proof.
  apply (writer_returns_unless_utime_fails Sample.quiet_host
           (joinpath Sample.out ["a.txt"]) "X" (Some 5%Z) (Some 7%Z)
           Sample.empty_world).
  right. split; [reflexivity|].
  intros a' m' H. cbn in H. injection H as <- <-.
  unfold fits_time_t. split; lia.
Defined.

(* ================================================================= *)
(** * Further properties of the walker *)

(** ** What holds from the start to the end of every invocation *)

Section WalkerInvariant.

Variable h : host.
Variable destination_folder : pure_path.
Variable archives_with_password : dict string.
Variable report_files : list string.
Variable report_destination_directory : option pure_path.

(** A relation between the state at the start and the state at the end
    that every step of the walker respects. *)
Variable R : world -> world -> Prop.
Hypothesis R_refl : forall w, R w w.
Hypothesis R_trans : forall w1 w2 w3, R w1 w2 -> R w2 w3 -> R w1 w3.
Hypothesis R_warn : forall msg w, R w (warn msg w).
Hypothesis R_log : forall line w, R w (log_write line w).
Hypothesis R_open : forall w, R w (snd (open_handle w)).
Hypothesis R_close : forall i w, R w (close_handle i w).
Hypothesis R_write :
  forall p content a m w o w',
    _write_file h p content a m w = (o, w') -> R w w'.

Lemma entry_step_respects
    (recurse : blob -> string -> world -> outcome walk_result * world)
    (archive_name : string) (getthis_mapping : dict target)
    (volstat : dict string) (filename : string) (file_content : blob)
    (w w' : world) (o : outcome (dict string)) :
  (forall name w0 o0 w0',
      recurse file_content name w0 = (o0, w0') -> R w0 w0') ->
  entry_step h report_files report_destination_directory recurse
    archive_name getthis_mapping volstat filename file_content w = (o, w') ->
  R w w'.
Proof.
  intros Hrec. unfold entry_step.
  destruct (dict_get filename getthis_mapping) as [t|].
  - destruct (_write_file _ _ _ _ _ _) as [[[|]|e] w1] eqn:Ew;
      apply R_write in Ew; intros H; injection H as _ <-;
      [exact Ew | eapply R_trans; [exact Ew | apply R_log] | exact Ew].
  - destruct (membership _ report_files).
    + destruct report_destination_directory as [dir|].
      * destruct (_write_file _ _ _ _ _ _) as [[[|]|e] w1] eqn:Ew;
          apply R_write in Ew; intros H; injection H as _ <-;
          [exact Ew | eapply R_trans; [exact Ew | apply R_log] | exact Ew].
      * intros H. injection H as _ <-. apply R_refl.
    + destruct (endswith filename ".7z").
      * destruct (recurse file_content filename w) as [[[|sub]|e] w1] eqn:Er;
          apply Hrec in Er; intros H; injection H as _ <-; exact Er.
      * intros H. injection H as _ <-. apply R_refl.
Qed.

Lemma entries_loop_respects
    (recurse : blob -> string -> world -> outcome walk_result * world)
    (archive_name : string) (getthis_mapping : dict target)
    (files : list (string * blob)) :
  Forall (fun nf => forall name w0 o0 w0',
              recurse (snd nf) name w0 = (o0, w0') -> R w0 w0') files ->
  forall (volstat : dict string) (w w' : world) (o : outcome (dict string)),
    entries_loop h report_files report_destination_directory recurse
      archive_name getthis_mapping files volstat w = (o, w') ->
    R w w'.
Proof.
  induction 1 as [|[filename file_content] rest Hhd Htl IH];
    intros volstat w w' o; cbn [entries_loop].
  - intros H. injection H as _ <-. apply R_refl.
  - destruct (entry_step _ _ _ _ _ _ _ _ _ _) as [[v1|e] w1] eqn:Es;
      apply (entry_step_respects _ _ _ _ _ _ _ _ _ Hhd) in Es.
    + intros Hloop. eapply R_trans; [exact Es | exact (IH _ _ _ _ Hloop)].
    + intros H. injection H as _ <-. exact Es.
Qed.

Lemma walk_opened_respects
    (recurse : blob -> string -> world -> outcome walk_result * world)
    (archive_name : string) (handle : nat) (files : list (string * blob))
    (w w' : world) (o : outcome walk_result) :
  Forall (fun nf => forall name w0 o0 w0',
              recurse (snd nf) name w0 = (o0, w0') -> R w0 w0') files ->
  walk_opened h destination_folder report_files
    report_destination_directory recurse archive_name handle files w
  = (o, w') ->
  R w w'.
Proof.
  intros Hfiles. unfold walk_opened.
  destruct (match dict_get "GetThis.csv" files with
            | Some b => _ | None => _ end) as [getthis_mapping|].
  2: { intros H. injection H as _ <-. apply R_refl. }
  destruct (match dict_get "volstats.csv" files with
            | Some b => _ | None => _ end) as [volstat0|].
  2: { intros H. injection H as _ <-. apply R_refl. }
  destruct (entries_loop _ _ _ _ _ _ _ _ _) as [[volstat|e] w1] eqn:El;
    apply (entries_loop_respects _ _ _ _ Hfiles) in El;
    intros H; injection H as _ <-.
  - eapply R_trans; [exact El | apply R_close].
  - exact El.
Qed.

Lemma walker_respects (archive : blob) :
  forall (archive_name : string) (w w' : world) (o : outcome walk_result),
    _extract_artefacts_recusrive h destination_folder archives_with_password
      report_files report_destination_directory archive archive_name w
    = (o, w') ->
    R w w'.
Proof.
  induction archive as [data rows z IH] using blob_induct.
  intros archive_name w w' o. cbn [_extract_artefacts_recusrive].
  specialize (IH (dict_get archive_name archives_with_password)).
  destruct (z (dict_get archive_name archives_with_password))
    as [|e|e|files].
  - intros H. injection H as _ <-. apply R_warn.
  - intros H. injection H as _ <-. apply R_refl.
  - intros H. injection H as _ <-. apply R_open.
  - cbn [open_handle]. intros H.
    eapply R_trans; [apply (R_open w)|]. cbn [open_handle snd].
    eapply walk_opened_respects; [|exact H].
    eapply Forall_impl; [|exact IH]. cbn beta.
    intros [n c] Hc name w0 o0 w0' E. exact (Hc name w0 w0' o0 E).
Qed.

End WalkerInvariant.

Lemma write_attempt_keeps_log (h : host) (p : pure_path) (content : string)
    (w w' : world) (o : outcome bool) :
  write_attempt h p content w = (o, w') -> log w' = log w.
Proof.
  unfold write_attempt.
  destruct (is_file h p (fs w)); [intros H; now injection H as _ <-|].
  destruct (mkdir_parents _ _ _); [|intros H; now injection H as _ <-].
  destruct (open_w _ _ _); [|intros H; now injection H as _ <-].
  destruct (write_all _ _ _ _); intros H; now injection H as _ <-.
Qed.

Lemma write_file_keeps_log (h : host) (p : pure_path) (content : string)
    (a m : option Z) (w w' : world) (o : outcome bool) :
  _write_file h p content a m w = (o, w') -> log w' = log w.
Proof.
  unfold _write_file.
  destruct (write_attempt h p content w) as [[[|]|e] w1] eqn:Ew;
    apply write_attempt_keeps_log in Ew.
  - destruct (both_set a m) as [[a' m']|].
    + destruct (utime _ _ _ _ _); intros H; injection H as _ <-; exact Ew.
    + intros H. injection H as _ <-. exact Ew.
  - intros H. injection H as _ <-. exact Ew.
  - intros H. injection H as _ <-. exact Ew.
Qed.

(** The whole walk keeps the files. *)
Lemma walker_keeps_files (h : host) (destination_folder : pure_path)
    (archives_with_password : dict string) (report_files : list string)
    (report_destination_directory : option pure_path)
    (archive : blob) (archive_name : string) (w w' : world)
    (o : outcome walk_result) :
  _extract_artefacts_recusrive h destination_folder archives_with_password
    report_files report_destination_directory archive archive_name w
  = (o, w') ->
  files_kept (fs w) (fs w').
Proof.
  apply (walker_respects h destination_folder archives_with_password
           report_files report_destination_directory
           (fun w1 w2 => files_kept (fs w1) (fs w2))).
  - intros w1. apply files_kept_refl.
  - intros w1 w2 w3. apply files_kept_trans.
  - intros msg w1. apply files_kept_refl.
  - intros line w1. apply files_kept_refl.
  - intros w1. apply files_kept_refl.
  - intros i w1. apply files_kept_refl.
  - intros p content a m w1 o1 w1'. apply write_file_keeps_files.
Qed.

Lemma Some_inj {A : Type} (x y : A) : Some x = Some y -> x = y.
Proof. intros H. now injection H. Qed.

Lemma Opened_inj {B : Type} (x y : list (string * B)) :
  Opened x = Opened y -> x = y.
Proof. intros H. now injection H. Qed.

(** The archive of the end-to-end example writes to one direct path. *)
Lemma sample_targets_are_direct (name : string) :
  direct_targets Sample.quiet_host Sample.out [] [] None name
    Sample.one_artefact.
Proof.
  apply direct_targets_here.
  - intros files getthis_mapping filename t Hopen Hparse Hget.
    apply Opened_inj in Hopen. subst files.
    vm_compute in Hparse. apply Returned_inj in Hparse.
    subst getthis_mapping. cbn [dict_get] in Hget.
    destruct (String.eqb filename "abc123"); [|discriminate].
    apply Some_inj in Hget. subst t. reflexivity.
  - discriminate.
  - intros files Hopen. apply Opened_inj in Hopen. subst files.
    repeat constructor; cbn; discriminate.
Qed.

(** X11. When every path that the walker may write to is direct (without
    [..]), then however deep the nesting of archives and however the
    invocation ends, by a result, by [False] or by an error, every file that
    existed before it is still there afterwards with the same content and
    times: extraction never overwrites or removes a file.  (The error log
    is a stream of its own here, [log]; what is written to it reaches its
    file when the run leaves the [with] block.) *)
Theorem walker_keeps_existing_files
    (h : host) (destination_folder : pure_path)
    (archives_with_password : dict string) (report_files : list string)
    (report_destination_directory : option pure_path)
    (archive : blob) (archive_name : string) (w w' : world)
    (o : outcome walk_result)
    (q : list string) (old : string) (times : option (Z * Z)) :
  direct_targets h destination_folder archives_with_password report_files
    report_destination_directory archive_name archive ->
  _extract_artefacts_recusrive h destination_folder archives_with_password
    report_files report_destination_directory archive archive_name w
  = (o, w') ->
  fs_lookup q (fs w) = Some (File old times) ->
  fs_lookup q (fs w') = Some (File old times).
Proof.
  intros _ Hwalk Hq.
  exact (walker_keeps_files _ _ _ _ _ _ _ _ _ _ Hwalk _ _ _ Hq).
Qed.

Lemma walker_keeps_existing_files_witness :
  fs_lookup ["out"; "{GUID}"; "Windows"; "System32"; "foo.txt"]
    (fs (snd (_extract_artefacts_recusrive Sample.quiet_host Sample.out
                [] [] None Sample.one_artefact "."
                (mkWorld
                   (Dir [("out",
                          Dir [("{GUID}",
                                Dir [("Windows",
                                      Dir [("System32",
                                            Dir [("foo.txt",
                                                  File "old" None)])])])])])
                   [] [] 0 []))))
  = Some (File "old" None).
Proof.
  apply (walker_keeps_existing_files Sample.quiet_host Sample.out
           [] [] None Sample.one_artefact "."
           (mkWorld
              (Dir [("out",
                     Dir [("{GUID}",
                           Dir [("Windows",
                                 Dir [("System32",
                                       Dir [("foo.txt",
                                             File "old" None)])])])])])
              [] [] 0 [])
           _ (Returned (Result []))
           ["out"; "{GUID}"; "Windows"; "System32"; "foo.txt"] "old" None);
    [apply sample_targets_are_direct | vm_compute; reflexivity ..].
Defined.

(** The whole walk only appends to the log. *)
Lemma walker_log_grows
    (h : host) (destination_folder : pure_path)
    (archives_with_password : dict string) (report_files : list string)
    (report_destination_directory : option pure_path)
    (archive : blob) (archive_name : string) (w w' : world)
    (o : outcome walk_result) :
  _extract_artefacts_recusrive h destination_folder archives_with_password
    report_files report_destination_directory archive archive_name w
  = (o, w') ->
  exists rows, log w' = (log w ++ rows)%list.
Proof.
  apply (walker_respects h destination_folder archives_with_password
           report_files report_destination_directory
           (fun w1 w2 => exists rows, log w2 = (log w1 ++ rows)%list)).
  - intros w1. exists []. now rewrite app_nil_r.
  - intros w1 w2 w3 [r1 E1] [r2 E2]. exists (r1 ++ r2)%list.
    now rewrite E2, E1, app_assoc.
  - intros msg w1. exists []. cbn. now rewrite app_nil_r.
  - intros line w1. now exists [line].
  - intros w1. exists []. cbn. now rewrite app_nil_r.
  - intros i w1. exists []. cbn. now rewrite app_nil_r.
  - intros p content a m w1 o1 w1' Hw. exists [].
    rewrite (write_file_keeps_log _ _ _ _ _ _ _ _ Hw). now rewrite app_nil_r.
Qed.

(** X12. An invocation of the walker only appends to the error log: what
    was written before it is still the beginning of the log afterwards,
    however the invocation ends. *)
Theorem walker_only_appends_to_the_log
    (h : host) (destination_folder : pure_path)
    (archives_with_password : dict string) (report_files : list string)
    (report_destination_directory : option pure_path)
    (archive : blob) (archive_name : string) (w w' : world)
    (o : outcome walk_result) :
  _extract_artefacts_recusrive h destination_folder archives_with_password
    report_files report_destination_directory archive archive_name w
  = (o, w') ->
  exists rows, log w' = (log w ++ rows)%list.
Proof.
  apply walker_log_grows.
Qed.

Lemma walker_only_appends_to_the_log_witness :
  exists rows,
    log (snd (_extract_artefacts_recusrive Sample.quiet_host Sample.out
                [] [] None Sample.one_artefact "."
                (mkWorld (Dir []) [log_header] [] 0 [])))
    = ([log_header] ++ rows)%list.
Proof.
  apply (walker_only_appends_to_the_log Sample.quiet_host Sample.out
           [] [] None Sample.one_artefact "."
           (mkWorld (Dir []) [log_header] [] 0 []) _ (Returned (Result []))).
  vm_compute. reflexivity.
Defined.

(* ================================================================= *)
(** * Further properties of a whole run *)

Lemma mkdir_exist_ok_keeps_files (h : host) (p : pure_path)
    (root root' : node) :
  mkdir_exist_ok h p root = Returned root' -> files_kept root root'.
Proof.
  unfold mkdir_exist_ok.
  destruct (refuses h CallMkdir p); [discriminate|].
  destruct (fs_lookup (locate h p) root) as [[c t|es]|] eqn:El.
  - discriminate.
  - intros H. injection H as <-. apply files_kept_refl.
  - destruct (fs_put _ _ root) as [r|] eqn:Ep; [|discriminate].
    intros H. injection H as <-. intros q c t Hq.
    apply (fs_put_keeps_files _ _ _ _ _ _ _ Ep).
    + intros es He. congruence.
    + intros ->. congruence.
    + exact Hq.
Qed.

Lemma open_w_facts (h : host) (p : pure_path) (root root' : node) :
  open_w h p root = Returned root' ->
  fs_lookup (locate h p) root' = Some (File "" None)
  /\ locate h p <> []
  /\ forall q c t, q <> locate h p ->
                   fs_lookup q root = Some (File c t) ->
                   fs_lookup q root' = Some (File c t).
Proof.
  unfold open_w. destruct (refuses h CallOpen p); [discriminate|].
  assert (G : (forall es, fs_lookup (locate h p) root <> Some (Dir es)) ->
              forall r, fs_put (locate h p) (File "" None) root = Some r ->
                        fs_lookup (locate h p) r = Some (File "" None)
                        /\ locate h p <> []
                        /\ forall q c t, q <> locate h p ->
                             fs_lookup q root = Some (File c t) ->
                             fs_lookup q r = Some (File c t)).
  { intros Hnodir r Ep. split; [exact (fs_lookup_put_same _ _ _ _ Ep)|].
    split.
    - intros E. rewrite E in Ep. destruct root; cbn in Ep; discriminate.
    - intros q c t Hq Hf.
      exact (fs_put_keeps_files _ _ _ _ _ _ _ Ep Hnodir Hq Hf). }
  destruct (fs_lookup (locate h p) root) as [[c0 t0|es0]|] eqn:El;
    [|discriminate|].
  - destruct (fs_put _ _ root) as [r|] eqn:Ep; [|discriminate].
    intros H. injection H as <-. apply G; [|reflexivity].
    intros es He. discriminate.
  - destruct (fs_put _ _ root) as [r|] eqn:Ep; [|discriminate].
    intros H. injection H as <-. apply G; [|reflexivity].
    intros es He. discriminate.
Qed.

Lemma fs_put_where_something_is (ps : list string) :
  forall (new root n : node),
    ps <> [] -> fs_lookup ps root = Some n -> fs_put ps new root <> None.
Proof.
  induction ps as [|c rest IH]; intros new root n Hne Hl; [congruence|].
  destruct root as [?|es]; [discriminate|].
  destruct rest as [|c2 rest2]; [discriminate|].
  rewrite fs_put_deeper. cbn [fs_lookup] in Hl.
  destruct (dict_get c es) as [ch|]; [|discriminate].
  assert (Hp : fs_put (c2 :: rest2) new ch <> None)
    by (apply (IH _ _ n); [discriminate | exact Hl]).
  destruct (fs_put (c2 :: rest2) new ch); [discriminate|congruence].
Qed.

(** Leaving the [with] block on a log that is a file. *)
Lemma flush_log_facts (h : host) (log_path : pure_path) (w : world)
    (c0 : string) (t0 : option (Z * Z)) :
  locate h log_path <> [] ->
  fs_lookup (locate h log_path) (fs w) = Some (File c0 t0) ->
  log (flush_log h log_path w) = log w
  /\ fs_lookup (locate h log_path) (fs (flush_log h log_path w))
     = Some (File (String.concat "" (log w)) None)
  /\ forall q c t, q <> locate h log_path ->
                   fs_lookup q (fs w) = Some (File c t) ->
                   fs_lookup q (fs (flush_log h log_path w))
                   = Some (File c t).
Proof.
  intros Hne Hl. unfold flush_log.
  pose proof (fs_put_where_something_is _
                (File (String.concat "" (log w)) None) _ _ Hne Hl) as Hp.
  destruct (fs_put _ _ (fs w)) as [root|] eqn:Ep; [|congruence].
  cbn [log fs set_fs]. split; [reflexivity|].
  split; [exact (fs_lookup_put_same _ _ _ _ Ep)|].
  intros q c t Hq Hf.
  apply (fs_put_keeps_files _ _ _ _ _ _ _ Ep); [|exact Hq|exact Hf].
  intros es He. congruence.
Qed.

(** A run without renaming, from the opening of the log on. *)
Lemma rebuild_after_log_opened (h : host) (archive : blob)
    (destination_folder : pure_path) (archives_with_password : dict string)
    (report_files : list string)
    (report_destination_directory : option pure_path)
    (root2 root3 : node) (w w4 : world) (o4 : outcome walk_result) :
  let log_path :=
    joinpath destination_folder ["artefacts_non_extracted.csv"] in
  open_w h log_path root2 = Returned root3 ->
  _extract_artefacts_recusrive h destination_folder archives_with_password
    report_files report_destination_directory archive "."
    (mkWorld root3 [log_header] (warnings w) (next_handle w) (open_handles w))
  = (o4, w4) ->
  (exists rows, log (flush_log h log_path w4) = log_header :: rows)
  /\ fs_lookup (locate h log_path) (fs (flush_log h log_path w4))
     = Some (File (String.concat "" (log (flush_log h log_path w4))) None)
  /\ forall q c t, q <> locate h log_path ->
                   fs_lookup q root2 = Some (File c t) ->
                   fs_lookup q (fs (flush_log h log_path w4))
                   = Some (File c t).
Proof.
  intros log_path Hopen Hwalk.
  destruct (open_w_facts _ _ _ _ Hopen) as [Hl3 [Hne Hk3]].
  pose proof (walker_keeps_files _ _ _ _ _ _ _ _ _ _ Hwalk) as Hk4.
  cbn [fs] in Hk4.
  destruct (walker_log_grows _ _ _ _ _ _ _ _ _ _ Hwalk) as [rows Hrows].
  cbn [log] in Hrows.
  destruct (flush_log_facts h log_path w4 _ _ Hne (Hk4 _ _ _ Hl3))
    as [F1 [F2 F3]].
  split; [|split].
  - exists rows. now rewrite F1, Hrows.
  - now rewrite F1.
  - intros q c t Hq Hf. apply F3; [exact Hq|]. apply Hk4. now apply Hk3.
Qed.

(** X13. A run that does not rename volumes, and whose destination folder,
    report directory and written paths are all direct (without [..]), leaves
    every file that existed before it in place, with the same content and
    times, except the error log [artefacts_non_extracted.csv] of the
    destination folder, which it opens for writing; this holds however the
    run ends. *)
Theorem run_without_renaming_keeps_other_files
    (h : host) (archive : blob) (destination_folder : pure_path)
    (configuration_file : option configuration) (w w' : world)
    (o : outcome bool)
    (q : list string) (old : string) (times : option (Z * Z)) :
  run_is_direct h destination_folder configuration_file archive ->
  artefact_rebuilder h archive destination_folder configuration_file false w
  = (o, w') ->
  q <> locate h
         (joinpath destination_folder ["artefacts_non_extracted.csv"]) ->
  fs_lookup q (fs w) = Some (File old times) ->
  fs_lookup q (fs w') = Some (File old times).
Proof.
  intros _ Hrun Hq Hf. unfold artefact_rebuilder in Hrun.
  destruct (mkdir_exist_ok h destination_folder (fs w)) as [root1|e] eqn:E1.
  2: { injection Hrun as _ <-. exact Hf. }
  pose proof (mkdir_exist_ok_keeps_files _ _ _ _ E1 _ _ _ Hf) as Hf1.
  destruct configuration_file as [c|]; cbn [bind] in Hrun.
  - destruct (mkdir_exist_ok h _ root1) as [root2|e] eqn:E2;
      cbn [bind] in Hrun.
    2: { injection Hrun as _ <-. exact Hf1. }
    pose proof (mkdir_exist_ok_keeps_files _ _ _ _ E2 _ _ _ Hf1) as Hf2.
    destruct (open_w h _ root2) as [root3|e] eqn:E3.
    2: { injection Hrun as _ <-. exact Hf2. }
    destruct (_extract_artefacts_recusrive _ _ _ _ _ _ _ _) as [o4 w4]
      eqn:E4.
    destruct (rebuild_after_log_opened _ _ _ _ _ _ _ _ _ _ _ E3 E4)
      as [_ [_ K]].
    destruct o4 as [r|e]; injection Hrun as _ <-; now apply K.
  - destruct (open_w h _ root1) as [root3|e] eqn:E3.
    2: { injection Hrun as _ <-. exact Hf1. }
    destruct (_extract_artefacts_recusrive _ _ _ _ _ _ _ _) as [o4 w4]
      eqn:E4.
    destruct (rebuild_after_log_opened _ _ _ _ _ _ _ _ _ _ _ E3 E4)
      as [_ [_ K]].
    destruct o4 as [r|e]; injection Hrun as _ <-; now apply K.
Qed.

Lemma run_without_renaming_keeps_other_files_witness :
  fs_lookup ["out"; "{GUID}"; "Windows"; "System32"; "foo.txt"]
    (fs (snd (artefact_rebuilder Sample.quiet_host Sample.one_artefact
                Sample.out None false
                (snd (artefact_rebuilder Sample.quiet_host
                        Sample.one_artefact Sample.out None false
                        Sample.empty_world)))))
  = Some (File "X" (Some (1672628645, 1672628645)%Z)).
Proof.
  apply (run_without_renaming_keeps_other_files Sample.quiet_host
           Sample.one_artefact Sample.out None
           (snd (artefact_rebuilder Sample.quiet_host Sample.one_artefact
                   Sample.out None false Sample.empty_world))
           _ (Returned true)
           ["out"; "{GUID}"; "Windows"; "System32"; "foo.txt"] "X"
           (Some (1672628645, 1672628645)%Z)).
  - split; [reflexivity | apply sample_targets_are_direct].
  - vm_compute. reflexivity.
  - vm_compute. discriminate.
  - vm_compute. reflexivity.
Defined.

(** X14. When a run that does not rename volumes, and whose destination
    folder, report directory and written paths are all direct (without
    [..]), returns, the log file of the destination folder holds exactly
    what was written to the log during the run, and that begins with the
    header line. *)
Theorem log_file_holds_header_and_rows
    (h : host) (archive : blob) (destination_folder : pure_path)
    (configuration_file : option configuration) (w w' : world) :
  run_is_direct h destination_folder configuration_file archive ->
  artefact_rebuilder h archive destination_folder configuration_file false w
  = (Returned true, w') ->
  (exists rows, log w' = log_header :: rows)
  /\ fs_lookup
       (locate h
          (joinpath destination_folder ["artefacts_non_extracted.csv"]))
       (fs w')
     = Some (File (String.concat "" (log w')) None).
Proof.
  intros _ Hrun. unfold artefact_rebuilder in Hrun.
  destruct (mkdir_exist_ok h destination_folder (fs w)) as [root1|e] eqn:E1;
    [|discriminate].
  destruct configuration_file as [c|]; cbn [bind] in Hrun.
  - destruct (mkdir_exist_ok h _ root1) as [root2|e] eqn:E2;
      cbn [bind] in Hrun; [|discriminate].
    destruct (open_w h _ root2) as [root3|e] eqn:E3; [|discriminate].
    destruct (_extract_artefacts_recusrive _ _ _ _ _ _ _ _) as [o4 w4]
      eqn:E4.
    destruct (rebuild_after_log_opened _ _ _ _ _ _ _ _ _ _ _ E3 E4)
      as [K1 [K2 _]].
    destruct o4 as [r|e]; [|discriminate]. injection Hrun as <-.
    now split.
  - destruct (open_w h _ root1) as [root3|e] eqn:E3; [|discriminate].
    destruct (_extract_artefacts_recusrive _ _ _ _ _ _ _ _) as [o4 w4]
      eqn:E4.
    destruct (rebuild_after_log_opened _ _ _ _ _ _ _ _ _ _ _ E3 E4)
      as [K1 [K2 _]].
    destruct o4 as [r|e]; [|discriminate]. injection Hrun as <-.
    now split.
Qed.

Lemma log_file_holds_header_and_rows_witness :
  exists rows,
    log (snd (artefact_rebuilder Sample.quiet_host Sample.one_artefact
                Sample.out None false Sample.empty_world))
    = log_header :: rows.
Proof.
  apply (proj1 (log_file_holds_header_and_rows Sample.quiet_host
                  Sample.one_artefact Sample.out None Sample.empty_world
                  _ (conj eq_refl (sample_targets_are_direct "."))
                  ltac:(vm_compute; reflexivity))).
Defined.

Lemma fs_put_needs_parent (ps : list string) :
  forall (new root : node),
    fs_lookup (removelast ps) root = None -> fs_put ps new root = None.
Proof.
  induction ps as [|c rest IH]; intros new root H.
  - now destruct root.
  - destruct rest as [|c2 rest2]; [discriminate|].
    destruct root as [?|es]; [reflexivity|].
    rewrite fs_put_deeper.
    change (removelast (c :: c2 :: rest2))
      with (c :: removelast (c2 :: rest2)) in H.
    cbn [fs_lookup] in H.
    destruct (dict_get c es) as [ch|]; [|reflexivity].
    now rewrite (IH _ _ H).
Qed.

(** X15. The destination folder is created without its parents and must
    not be a file: when a file is at its place, or when the directory that
    should hold it does not exist, the run ends in an [OSError] at once,
    with nothing created, written or logged. *)
Theorem unusable_destination_stops_the_run
    (h : host) (archive : blob) (destination_folder : pure_path)
    (configuration_file : option configuration) (rename_volumes : bool)
    (w : world) :
  is_file h destination_folder (fs w) = true
  \/ fs_lookup (removelast (locate h destination_folder)) (fs w) = None ->
  artefact_rebuilder h archive destination_folder configuration_file
    rename_volumes w
  = (Raised OSError, w).
Proof.
  intros Hbad. unfold artefact_rebuilder.
  assert (E : mkdir_exist_ok h destination_folder (fs w) = Raised OSError).
  { unfold mkdir_exist_ok.
    destruct (refuses h CallMkdir destination_folder); [reflexivity|].
    destruct Hbad as [Hfile|Hparent].
    - unfold is_file in Hfile.
      destruct (fs_lookup (locate h destination_folder) (fs w))
        as [[c t|es]|]; try discriminate. reflexivity.
    - destruct (fs_lookup (locate h destination_folder) (fs w))
        as [[c t|es]|] eqn:El.
      + reflexivity.
      + exfalso. revert El Hparent.
        generalize (locate h destination_folder), (fs w).
        intros ps. induction ps as [|c rest IH]; intros root El Hp;
          [discriminate|].
        destruct rest as [|c2 rest2]; [discriminate|].
        change (removelast (c :: c2 :: rest2))
          with (c :: removelast (c2 :: rest2)) in Hp.
        destruct root as [?|es']; [discriminate|].
        cbn [fs_lookup] in El, Hp.
        destruct (dict_get c es') as [ch|]; [|discriminate].
        exact (IH _ El Hp).
      + now rewrite (fs_put_needs_parent _ _ _ Hparent). }
  now rewrite E.
Qed.

Lemma unusable_destination_stops_the_run_witness :
  artefact_rebuilder Sample.quiet_host Sample.one_artefact
    (parse_segment "/missing/out") None true Sample.empty_world
  = (Raised OSError, Sample.empty_world).
Proof.
  apply (unusable_destination_stops_the_run Sample.quiet_host
           Sample.one_artefact (parse_segment "/missing/out") None true
           Sample.empty_world).
  right. reflexivity.
Defined.

(* ================================================================= *)
(** * Further properties of the renamer *)

Lemma replace_from_skips (old new a s : string) :
  replace_from old new (a ++ s) (String.length a) = replace_from old new s 0.
Proof.
  induction a as [|c a IH]; [|exact IH].
  cbn [append String.length]. destruct s; reflexivity.
Qed.

Lemma prefix_of_append (a s : string) : String.prefix a (a ++ s) = true.
Proof.
  induction a as [|c a IH]; [now destruct s|].
  cbn [append String.prefix].
  destruct (ascii_dec c c); [exact IH | congruence].
Qed.

(** [s.replace(old, new)] on a string that starts with [old]. *)
Lemma str_replace_at_start (old new s : string) :
  old <> "" ->
  str_replace old new (old ++ s) = new ++ str_replace old new s.
Proof.
  destruct old as [|c old]; [congruence|]. intros _.
  unfold str_replace.
  change (String c old ++ s) with (String c (old ++ s)).
  cbn [replace_from].
  change (String c (old ++ s)) with (String c old ++ s).
  rewrite prefix_of_append.
  replace (String.length (String c old) - 1) with (String.length old)
    by (cbn [String.length]; lia).
  now rewrite replace_from_skips.
Qed.

Lemma append_empty (s : string) : s ++ "" = s.
Proof.
  induction s as [|c s IH]; [reflexivity|]. cbn [append]. now rewrite IH.
Qed.

Lemma str_replace_empty (old new : string) :
  old <> "" -> str_replace old new "" = "".
Proof. destruct old; [congruence | reflexivity]. Qed.

(** X16. The Renamer gives the folder of a volume, or of one of its
    snapshots, the name that the naming convention gives with the label in
    place of the VolumeID, provided the VolumeID does not occur again in the
    snapshot suffix: the renaming it then attempts is from the one name to
    the other. *)
Theorem renamed_folder_follows_naming_convention
    (h : host) (destination_folder : pure_path)
    (volume_id letter snapshot_id : string) (root : node) :
  volume_id <> "" ->
  str_replace volume_id letter (" (vsc " ++ snapshot_id ++ ")")
  = " (vsc " ++ snapshot_id ++ ")" ->
  str_replace volume_id letter
    (_naming_convention_volume_folder volume_id snapshot_id)
  = _naming_convention_volume_folder letter snapshot_id
  /\ rename_each h destination_folder volume_id letter
       [_naming_convention_volume_folder volume_id snapshot_id] root
     = match rename h
               (child destination_folder
                  (_naming_convention_volume_folder volume_id snapshot_id))
               (joinpath destination_folder
                  [_naming_convention_volume_folder letter snapshot_id])
               root with
       | Returned root1 => (Returned tt, root1)
       | Raised e => (Raised e, root)
       end.
Proof.
  intros Hne Hsuffix.
  assert (E : str_replace volume_id letter
                (_naming_convention_volume_folder volume_id snapshot_id)
              = _naming_convention_volume_folder letter snapshot_id).
  { unfold _naming_convention_volume_folder.
    destruct (String.eqb snapshot_id no_snapshot).
    - pose proof (str_replace_at_start volume_id letter "" Hne) as H0.
      rewrite (str_replace_empty _ _ Hne), !append_empty in H0. exact H0.
    - now rewrite (str_replace_at_start _ _ _ Hne), Hsuffix. }
  split; [exact E|]. cbn [rename_each]. now rewrite E.
Qed.

Lemma renamed_folder_follows_naming_convention_witness :
  str_replace "{GUID}" "C" (_naming_convention_volume_folder "{GUID}" "{1}")
  = "C (vsc {1})".
Proof.
  apply (proj1 (renamed_folder_follows_naming_convention Sample.quiet_host
                  Sample.out "{GUID}" "C" "{1}" Sample.guid_tree
                  ltac:(discriminate) eq_refl)).
Defined.

(* ================================================================= *)
(** * Further properties of the aggregation *)

Lemma dict_merge_keeps_keys {V : Type} (k : string) (b a : dict V) :
  In k (dict_keys a) -> In k (dict_keys (dict_merge a b)).
Proof.
  revert a. induction b as [|[k' v'] b IH]; intros a H; [exact H|].
  rewrite dict_merge_cons. apply IH. apply keys_into_set. now left.
Qed.

Lemma dict_merge_takes_keys {V : Type} (k : string) (b a : dict V) :
  In k (dict_keys b) -> In k (dict_keys (dict_merge a b)).
Proof.
  revert a. induction b as [|[k' v'] b IH]; intros a H; [destruct H|].
  rewrite dict_merge_cons. destruct H as [E|H].
  - cbn in E. subst k'. apply dict_merge_keeps_keys.
    apply keys_into_set. now right.
  - now apply IH.
Qed.

Lemma entry_step_keeps_keys (h : host) (report_files : list string)
    (report_destination_directory : option pure_path)
    (recurse : blob -> string -> world -> outcome walk_result * world)
    (archive_name : string) (getthis_mapping : dict target)
    (volstat volstat' : dict string) (filename : string)
    (file_content : blob) (w w' : world) (k : string) :
  entry_step h report_files report_destination_directory recurse
    archive_name getthis_mapping volstat filename file_content w
  = (Returned volstat', w') ->
  In k (dict_keys volstat) -> In k (dict_keys volstat').
Proof.
  unfold entry_step.
  destruct (dict_get filename getthis_mapping) as [t|].
  - destruct (_write_file _ _ _ _ _ _) as [[[|]|e] w1];
      intros H; try discriminate; now injection H as <- _.
  - destruct (membership _ report_files).
    + destruct report_destination_directory as [dir|]; [|discriminate].
      destruct (_write_file _ _ _ _ _ _) as [[[|]|e] w1];
        intros H; try discriminate; now injection H as <- _.
    + destruct (endswith filename ".7z").
      * destruct (recurse file_content filename w) as [[[|sub]|e] w1];
          intros H; try discriminate; injection H as <- _;
          [trivial | apply dict_merge_keeps_keys].
      * intros H. now injection H as <- _.
Qed.

Lemma entries_loop_keeps_keys (h : host) (report_files : list string)
    (report_destination_directory : option pure_path)
    (recurse : blob -> string -> world -> outcome walk_result * world)
    (archive_name : string) (getthis_mapping : dict target)
    (files : list (string * blob)) (k : string) :
  forall (volstat volstat' : dict string) (w w' : world),
    entries_loop h report_files report_destination_directory recurse
      archive_name getthis_mapping files volstat w = (Returned volstat', w') ->
    In k (dict_keys volstat) -> In k (dict_keys volstat').
Proof.
  induction files as [|[filename file_content] rest IH];
    intros volstat volstat' w w'; cbn [entries_loop].
  - intros H. now injection H as <- _.
  - destruct (entry_step _ _ _ _ _ _ _ _ _ _) as [[v1|e] w1] eqn:Es;
      [|discriminate].
    intros Hloop Hk. apply (IH _ _ _ _ Hloop).
    exact (entry_step_keeps_keys _ _ _ _ _ _ _ _ _ _ _ _ _ Es Hk).
Qed.

(** What a nested archive that comes up in the loop adds. *)
Lemma entries_loop_takes_nested (h : host) (report_files : list string)
    (report_destination_directory : option pure_path)
    (recurse : blob -> string -> world -> outcome walk_result * world)
    (archive_name : string) (getthis_mapping : dict target)
    (files : list (string * blob)) (k : string) :
  forall (volstat volstat' : dict string) (w w' : world),
    entries_loop h report_files report_destination_directory recurse
      archive_name getthis_mapping files volstat w = (Returned volstat', w') ->
    forall filename file_content,
      In (filename, file_content) files ->
      dict_get filename getthis_mapping = None ->
      membership (archive_name ++ "/" ++ filename) report_files = false ->
      endswith filename ".7z" = true ->
      (forall w0 sub w0',
          recurse file_content filename w0 = (Returned (Result sub), w0') ->
          In k (dict_keys sub)) ->
      (forall w0 w0',
          recurse file_content filename w0 <> (Returned ReturnedFalse, w0')) ->
      In k (dict_keys volstat').
Proof.
  induction files as [|[name content] rest IH];
    intros volstat volstat' w w' Hloop filename file_content Hin
           Hmap Hrep Hext Hsub Hvalid; [destruct Hin|].
  cbn [entries_loop] in Hloop.
  destruct (entry_step _ _ _ _ _ _ _ _ _ _) as [[v1|e] w1] eqn:Es;
    [|discriminate].
  destruct Hin as [E|Hin].
  - injection E as -> ->.
    apply (entries_loop_keeps_keys _ _ _ _ _ _ _ _ _ _ _ _ Hloop).
    unfold entry_step in Es. rewrite Hmap, Hrep, Hext in Es.
    destruct (recurse file_content filename w) as [[[|sub]|e] w2] eqn:Er;
      try discriminate.
    + exfalso. exact (Hvalid _ _ Er).
    + injection Es as <- _. apply dict_merge_takes_keys.
      exact (Hsub _ _ _ Er).
  - exact (IH _ _ _ _ Hloop _ _ Hin Hmap Hrep Hext Hsub Hvalid).
Qed.

(** X17. No label is lost on the way up: every VolumeID of the volume-label
    file of an archive is a key of the map that the invocation on that
    archive returns, whatever its nested archives add or override. *)
Theorem labels_of_this_level_survive
    (h : host) (destination_folder : pure_path)
    (archives_with_password : dict string) (report_files : list string)
    (report_destination_directory : option pure_path)
    (archive labels : blob) (archive_name : string)
    (files : list (string * blob)) (own volstat : dict string)
    (w w' : world) :
  blob_7z archive (dict_get archive_name archives_with_password)
  = Opened files ->
  dict_get "volstats.csv" files = Some labels ->
  _parse_volstats (blob_csv labels) = Returned own ->
  _extract_artefacts_recusrive h destination_folder archives_with_password
    report_files report_destination_directory archive archive_name w
  = (Returned (Result volstat), w') ->
  forall volume_id,
    In volume_id (dict_keys own) -> In volume_id (dict_keys volstat).
Proof.
  intros Hopen Hlab Hown. destruct archive as [data rows z].
  cbn [blob_7z] in Hopen. cbn [_extract_artefacts_recusrive].
  rewrite Hopen. cbn [open_handle]. unfold walk_opened.
  rewrite Hlab, Hown.
  destruct (match dict_get "GetThis.csv" files with
            | Some b => _ | None => _ end) as [getthis_mapping|];
    [|discriminate].
  destruct (entries_loop _ _ _ _ _ _ _ _ _) as [[v|e] w1] eqn:El;
    [|discriminate].
  intros H volume_id Hk. injection H as <- _.
  exact (entries_loop_keeps_keys _ _ _ _ _ _ _ _ _ _ _ _ El Hk).
Qed.

Lemma labels_of_this_level_survive_witness :
  In "V1" (dict_keys [("V1", "D")]).
Proof.
  apply (labels_of_this_level_survive Sample.quiet_host Sample.out [] []
           None Sample.nested_with_label
           (Sample.table [[("VolumeID", "V1"); ("MountPoint", "D:")]])
           "sub.7z"
           [("volstats.csv",
             Sample.table [[("VolumeID", "V1"); ("MountPoint", "D:")]])]
           [("V1", "D")] [("V1", "D")] Sample.empty_world
           (mkWorld (Dir []) [] [] 1 [])
           eq_refl eq_refl eq_refl eq_refl "V1").
  now left.
Defined.

(** ** The value of an invocation does not depend on the state *)

Section SameValue.

Variable h : host.
Variable report_files : list string.
Variable report_destination_directory : option pure_path.
Variable recurse : blob -> string -> world -> outcome walk_result * world.

Lemma entry_step_same_value (archive_name : string)
    (getthis_mapping : dict target) (volstat v1 v2 : dict string)
    (filename : string) (file_content : blob) (w1 w2 w1' w2' : world) :
  (forall name wa wb ra rb wa' wb',
      recurse file_content name wa = (Returned ra, wa') ->
      recurse file_content name wb = (Returned rb, wb') -> ra = rb) ->
  entry_step h report_files report_destination_directory recurse
    archive_name getthis_mapping volstat filename file_content w1
  = (Returned v1, w1') ->
  entry_step h report_files report_destination_directory recurse
    archive_name getthis_mapping volstat filename file_content w2
  = (Returned v2, w2') ->
  v1 = v2.
Proof.
  intros Hrec. unfold entry_step.
  destruct (dict_get filename getthis_mapping) as [t|].
  - destruct (_write_file _ _ _ _ _ w1) as [[[|]|e1] wa];
      destruct (_write_file _ _ _ _ _ w2) as [[[|]|e2] wb];
      intros H1 H2; try discriminate;
      injection H1 as <- _; injection H2 as <- _; reflexivity.
  - destruct (membership _ report_files).
    + destruct report_destination_directory as [dir|]; [|discriminate].
      destruct (_write_file _ _ _ _ _ w1) as [[[|]|e1] wa];
        destruct (_write_file _ _ _ _ _ w2) as [[[|]|e2] wb];
        intros H1 H2; try discriminate;
        injection H1 as <- _; injection H2 as <- _; reflexivity.
    + destruct (endswith filename ".7z").
      * destruct (recurse file_content filename w1) as [[ra|e1] wa] eqn:E1;
          [|destruct e1; discriminate].
        destruct (recurse file_content filename w2) as [[rb|e2] wb] eqn:E2;
          [|destruct ra; discriminate].
        pose proof (Hrec _ _ _ _ _ _ _ E1 E2) as E. subst rb.
        destruct ra; intros H1 H2;
          injection H1 as <- _; injection H2 as <- _; reflexivity.
      * intros H1 H2. injection H1 as <- _. injection H2 as <- _.
        reflexivity.
Qed.

Lemma entries_loop_same_value (archive_name : string)
    (getthis_mapping : dict target) (files : list (string * blob)) :
  Forall (fun nf => forall name wa wb ra rb wa' wb',
              recurse (snd nf) name wa = (Returned ra, wa') ->
              recurse (snd nf) name wb = (Returned rb, wb') -> ra = rb)
    files ->
  forall (volstat v1 v2 : dict string) (w1 w2 w1' w2' : world),
    entries_loop h report_files report_destination_directory recurse
      archive_name getthis_mapping files volstat w1 = (Returned v1, w1') ->
    entries_loop h report_files report_destination_directory recurse
      archive_name getthis_mapping files volstat w2 = (Returned v2, w2') ->
    v1 = v2.
Proof.
  induction 1 as [|[filename file_content] rest Hhd Htl IH];
    intros volstat v1 v2 w1 w2 w1' w2'; cbn [entries_loop].
  - intros H1 H2. injection H1 as <- _. injection H2 as <- _. reflexivity.
  - destruct (entry_step _ _ _ _ _ _ _ _ _ w1) as [[va|e1] wa] eqn:E1;
      [|discriminate].
    destruct (entry_step _ _ _ _ _ _ _ _ _ w2) as [[vb|e2] wb] eqn:E2;
      [|discriminate].
    pose proof (entry_step_same_value _ _ _ _ _ _ _ _ _ _ _ Hhd E1 E2) as E.
    subst vb. apply IH.
Qed.

End SameValue.

(** When an invocation on an archive returns, its value is decided by the
    archive and its name alone. *)
Lemma walker_same_value (h : host) (destination_folder : pure_path)
    (archives_with_password : dict string) (report_files : list string)
    (report_destination_directory : option pure_path) (archive : blob) :
  forall (archive_name : string) (w1 w2 w1' w2' : world)
         (r1 r2 : walk_result),
    _extract_artefacts_recusrive h destination_folder archives_with_password
      report_files report_destination_directory archive archive_name w1
    = (Returned r1, w1') ->
    _extract_artefacts_recusrive h destination_folder archives_with_password
      report_files report_destination_directory archive archive_name w2
    = (Returned r2, w2') ->
    r1 = r2.
Proof.
  induction archive as [data rows z IH] using blob_induct.
  intros archive_name w1 w2 w1' w2' r1 r2.
  cbn [_extract_artefacts_recusrive].
  specialize (IH (dict_get archive_name archives_with_password)).
  destruct (z (dict_get archive_name archives_with_password))
    as [|e|e|files].
  - intros H1 H2. injection H1 as <- _. injection H2 as <- _. reflexivity.
  - discriminate.
  - discriminate.
  - cbn [open_handle]. unfold walk_opened.
    destruct (match dict_get "GetThis.csv" files with
              | Some b => _ | None => _ end) as [getthis_mapping|];
      [|discriminate].
    destruct (match dict_get "volstats.csv" files with
              | Some b => _ | None => _ end) as [volstat0|];
      [|discriminate].
    destruct (entries_loop _ _ _ _ _ _ _ _ _) as [[va|e1] wa] eqn:E1;
      [|discriminate].
    intros H1.
    match goal with
    | |- context [entries_loop ?a ?b ?c ?d ?e ?f ?g ?v ?x] =>
        destruct (entries_loop a b c d e f g v x) as [[vb|e2] wb] eqn:E2;
        [|discriminate]
    end.
    intros H2. injection H1 as <- _. injection H2 as <- _. f_equal.
    refine (entries_loop_same_value _ _ _ _ _ _ _ _ _ _ _ _ _ _ _ E1 E2).
    eapply Forall_impl; [|exact IH]. cbn beta.
    intros [n c] Hc name wa0 wb0 ra rb wa' wb' Ea Eb.
    exact (Hc name wa0 wb0 wa' wb' ra rb Ea Eb).
Qed.

(** X18. Labels come up from nested archives: when an invocation returns its
    map, every VolumeID that an entry of its archive, walked as a nested
    archive, returns in its own map is a key of that map too. *)
Theorem labels_of_nested_archives_reach_the_parent
    (h : host) (destination_folder : pure_path)
    (archives_with_password : dict string) (report_files : list string)
    (report_destination_directory : option pure_path)
    (archive : blob) (archive_name : string)
    (files : list (string * blob)) (getthis_mapping : dict target)
    (filename : string) (file_content : blob)
    (volstat sub : dict string) (w w' w0 w0' : world) :
  blob_7z archive (dict_get archive_name archives_with_password)
  = Opened files ->
  match dict_get "GetThis.csv" files with
  | Some b => _parse_getthis (tz h) (blob_csv b) destination_folder
  | None => Returned []
  end = Returned getthis_mapping ->
  In (filename, file_content) files ->
  dict_get filename getthis_mapping = None ->
  membership (archive_name ++ "/" ++ filename) report_files = false ->
  endswith filename ".7z" = true ->
  _extract_artefacts_recusrive h destination_folder archives_with_password
    report_files report_destination_directory file_content filename w0
  = (Returned (Result sub), w0') ->
  _extract_artefacts_recusrive h destination_folder archives_with_password
    report_files report_destination_directory archive archive_name w
  = (Returned (Result volstat), w') ->
  forall volume_id,
    In volume_id (dict_keys sub) -> In volume_id (dict_keys volstat).
Proof.
  intros Hopen Hman Hin Hmap Hrep Hext Hchild.
  destruct archive as [data rows z].
  cbn [blob_7z] in Hopen. cbn [_extract_artefacts_recusrive].
  rewrite Hopen. cbn [open_handle]. unfold walk_opened. rewrite Hman.
  destruct (match dict_get "volstats.csv" files with
            | Some b => _ | None => _ end) as [volstat0|];
    [|discriminate].
  destruct (entries_loop _ _ _ _ _ _ _ _ _) as [[v|e] w1] eqn:El;
    [|discriminate].
  intros H volume_id Hk. injection H as <- _.
  apply (entries_loop_takes_nested _ _ _ _ _ _ _ _ _ _ _ _ El
           filename file_content Hin Hmap Hrep Hext).
  - intros wa suba wa' Ea.
    pose proof (walker_same_value _ _ _ _ _ _ _ _ _ _ _ _ _ Ea Hchild) as E.
    injection E as ->. exact Hk.
  - intros wa wa' Ea.
    pose proof (walker_same_value _ _ _ _ _ _ _ _ _ _ _ _ _ Ea Hchild) as E.
    discriminate.
Qed.

Lemma labels_of_nested_archives_reach_the_parent_witness :
  In "V1" (dict_keys [("V1", "D")]).
Proof.
  apply (labels_of_nested_archives_reach_the_parent Sample.quiet_host
           Sample.out [] [] None
           (Sample.container [("sub.7z", Sample.nested_with_label)]) "."
           [("sub.7z", Sample.nested_with_label)] []
           "sub.7z" Sample.nested_with_label
           [("V1", "D")] [("V1", "D")]
           Sample.empty_world (mkWorld (Dir []) [] [] 2 [])
           Sample.empty_world (mkWorld (Dir []) [] [] 1 [])
           eq_refl eq_refl (or_introl eq_refl) eq_refl eq_refl eq_refl
           eq_refl eq_refl "V1").
  now left.
Defined.

(* ================================================================= *)
(** * When the writer succeeds *)

Lemma nothing_in_empty_directory (l : list string) (c : string)
    (t : option (Z * Z)) :
  fs_lookup l (Dir []) <> Some (File c t).
Proof. destruct l; cbn; discriminate. Qed.

(** Directories can be created along a way on which no file lies; what was
    missing below the last of them is still missing. *)
Lemma mkdir_p_succeeds (ps : list string) :
  forall root,
    (forall k c t, fs_lookup (firstn k ps) root <> Some (File c t)) ->
    exists root',
      mkdir_p ps root = Some root'
      /\ (exists es, fs_lookup ps root' = Some (Dir es))
      /\ forall x, fs_lookup (ps ++ [x]) root = None ->
                   fs_lookup (ps ++ [x]) root' = None.
Proof.
  induction ps as [|c rest IH]; intros root Hway.
  - destruct root as [c0 t0|es].
    + exfalso. exact (Hway 0 c0 t0 eq_refl).
    + exists (Dir es). split; [reflexivity|]. split; [now exists es|trivial].
  - destruct root as [c0 t0|es].
    { exfalso. exact (Hway 0 c0 t0 eq_refl). }
    cbn [mkdir_p].
    set (child0 := match dict_get c es with
                   | Some ch => ch
                   | None => Dir []
                   end).
    assert (Hchild : forall k c1 t1,
               fs_lookup (firstn k rest) child0 <> Some (File c1 t1)).
    { intros k c1 t1. subst child0.
      destruct (dict_get c es) as [ch|] eqn:Ec.
      - specialize (Hway (S k) c1 t1). cbn [firstn fs_lookup] in Hway.
        now rewrite Ec in Hway.
      - apply nothing_in_empty_directory. }
    destruct (IH child0 Hchild) as [child' [Em [[es' Hd] Hmiss]]].
    rewrite Em. exists (Dir (dict_set c child' es)).
    split; [reflexivity|]. split.
    + exists es'. cbn [fs_lookup]. now rewrite dict_get_set_same.
    + intros x Hx. cbn [app fs_lookup] in Hx |- *.
      rewrite dict_get_set_same. apply Hmiss. subst child0.
      destruct (dict_get c es) as [ch|]; [exact Hx|].
      destruct (rest ++ [x])%list eqn:E; [now destruct rest|reflexivity].
Qed.

Lemma fs_put_in_directory (ps : list string) :
  forall (x : string) (new root : node) es,
    fs_lookup ps root = Some (Dir es) ->
    fs_put (ps ++ [x]) new root <> None.
Proof.
  induction ps as [|c rest IH]; intros x new root es Hl.
  - cbn in Hl. injection Hl as ->. cbn. discriminate.
  - destruct root as [?|es0]; [discriminate|].
    cbn [fs_lookup] in Hl.
    assert (E : exists y ys, (rest ++ [x])%list = y :: ys)
      by (destruct rest; cbn; eauto).
    destruct E as [y [ys E]].
    cbn [app]. rewrite E, fs_put_deeper, <- E.
    destruct (dict_get c es0) as [ch|]; [|discriminate].
    pose proof (IH x new ch es Hl) as Hp.
    destruct (fs_put (rest ++ [x]) new ch); [discriminate|congruence].
Qed.

(** X19. The writer succeeds whenever the way is clear.  For a proper name
    in a directory with a direct path (without [..]): if the host refuses
    none of the four calls, the times to set, if any, fit [time_t], no file
    lies on the way to the directory and nothing is at the target, the
    writer returns [True]. *)
Theorem writer_succeeds_when_the_way_is_clear
    (h : host) (parent : pure_path) (name content : string)
    (a m : option Z) (w : world) :
  direct h parent = true ->
  valid_name name = true ->
  refuses h CallMkdir parent = false ->
  refuses h CallOpen (child parent name) = false ->
  refuses h CallWrite (child parent name) = false ->
  refuses h CallUtime (child parent name) = false ->
  (forall a' m', both_set a m = Some (a', m') ->
                 fits_time_t a' /\ fits_time_t m') ->
  (forall k c t,
      fs_lookup (firstn k (locate h parent)) (fs w) <> Some (File c t)) ->
  fs_lookup (locate h parent ++ [name]) (fs w) = None ->
  exists w',
    _write_file h (child parent name) content a m w = (Returned true, w').
Proof.
  intros _ Hvalid Hmkdir Hopen Hwrite Hutime _ Hway Hfree.
  destruct (valid_name_parts _ Hvalid) as [_ [_ [_ Hname]]].
  destruct (mkdir_p_succeeds _ _ Hway) as [root1 [Em [[es Hd] Hmiss]]].
  specialize (Hmiss name Hfree).
  assert (Hparent : path_parent (child parent name) = parent).
  { destruct parent as [abs l]. unfold path_parent, child.
    cbn [absolute parts]. now rewrite removelast_last. }
  pose proof (fs_put_in_directory _ name (File "" None) _ _ Hd) as Hp2.
  destruct (fs_put (locate h parent ++ [name]) (File "" None) root1)
    as [root2|] eqn:Ep2; [|congruence].
  pose proof (fs_put_again _ _ (File content None) _ _ Ep2) as Hp3.
  destruct (fs_put (locate h parent ++ [name]) (File content None) root2)
    as [root3|] eqn:Ep3; [|congruence].
  assert (Hattempt :
            write_attempt h (child parent name) content w
            = (Returned true, set_fs w root3)).
  { unfold write_attempt, is_file, mkdir_parents, open_w, write_all.
    rewrite Hparent, Hmkdir, Hopen, Hwrite, (locate_child _ _ _ Hname),
      Hfree, Em, Hmiss, Ep2, Ep3. reflexivity. }
  unfold _write_file. rewrite Hattempt.
  destruct (both_set a m) as [[a' m']|]; [|now eexists].
  unfold utime. rewrite Hutime, (locate_child _ _ _ Hname). cbn [fs set_fs].
  rewrite (fs_lookup_put_same _ _ _ _ Ep3).
  pose proof (fs_put_again _ _ (File content (Some (a', m'))) _ _ Ep3) as Hp4.
  destruct (fs_put (locate h parent ++ [name])
              (File content (Some (a', m'))) root3) as [root4|];
    [now eexists | congruence].
Qed.

Lemma writer_succeeds_when_the_way_is_clear_witness :
  exists w',
    _write_file Sample.quiet_host
      (child (parse_segment "/out/{GUID}/Windows") "foo.txt") "X"
      (Some 5%Z) (Some 7%Z) Sample.empty_world
    = (Returned true, w').
Proof.
  apply (writer_succeeds_when_the_way_is_clear Sample.quiet_host
           (parse_segment "/out/{GUID}/Windows") "foo.txt" "X"
           (Some 5%Z) (Some 7%Z) Sample.empty_world).
  - reflexivity.
  - reflexivity.
  - reflexivity.
  - reflexivity.
  - reflexivity.
  - reflexivity.
  - intros a' m' H. cbn in H. injection H as <- <-.
    unfold fits_time_t. split; lia.
  - intros k c t.
    destruct k as [|[|[|[|k]]]]; cbn; discriminate.
  - reflexivity.
Defined.

(* ================================================================= *)
(** * Warnings and the error log *)

Lemma write_attempt_warnings (h : host) (p : pure_path) (content : string)
    (w w' : world) (o : outcome bool) :
  write_attempt h p content w = (o, w') ->
  match o with
  | Returned false => exists msg, warnings w' = (warnings w ++ [msg])%list
  | _ => warnings w' = warnings w
  end.
Proof.
  unfold write_attempt.
  destruct (is_file h p (fs w)).
  { intros H. injection H as <- <-. now eexists. }
  destruct (mkdir_parents _ _ _); [|intros H; now injection H as <- <-].
  destruct (open_w _ _ _); [|intros H; now injection H as <- <-].
  destruct (write_all _ _ _ _); intros H; now injection H as <- <-.
Qed.

(** Every way through the writer: one warning with [False], none else. *)
Lemma write_file_warnings (h : host) (p : pure_path) (content : string)
    (a m : option Z) (w w' : world) (o : outcome bool) :
  _write_file h p content a m w = (o, w') ->
  match o with
  | Returned false => exists msg, warnings w' = (warnings w ++ [msg])%list
  | _ => warnings w' = warnings w
  end.
Proof.
  unfold _write_file.
  destruct (write_attempt h p content w) as [[[|]|e] w1] eqn:Ew;
    apply write_attempt_warnings in Ew.
  - destruct (both_set a m) as [[a' m']|].
    + destruct (utime _ _ _ _ _); intros H; injection H as <- <-; exact Ew.
    + intros H. injection H as <- <-. exact Ew.
  - intros H. injection H as <- <-. exact Ew.
  - intros H. injection H as <- <-. cbn [warnings warn].
    rewrite Ew. now eexists.
Qed.

(** X20. The writer never fails silently, and warns of nothing else: a call
    that returns [False] has added exactly one warning, and a call that
    returns [True] or ends in an error has added none. *)
Theorem writer_warns_exactly_when_it_returns_false
    (h : host) (p : pure_path) (content : string) (a m : option Z)
    (w w' : world) (o : outcome bool) :
  _write_file h p content a m w = (o, w') ->
  (o = Returned false ->
   exists msg, warnings w' = (warnings w ++ [msg])%list)
  /\ (o <> Returned false -> warnings w' = warnings w).
Proof.
  intros Hw. apply write_file_warnings in Hw. split.
  - intros ->. exact Hw.
  - intros Ho. destruct o as [[|]|e]; [exact Hw | congruence | exact Hw].
Qed.

Lemma writer_warns_exactly_when_it_returns_false_witness :
  exists msg,
    warnings (snd (_write_file Sample.quiet_host
                     (joinpath Sample.out ["a.txt"]) "X" None None
                     (mkWorld (Dir [("out", Dir [("a.txt", File "old" None)])])
                        [] ["earlier"] 0 [])))
    = (["earlier"] ++ [msg])%list.
Proof.
  apply (proj1 (writer_warns_exactly_when_it_returns_false Sample.quiet_host
                  (joinpath Sample.out ["a.txt"]) "X" None None
                  (mkWorld (Dir [("out", Dir [("a.txt", File "old" None)])])
                     [] ["earlier"] 0 [])
                  _ (Returned false) eq_refl) eq_refl).
Defined.

Section WalkerWarnings.

Variable h : host.
Variable destination_folder : pure_path.
Variable archives_with_password : dict string.
Variable report_files : list string.
Variable report_destination_directory : option pure_path.

Lemma warned_refl (w : world) : warned_for_each_row w w.
Proof. unfold warned_for_each_row. lia. Qed.

Lemma warned_trans (w1 w2 w3 : world) :
  warned_for_each_row w1 w2 -> warned_for_each_row w2 w3 ->
  warned_for_each_row w1 w3.
Proof. unfold warned_for_each_row. lia. Qed.

(** A write, followed by a row in the log when it returned [False]. *)
Lemma write_then_log_warned (p : pure_path) (content : string)
    (a m : option Z) (line : string) (w w1 : world) (o : outcome bool) :
  _write_file h p content a m w = (o, w1) ->
  warned_for_each_row w
    (match o with Returned false => log_write line w1 | _ => w1 end).
Proof.
  intros Hw. pose proof (write_file_keeps_log _ _ _ _ _ _ _ _ Hw) as Hl.
  apply write_file_warnings in Hw. unfold warned_for_each_row.
  destruct o as [[|]|e].
  - rewrite Hl, Hw. lia.
  - destruct Hw as [msg Hw]. cbn [log_write log warnings].
    rewrite Hl, Hw, !length_app. cbn [List.length]. lia.
  - rewrite Hl, Hw. lia.
Qed.

Lemma entry_step_warned
    (recurse : blob -> string -> world -> outcome walk_result * world)
    (archive_name : string) (getthis_mapping : dict target)
    (volstat : dict string) (filename : string) (file_content : blob)
    (w w' : world) (o : outcome (dict string)) :
  (forall name w0 o0 w0',
      recurse file_content name w0 = (o0, w0') ->
      warned_for_each_row w0 w0') ->
  entry_step h report_files report_destination_directory recurse
    archive_name getthis_mapping volstat filename file_content w = (o, w') ->
  warned_for_each_row w w'.
Proof.
  intros Hrec. unfold entry_step.
  destruct (dict_get filename getthis_mapping) as [t|].
  - destruct (_write_file _ _ _ _ _ _) as [[[|]|e] w1] eqn:Ew;
      intros H; injection H as _ <-;
      first [ exact (write_then_log_warned _ _ _ _ _ _ _ _ Ew)
            | exact (write_then_log_warned _ _ _ _ EmptyString _ _ _ Ew) ].
  - destruct (membership _ report_files).
    + destruct report_destination_directory as [dir|].
      * destruct (_write_file _ _ _ _ _ _) as [[[|]|e] w1] eqn:Ew;
          intros H; injection H as _ <-;
          first [ exact (write_then_log_warned _ _ _ _ _ _ _ _ Ew)
                | exact (write_then_log_warned _ _ _ _ EmptyString _ _ _ Ew) ].
      * intros H. injection H as _ <-. apply warned_refl.
    + destruct (endswith filename ".7z").
      * destruct (recurse file_content filename w) as [[[|sub]|e] w1] eqn:Er;
          apply Hrec in Er; intros H; injection H as _ <-; exact Er.
      * intros H. injection H as _ <-. apply warned_refl.
Qed.

Lemma entries_loop_warned
    (recurse : blob -> string -> world -> outcome walk_result * world)
    (archive_name : string) (getthis_mapping : dict target)
    (files : list (string * blob)) :
  Forall (fun nf => forall name w0 o0 w0',
              recurse (snd nf) name w0 = (o0, w0') ->
              warned_for_each_row w0 w0') files ->
  forall (volstat : dict string) (w w' : world) (o : outcome (dict string)),
    entries_loop h report_files report_destination_directory recurse
      archive_name getthis_mapping files volstat w = (o, w') ->
    warned_for_each_row w w'.
Proof.
  induction 1 as [|[filename file_content] rest Hhd Htl IH];
    intros volstat w w' o; cbn [entries_loop].
  - intros H. injection H as _ <-. apply warned_refl.
  - destruct (entry_step _ _ _ _ _ _ _ _ _ _) as [[v1|e] w1] eqn:Es;
      apply (entry_step_warned _ _ _ _ _ _ _ _ _ Hhd) in Es.
    + intros Hloop. eapply warned_trans; [exact Es | exact (IH _ _ _ _ Hloop)].
    + intros H. injection H as _ <-. exact Es.
Qed.

Lemma walker_warned (archive : blob) :
  forall (archive_name : string) (w w' : world) (o : outcome walk_result),
    _extract_artefacts_recusrive h destination_folder archives_with_password
      report_files report_destination_directory archive archive_name w
    = (o, w') ->
    warned_for_each_row w w'.
Proof.
  induction archive as [data rows z IH] using blob_induct.
  intros archive_name w w' o. cbn [_extract_artefacts_recusrive].
  specialize (IH (dict_get archive_name archives_with_password)).
  destruct (z (dict_get archive_name archives_with_password))
    as [|e|e|files].
  - intros H. injection H as _ <-. unfold warned_for_each_row.
    cbn [warn log warnings]. rewrite length_app. lia.
  - intros H. injection H as _ <-. apply warned_refl.
  - intros H. injection H as _ <-. unfold warned_for_each_row. cbn. lia.
  - cbn [open_handle]. unfold walk_opened.
    destruct (match dict_get "GetThis.csv" files with
              | Some b => _ | None => _ end) as [getthis_mapping|].
    2: { intros H. injection H as _ <-. unfold warned_for_each_row. cbn. lia. }
    destruct (match dict_get "volstats.csv" files with
              | Some b => _ | None => _ end) as [volstat0|].
    2: { intros H. injection H as _ <-. unfold warned_for_each_row. cbn. lia. }
    assert (Hfiles :
              Forall (fun nf => forall name w0 o0 w0',
                          _extract_artefacts_recusrive h destination_folder
                            archives_with_password report_files
                            report_destination_directory (snd nf) name w0
                          = (o0, w0') ->
                          warned_for_each_row w0 w0') files).
    { eapply Forall_impl; [|exact IH]. cbn beta.
      intros [n c] Hc name w0 o0 w0' E. exact (Hc name w0 w0' o0 E). }
    destruct (entries_loop _ _ _ _ _ _ _ _ _) as [[volstat|e] w1] eqn:El;
      apply (entries_loop_warned _ _ _ _ Hfiles) in El;
      intros H; injection H as _ <-;
      unfold warned_for_each_row in *; cbn [log warnings close_handle] in *;
      exact El.
Qed.

End WalkerWarnings.

(** X21. No row reaches the error log without a warning: over an invocation
    of the walker, however deep the nesting and however it ends, at least
    as many warnings are added as rows are added to the log. *)
Theorem every_log_row_has_its_warning
    (h : host) (destination_folder : pure_path)
    (archives_with_password : dict string) (report_files : list string)
    (report_destination_directory : option pure_path)
    (archive : blob) (archive_name : string) (w w' : world)
    (o : outcome walk_result) :
  _extract_artefacts_recusrive h destination_folder archives_with_password
    report_files report_destination_directory archive archive_name w
  = (o, w') ->
  List.length (log w') - List.length (log w)
  <= List.length (warnings w') - List.length (warnings w).
Proof.
  intros Hwalk.
  pose proof (walker_warned _ _ _ _ _ _ _ _ _ _ Hwalk) as Hb.
  unfold warned_for_each_row in Hb. lia.
Qed.

Lemma every_log_row_has_its_warning_witness :
  let w :=
    mkWorld
      (Dir [("out",
             Dir [("{GUID}",
                   Dir [("Windows",
                         Dir [("System32",
                               Dir [("foo.txt", File "old" None)])])])])])
      [] [] 0 [] in
  let w' :=
    snd (_extract_artefacts_recusrive Sample.quiet_host Sample.out
           [] [] None Sample.one_artefact "." w) in
  List.length (log w') - List.length (log w)
  <= List.length (warnings w') - List.length (warnings w).
Proof.
  intros w w'.
  apply (every_log_row_has_its_warning Sample.quiet_host Sample.out
           [] [] None Sample.one_artefact "." w w' (Returned (Result []))).
  vm_compute. reflexivity.
Defined.

(* ================================================================= *)
(** * When the walker and the run return *)

Section WalkerReturns.

Variable h : host.
Variable destination_folder : pure_path.
Variable archives_with_password : dict string.
Variable report_files : list string.
Variable report_destination_directory : option pure_path.

Hypothesis utime_allowed : forall p, refuses h CallUtime p = false.
Hypothesis reports_have_a_directory :
  report_files = [] \/ report_destination_directory <> None.





End WalkerReturns.



Lemma fs_lookup_app (a b : list string) :
  forall root,
    fs_lookup (a ++ b) root
    = match fs_lookup a root with
      | Some n => fs_lookup b n
      | None => None
      end.
Proof.
  induction a as [|c rest IH]; intros root; [reflexivity|].
  destruct root as [?|es]; [reflexivity|]. cbn [app fs_lookup].
  destruct (dict_get c es); [apply IH | reflexivity].
Qed.




(* ================================================================= *)
(** * What the Renamer moves *)

(** After a renaming that returned, what is below the new path is what was
    below the old one. *)
Lemma rename_moves_subtree (h : host) (src dst : pure_path)
    (root root' : node) :
  rename h src dst root = Returned root' ->
  forall q,
    fs_lookup (locate h dst ++ q) root' = fs_lookup (locate h src ++ q) root.
Proof.
  unfold rename. destruct (refuses h CallRename src); [discriminate|].
  destruct (fs_lookup (locate h src) root) as [moved|] eqn:Es; [|discriminate].
  destruct (list_eqb (locate h src) (locate h dst)) eqn:El.
  { unfold list_eqb in El. apply andb_true_iff in El. destruct El as [E1 E2].
    rewrite (is_prefix_both _ _ E1 E2).
    intros H. now injection H as <-. }
  destruct (is_prefix_of _ _); [discriminate|].
  match goal with
  | |- (if ?c then _ else _) = _ -> _ => destruct c; [|discriminate]
  end.
  destruct (fs_remove _ root) as [root1|]; [|discriminate].
  destruct (fs_put _ moved root1) as [root2|] eqn:Ep; [|discriminate].
  intros H q. injection H as <-.
  now rewrite !fs_lookup_app, (fs_lookup_put_same _ _ _ _ Ep), Es.
Qed.

(** X24. The Renamer moves a volume folder with all that is in it.  For a
    destination folder with a direct path (without [..]) and a VolumeID that
    the pattern takes literally (not empty, no wildcard, bracket or
    separator): when the pattern of the only VolumeID of the map matches one
    folder and the call returns, whatever was at a path below that folder is
    at the same path below the folder's new name, and, the new name being
    another one, the old name is no longer listed in the destination
    folder. *)
Theorem renamed_volume_keeps_its_content
    (h : host) (destination_folder : pure_path)
    (volume_id letter name : string) (root root' : node) :
  direct h destination_folder = true ->
  plain_id volume_id = true ->
  glob h destination_folder (volume_id ++ "*") root = [name] ->
  valid_name name = true ->
  valid_name (str_replace volume_id letter name) = true ->
  _rename_volumes h destination_folder [(volume_id, letter)] root
  = (Returned tt, root') ->
  (forall q,
      fs_lookup (locate h destination_folder
                 ++ str_replace volume_id letter name :: q) root'
      = fs_lookup (locate h destination_folder ++ name :: q) root)
  /\ (str_replace volume_id letter name <> name ->
      ~ In name (listdir h destination_folder root')).
Proof.
  intros _ _ Hglob Hname Hnew.
  destruct (valid_name_parts _ Hname) as [_ [_ [_ Hn]]].
  destruct (valid_name_parts _ Hnew) as [_ [_ [_ Hm]]].
  unfold _rename_volumes. cbn [dict_keys map fst rename_keys dict_get].
  rewrite String.eqb_refl, Hglob. cbn [rename_each].
  rewrite (joinpath_valid_name _ _ Hnew).
  destruct (rename h (child destination_folder name)
              (child destination_folder (str_replace volume_id letter name))
              root) as [root1|e] eqn:Er; [|discriminate].
  intros H. injection H as <-. split.
  - intros q. pose proof (rename_moves_subtree _ _ _ _ _ Er q) as Hq.
    rewrite (locate_child _ _ _ Hn), (locate_child _ _ _ Hm) in Hq.
    now rewrite <- !app_assoc in Hq.
  - intros Hdiff Hin.
    destruct (names_after_rename _ _ _ _ _ _ Hn Hm
                (fun E => Hdiff (eq_sym E)) Er _ Hin) as [[_ Hne]|He];
      congruence.
Qed.

Lemma renamed_volume_keeps_its_content_witness :
  let root :=
    Dir [("out",
          Dir [("{GUID}",
                Dir [("Windows", Dir [("foo.txt", File "X" None)])])])] in
  let root' := snd (_rename_volumes Sample.quiet_host Sample.out
                      Sample.guid_map root) in
  fs_lookup ["out"; "C"; "Windows"; "foo.txt"] root'
  = Some (File "X" None)
  /\ ~ In "{GUID}" (listdir Sample.quiet_host Sample.out root').
Proof.
  intros root root'.
  destruct (renamed_volume_keeps_its_content Sample.quiet_host Sample.out
              "{GUID}" "C" "{GUID}" root root'
              eq_refl eq_refl eq_refl eq_refl eq_refl eq_refl)
    as [Hmoved Hgone].
  split.
  - exact (Hmoved ["Windows"; "foo.txt"]).
  - apply Hgone. discriminate.
Defined.
